(** * BlogVerse content API: a shallow embedding of the server handlers

    The development follows [src/supabase/functions/server/index.tsx]:
    the two pure helpers [generateSlug] and [calculateReadingTime], the
    key-value store the handlers talk to, and the blog, comment and
    profile handlers, written as store-passing functions that return the
    HTTP response together with the store they leave behind. *)

From Stdlib Require Import ZArith Ascii String.
From stdpp Require Import gmap strings list fin_maps sorting.

Local Open Scope Z_scope.

(** ** JavaScript strings

    A string is a sequence of code units.  The model keeps the code units
    0..255 (Basic Latin and the Latin-1 supplement), on which
    [toLowerCase], the regular-expression class [\s] and [trim] are
    transcribed exactly. *)

Module Js.

Definition code (c : ascii) : N := N_of_ascii c.

Definition in_range (lo hi : N) (c : ascii) : bool :=
  ((lo <=? code c) && (code c <=? hi))%N.

(** [a-z] and [0-9] of the slug regular expression. *)
Definition is_lower (c : ascii) : bool := in_range 97 122 c.
Definition is_digit (c : ascii) : bool := in_range 48 57 c.
Definition is_hyphen (c : ascii) : bool := (code c =? 45)%N.

(** [\s]: TAB, LF, VT, FF, CR, SPACE and NO-BREAK SPACE; the same code
    units are the ones [String.prototype.trim] strips. *)
Definition is_space (c : ascii) : bool :=
  in_range 9 13 c || (code c =? 32)%N || (code c =? 160)%N.

(** Upper-case code units: [A-Z], and U+00C0..U+00DE without U+00D7. *)
Definition is_upper (c : ascii) : bool :=
  in_range 65 90 c || (in_range 192 222 c && negb (code c =? 215)%N).

Definition lower_char (c : ascii) : ascii :=
  if is_upper c then ascii_of_N (code c + 32) else c.

Definition chars (s : string) : list ascii := list_ascii_of_string s.
Definition str (l : list ascii) : string := string_of_list_ascii l.

(** [s.toLowerCase()] *)
Definition toLowerCase (s : string) : string := str (lower_char <$> chars s).

(** [s.replace(/[^...]/g, '')] for a character class given by [keep]. *)
Definition strip (keep : ascii → bool) (l : list ascii) : list ascii :=
  filter (λ c, keep c = true) l.

(** [s.replace(/p+/g, rep)]: every maximal run of characters in the class
    [p] becomes the single character [rep].  [in_run] records that the
    previous character already belonged to the run being replaced. *)
Fixpoint squeeze (p : ascii → bool) (rep : ascii) (in_run : bool)
    (l : list ascii) : list ascii :=
  match l with
  | [] => []
  | c :: r =>
      if p c then
        if in_run then squeeze p rep true r else rep :: squeeze p rep true r
      else c :: squeeze p rep false r
  end.

Fixpoint drop_spaces (l : list ascii) : list ascii :=
  match l with
  | [] => []
  | c :: r => if is_space c then drop_spaces r else l
  end.

Definition trim_chars (l : list ascii) : list ascii :=
  rev (drop_spaces (rev (drop_spaces l))).

(** [s.trim()] *)
Definition trim (s : string) : string := str (trim_chars (chars s)).

(** [s.split(/\s+/)]: the pieces between the maximal whitespace runs; the
    empty string gives the single piece [""], and a run at either end
    gives an empty piece there.  [cur] is the piece being read, reversed. *)
Fixpoint split_ws (cur : list ascii) (in_run : bool) (l : list ascii)
    : list (list ascii) :=
  match l with
  | [] => [rev cur]
  | c :: r =>
      if is_space c then
        if in_run then split_ws [] true r else rev cur :: split_ws [] true r
      else split_ws (c :: cur) false r
  end.

Definition split_spaces (s : string) : list string :=
  str <$> split_ws [] false (chars s).

(** [Math.ceil(a / b)] on integers, for [b <> 0]: the integer results here
    are far below 2^53, where the double division followed by [ceil] is
    exact. *)
Definition ceil_div (a b : Z) : Z := - ((- a) / b).

End Js.

(** ** The two helpers *)

(** [generateSlug], lines 46-53. *)
Definition generateSlug (title : string) : string :=
  let lowered := Js.chars (Js.toLowerCase title) in
  let kept :=
    Js.strip (λ c, Js.is_lower c || Js.is_digit c || Js.is_space c
                    || Js.is_hyphen c) lowered in
  let dashed := Js.squeeze Js.is_space "-"%char false kept in
  let single := Js.squeeze Js.is_hyphen "-"%char false dashed in
  Js.trim (Js.str single).

(** [calculateReadingTime], lines 56-60. *)
Definition calculateReadingTime (content : string) : Z :=
  let wordsPerMinute := 200 in
  let words := Z.of_nat (length (Js.split_spaces (Js.trim content))) in
  Js.ceil_div words wordsPerMinute.

(** ** Stored objects

    Every value kept under a [blog:] key is a JavaScript object with some
    of the properties below; a property the object does not have reads as
    [undefined], here [None].  A full blog record has all of them; a
    published-index entry has [id], [title], [tags], [slug], [authorId]
    and [createdAt] only.  The properties that every such object carries
    are plain fields.  Timestamps are the epoch milliseconds that
    [new Date(iso).getTime()] reads back from the stored ISO text. *)

Module Blog.
Record t := mk {
  id : string;
  title : string;
  content : option string;
  slug : string;
  tags : option (list string);
  isDraft : option bool;
  readingTime : option Z;
  authorId : string;
  createdAt : Z;
  updatedAt : option Z;
  views : option Z
}.
End Blog.

Module Comment.
Record t := mk {
  id : string;
  blogId : string;
  content : string;
  authorId : string;
  createdAt : Z
}.
End Comment.

Module User.
Record t := mk {
  id : string;
  name : string;
  email : string;
  bio : string;
  location : string;
  phone : string;
  website : string;
  avatar : string;
  socialLinks : gmap string string;
  preferences : option (gmap string bool);
  createdAt : Z;
  updatedAt : option Z
}.
End User.

(** The [{id, name}] projection attached to blogs and comments. *)
Record Author := mkAuthor { author_id : string; author_name : string }.

Definition project_author (u : option User.t) : option Author :=
  (λ a, mkAuthor (User.id a) (User.name a)) <$> u.

(** ** The key-value store *)

(** Modelled from the spec: [kv_store.tsx] is imported by the server but is
    not among the sources.  The store is the specification's black box, a
    mapping from string keys to JSON values with get, set, delete and
    prefix scan.  The server keeps four shapes of value: blog records and
    index entries under [blog:], comments under [comment:], profiles under
    [user:${id}] and blog-id lists under [user:${id}:blogs].  The mapping
    is held as one finite map per shape, each keyed by the complete key
    text; the ids in the [user:] keys come from the identity provider and
    hold no colon, so a key of one shape is never a key of another. *)
Record Store := mkStore {
  blogKeys : gmap string Blog.t;          (* `blog:...` *)
  listKeys : gmap string (list string);   (* `user:${id}:blogs` *)
  commentKeys : gmap string Comment.t;    (* `comment:...` *)
  userKeys : gmap string User.t           (* `user:${id}` *)
}.

Definition emptyStore : Store := mkStore ∅ ∅ ∅ ∅.

Definition blog_key (blogId : string) : string := "blog:" +:+ blogId.
Definition published_prefix : string := "blog:published:".
Definition published_key (blogId : string) : string :=
  published_prefix +:+ blogId.
Definition user_key (userId : string) : string := "user:" +:+ userId.
Definition user_blogs_key (userId : string) : string :=
  "user:" +:+ userId +:+ ":blogs".
Definition comment_prefix (blogId : string) : string :=
  "comment:" +:+ blogId +:+ ":".
Definition comment_key (blogId commentId : string) : string :=
  comment_prefix blogId +:+ commentId.

Fixpoint starts_with (p s : string) : bool :=
  match p, s with
  | EmptyString, _ => true
  | String a p', String b s' => bool_decide (a = b) && starts_with p' s'
  | String _ _, EmptyString => false
  end.

(** Modelled from the spec: the prefix scan of the store, which gives the
    values whose key starts with [p], in the order in which the store
    enumerates its keys. *)
Definition scan {V} (p : string) (m : gmap string V) : list V :=
  (filter (λ kv, starts_with p kv.1 = true) (map_to_list m)).*2.

(** ** Handlers as store-passing computations *)

(** The failures of section 7, with the HTTP status each one is sent as. *)
Inductive error :=
  | ValidationError   (* 400 *)
  | AuthError         (* 401 *)
  | ForbiddenError    (* 403 *)
  | NotFoundError     (* 404 *)
  | InternalError.    (* 500, from the handler's catch clause *)

Inductive response (A : Type) :=
  | Json (body : A)
  | Failed (e : error).
Arguments Json {A} body.
Arguments Failed {A} e.

(** A handler runs against the store and leaves a store behind, also when
    it fails: nothing written before a failure is taken back. *)
Definition Handler (A : Type) : Type := Store → Store * response A.

Global Instance Handler_ret : MRet Handler := λ A a st, (st, Json a).
Global Instance Handler_bind : MBind Handler := λ A B f m st,
  match m st with
  | (st', Json a) => f a st'
  | (st', Failed e) => (st', Failed e)
  end.

Definition fail {A} (e : error) : Handler A := λ st, (st, Failed e).

(** Modelled from the spec: get, set, delete and prefix scan of [kv_store],
    one set of operations per shape of value. *)
Module kv.
Definition getBlog (k : string) : Handler (option Blog.t) :=
  λ st, (st, Json (blogKeys st !! k)).
Definition setBlog (k : string) (v : Blog.t) : Handler unit :=
  λ st, (mkStore (<[k := v]> (blogKeys st)) (listKeys st) (commentKeys st)
           (userKeys st), Json ()).
Definition delBlog (k : string) : Handler unit :=
  λ st, (mkStore (delete k (blogKeys st)) (listKeys st) (commentKeys st)
           (userKeys st), Json ()).
Definition blogsByPrefix (p : string) : Handler (list Blog.t) :=
  λ st, (st, Json (scan p (blogKeys st))).

Definition getList (k : string) : Handler (option (list string)) :=
  λ st, (st, Json (listKeys st !! k)).
Definition setList (k : string) (v : list string) : Handler unit :=
  λ st, (mkStore (blogKeys st) (<[k := v]> (listKeys st)) (commentKeys st)
           (userKeys st), Json ()).

Definition setComment (k : string) (v : Comment.t) : Handler unit :=
  λ st, (mkStore (blogKeys st) (listKeys st) (<[k := v]> (commentKeys st))
           (userKeys st), Json ()).
Definition delComment (k : string) : Handler unit :=
  λ st, (mkStore (blogKeys st) (listKeys st) (delete k (commentKeys st))
           (userKeys st), Json ()).
Definition commentsByPrefix (p : string) : Handler (list Comment.t) :=
  λ st, (st, Json (scan p (commentKeys st))).

Definition getUser (k : string) : Handler (option User.t) :=
  λ st, (st, Json (userKeys st !! k)).
Definition setUser (k : string) (v : User.t) : Handler unit :=
  λ st, (mkStore (blogKeys st) (listKeys st) (commentKeys st)
           (<[k := v]> (userKeys st)), Json ()).
End kv.

(** [for (const x of xs) { await body(x) }] *)
Fixpoint forEach {A} (xs : list A) (body : A → Handler unit) : Handler unit :=
  match xs with
  | [] => mret ()
  | x :: r => body x ≫= λ _, forEach r body
  end.

(** [await Promise.all(xs.map(f))] *)
Fixpoint mapAll {A B} (f : A → Handler B) (xs : list A) : Handler (list B) :=
  match xs with
  | [] => mret []
  | x :: r => y ← f x; ys ← mapAll f r; mret (y :: ys)
  end.

(** ** Array helpers *)

(** [hay.includes(needle)] on strings. *)
Fixpoint includes (hay needle : string) : bool :=
  starts_with needle hay ||
  match hay with
  | EmptyString => false
  | String _ rest => includes rest needle
  end.

(** [xs.slice(start, end)], negative indices counting from the end. *)
Definition slice {A} (start end_ : Z) (xs : list A) : list A :=
  let len := Z.of_nat (length xs) in
  let k := if start <? 0 then Z.max (len + start) 0 else Z.min start len in
  let final := if end_ <? 0 then Z.max (len + end_) 0 else Z.min end_ len in
  take (Z.to_nat (final - k)) (drop (Z.to_nat k) xs).

(** [xs.sort((a, b) => time(b) - time(a))]: newest first; the sort is
    stable, so elements of equal time keep their order. *)
Fixpoint insert_newest {A} (time : A → Z) (x : A) (sorted : list A) : list A :=
  match sorted with
  | [] => [x]
  | y :: r => if time x <? time y then y :: insert_newest time x r
              else x :: sorted
  end.

Definition sort_newest_first {A} (time : A → Z) (xs : list A) : list A :=
  foldr (insert_newest time) [] xs.

(** ** Blog handlers *)

(** The JSON body of [POST /blogs] and [PUT /blogs/:id]; a property left
    out of the body is [None]. *)
Record BlogBody := mkBlogBody {
  body_title : option string;
  body_content : option string;
  body_tags : option (list string);
  body_isDraft : option bool
}.

(** The object written under [blog:published:${blogId}]. *)
Definition index_entry (blogId title : string) (tags : option (list string))
    (slug authorId : string) (createdAt : Z) : Blog.t :=
  Blog.mk blogId title None slug tags None None authorId createdAt None None.

(** [POST /blogs], lines 118-174.  [user] is what [getAuthenticatedUser]
    returned, [blogId] the value of [crypto.randomUUID()] and [now] the
    clock. *)
Definition createBlog (user : option string) (body : BlogBody)
    (blogId : string) (now : Z) : Handler Blog.t :=
  match user with
  | None => fail AuthError
  | Some uid =>
    match body_title body, body_content body with
    | Some title, Some content =>
      if bool_decide (title = "") || bool_decide (content = "")
      then fail ValidationError
      else
        let slug := generateSlug title in
        let readingTime := calculateReadingTime content in
        let blog :=
          Blog.mk blogId title (Some content) slug
            (Some (default [] (body_tags body)))
            (Some (default false (body_isDraft body)))
            (Some readingTime) uid now (Some now) (Some 0) in
        kv.setBlog (blog_key blogId) blog;;
        userBlogs ← kv.getList (user_blogs_key uid);
        kv.setList (user_blogs_key uid) (default [] userBlogs ++ [blogId]);;
        (if negb (default false (body_isDraft body))
         then kv.setBlog (published_key blogId)
                (index_entry blogId title (body_tags body) slug uid now)
         else mret ());;
        mret blog
    | _, _ => fail ValidationError
    end
  end.

(** [GET /blogs/:slug], lines 261-305. *)
Definition getBlogBySlug (slug : string) : Handler (Blog.t * option Author) :=
  publishedBlogs ← kv.blogsByPrefix published_prefix;
  let targetBlogId :=
    Blog.id <$> List.find (λ blogIndex, bool_decide (Blog.slug blogIndex = slug))
                  publishedBlogs in
  match targetBlogId with
  | None => fail NotFoundError
  | Some targetBlogId =>
    if bool_decide (targetBlogId = "") then fail NotFoundError
    else
      blog ← kv.getBlog (blog_key targetBlogId);
      match blog with
      | None => fail NotFoundError
      | Some blog =>
        let blog :=
          Blog.mk (Blog.id blog) (Blog.title blog) (Blog.content blog)
            (Blog.slug blog) (Blog.tags blog) (Blog.isDraft blog)
            (Blog.readingTime blog) (Blog.authorId blog) (Blog.createdAt blog)
            (Blog.updatedAt blog) (Some (default 0 (Blog.views blog) + 1)) in
        kv.setBlog (blog_key targetBlogId) blog;;
        author ← kv.getUser (user_key (Blog.authorId blog));
        mret (blog, project_author author)
      end
  end.

(** [PUT /blogs/:id], lines 307-362.  A body without [title] or [content]
    makes the helper throw, which the catch clause answers with 500. *)
Definition updateBlog (user : option string) (blogId : string)
    (body : BlogBody) (now : Z) : Handler Blog.t :=
  match user with
  | None => fail AuthError
  | Some uid =>
    existingBlog ← kv.getBlog (blog_key blogId);
    match existingBlog with
    | None => fail NotFoundError
    | Some existingBlog =>
      if bool_decide (Blog.authorId existingBlog ≠ uid) then fail ForbiddenError
      else
        match body_title body, body_content body with
        | Some title, Some content =>
          let slug := generateSlug title in
          let readingTime := calculateReadingTime content in
          let updatedBlog :=
            Blog.mk (Blog.id existingBlog) title (Some content) slug
              (Some (default [] (body_tags body)))
              (match body_isDraft body with
               | Some d => Some d
               | None => Blog.isDraft existingBlog
               end)
              (Some readingTime) (Blog.authorId existingBlog)
              (Blog.createdAt existingBlog) (Some now)
              (Blog.views existingBlog) in
          kv.setBlog (blog_key blogId) updatedBlog;;
          (if negb (default false (Blog.isDraft updatedBlog))
           then kv.setBlog (published_key blogId)
                  (index_entry blogId title (body_tags body) slug uid
                     (Blog.createdAt existingBlog))
           else kv.delBlog (published_key blogId));;
          mret updatedBlog
        | _, _ => fail InternalError
        end
    end
  end.

(** [DELETE /blogs/:id], lines 364-402. *)
Definition deleteBlog (user : option string) (blogId : string) : Handler bool :=
  match user with
  | None => fail AuthError
  | Some uid =>
    blog ← kv.getBlog (blog_key blogId);
    match blog with
    | None => fail NotFoundError
    | Some blog =>
      if bool_decide (Blog.authorId blog ≠ uid) then fail ForbiddenError
      else
        kv.delBlog (blog_key blogId);;
        kv.delBlog (published_key blogId);;
        userBlogs ← kv.getList (user_blogs_key uid);
        kv.setList (user_blogs_key uid)
          (filter (λ id, id ≠ blogId) (default [] userBlogs));;
        comments ← kv.commentsByPrefix (comment_prefix blogId);
        forEach comments (λ comment,
          kv.delComment (comment_key blogId (Comment.id comment)));;
        mret true
    end
  end.

(** The query string of [GET /blogs]; [page] and [limit] are held as the
    integers [parseInt] reads from them, [None] when the parameter is
    absent or empty. *)
Record BlogQuery := mkBlogQuery {
  query_search : option string;
  query_tag : option string;
  query_page : option Z;
  query_limit : option Z;
  query_authorId : option string
}.

Inductive Listing :=
  | AuthorListing (blogs : list Blog.t) (total : Z)
  | PageListing (blogs : list (Blog.t * option Author)) (total page : Z)
      (totalPages : option Z).

(** The tag test of lines 214-217: does the loop keep this blog? *)
Definition tag_filter (tag : string) (blog : Blog.t) : Handler bool :=
  if bool_decide (tag = "") then mret true
  else match Blog.tags blog with
       | None => fail InternalError
       | Some tags => mret (bool_decide (Js.toLowerCase tag ∈ tags))
       end.

(** The search test of lines 208-212. *)
Definition search_filter (search : string) (blog : Blog.t) : Handler bool :=
  if bool_decide (search = "") then mret true
  else if includes (Js.toLowerCase (Blog.title blog)) (Js.toLowerCase search)
  then mret true
  else match Blog.content blog with
       | None => fail InternalError
       | Some content =>
           mret (includes (Js.toLowerCase content) (Js.toLowerCase search))
       end.

(** One turn of the loop of lines 205-221: the ids it pushes. *)
Definition visit_published (search tag : string) (blogIndex : Blog.t)
    : Handler (list string) :=
  blog ← kv.getBlog (blog_key (Blog.id blogIndex));
  match blog with
  | None => mret []
  | Some blog =>
      found ← search_filter search blog;
      if negb found then mret []
      else
        tagged ← tag_filter tag blog;
        if negb tagged then mret [] else mret [Blog.id blog]
  end.

(** [Math.ceil(total / limit)]; not a finite number when [limit] is 0. *)
Definition total_pages (total limit : Z) : option Z :=
  if limit =? 0 then None else Some (Js.ceil_div total limit).

(** Lines 202-226: scan the published index, push the id of every blog
    that passes both tests, and fetch the pushed ids again. *)
Definition matchingPublished (search tag : string) : Handler (list Blog.t) :=
  publishedBlogs ← kv.blogsByPrefix published_prefix;
  pushed ← mapAll (visit_published search tag) publishedBlogs;
  let blogIds := concat pushed in
  blogs ← mapAll (λ id, kv.getBlog (blog_key id)) blogIds;
  mret (omap (λ b, b) blogs).

(** [GET /blogs], lines 176-259. *)
Definition listBlogs (user : option string) (q : BlogQuery) : Handler Listing :=
  let search := default "" (query_search q) in
  let tag := default "" (query_tag q) in
  let page := default 1 (query_page q) in
  let limit := default 10 (query_limit q) in
  let authorId := default "" (query_authorId q) in
  if negb (bool_decide (authorId = "")) then
    let isOwner := bool_decide (user = Some authorId) in
    userBlogs ← kv.getList (user_blogs_key authorId);
    blogs ← mapAll (λ id, kv.getBlog (blog_key id)) (default [] userBlogs);
    let filteredBlogs :=
      filter (λ blog, isOwner || negb (default false (Blog.isDraft blog)) = true)
        (omap (λ b, b) blogs) in
    mret (AuthorListing filteredBlogs (Z.of_nat (length filteredBlogs)))
  else
    found ← matchingPublished search tag;
    let validBlogs := sort_newest_first Blog.createdAt found in
    let startIndex := (page - 1) * limit in
    let endIndex := startIndex + limit in
    let paginatedBlogs := slice startIndex endIndex validBlogs in
    blogsWithAuthors ←
      mapAll (λ blog, author ← kv.getUser (user_key (Blog.authorId blog));
                      mret (blog, project_author author)) paginatedBlogs;
    mret (PageListing blogsWithAuthors (Z.of_nat (length validBlogs)) page
            (total_pages (Z.of_nat (length validBlogs)) limit)).

(** ** Comment handlers *)

(** [POST /blogs/:blogId/comments], lines 405-451.  The response reads
    [author.id] without a null test, so a commenter without a profile
    record gets 500 after the comment has been stored. *)
Definition addComment (user : option string) (blogId : string)
    (content : option string) (commentId : string) (now : Z)
    : Handler (Comment.t * Author) :=
  match user with
  | None => fail AuthError
  | Some uid =>
    let text := Js.trim (default "" content) in
    if bool_decide (text = "") then fail ValidationError
    else
      blog ← kv.getBlog (blog_key blogId);
      match blog with
      | None => fail NotFoundError
      | Some blog =>
        if default false (Blog.isDraft blog) then fail NotFoundError
        else
          let comment := Comment.mk commentId blogId text uid now in
          kv.setComment (comment_key blogId commentId) comment;;
          author ← kv.getUser (user_key uid);
          match author with
          | None => fail InternalError
          | Some author =>
              mret (comment, mkAuthor (User.id author) (User.name author))
          end
      end
  end.

(** [GET /blogs/:blogId/comments], lines 453-483. *)
Definition listComments (blogId : string)
    : Handler (list (Comment.t * option Author)) :=
  comments ← kv.commentsByPrefix (comment_prefix blogId);
  commentsWithAuthors ←
    mapAll (λ comment, author ← kv.getUser (user_key (Comment.authorId comment));
                       mret (comment, project_author author)) comments;
  mret (sort_newest_first (λ ca, Comment.createdAt ca.1) commentsWithAuthors).

(** ** Profile update *)

(** The JSON body of [PUT /users/:userId]. *)
Record ProfilePatch := mkProfilePatch {
  patch_name : option string;
  patch_email : option string;
  patch_bio : option string;
  patch_location : option string;
  patch_phone : option string;
  patch_website : option string;
  patch_avatar : option string;
  patch_socialLinks : option (gmap string string);
  patch_preferences : option (gmap string bool)
}.

(** [field?.trim() || fallback] *)
Definition trimmed_or (fallback : string) (field : option string) : string :=
  match field with
  | None => fallback
  | Some s => if bool_decide (Js.trim s = "") then fallback else Js.trim s
  end.

(** [{...a, ...b}] on objects that may be [undefined]: the keys of [b]
    override those of [a]. *)
Definition spread2 {V} (a b : option (gmap string V)) : gmap string V :=
  default ∅ b ∪ default ∅ a.

(** [PUT /users/:userId], lines 486-562. *)
Definition updateProfile (user : option string) (userId : string)
    (patch : ProfilePatch) (now : Z) : Handler User.t :=
  match user with
  | None => fail AuthError
  | Some uid =>
    if bool_decide (uid ≠ userId) then fail ForbiddenError
    else
      existingUser ← kv.getUser (user_key userId);
      match existingUser with
      | None => fail NotFoundError
      | Some existingUser =>
        if bool_decide (trimmed_or "" (patch_name patch) = "")
        then fail ValidationError
        else
          let updatedUser :=
            User.mk (User.id existingUser)
              (trimmed_or "" (patch_name patch))
              (trimmed_or (User.email existingUser) (patch_email patch))
              (trimmed_or "" (patch_bio patch))
              (trimmed_or "" (patch_location patch))
              (trimmed_or "" (patch_phone patch))
              (trimmed_or "" (patch_website patch))
              (trimmed_or "" (patch_avatar patch))
              (default ∅ (patch_socialLinks patch))
              (Some (spread2 (User.preferences existingUser)
                       (patch_preferences patch)))
              (User.createdAt existingUser)
              (Some now) in
          kv.setUser (user_key userId) updatedUser;;
          mret updatedUser
      end
  end.

(** ** Vocabulary of the specification *)

(** What is left in the store, and what is answered. *)
Definition store_after {A} (h : Handler A) (st : Store) : Store := (h st).1.
Definition reply {A} (h : Handler A) (st : Store) : response A := (h st).2.

(** A handler that only reads: it hands the store back as it got it. *)
Definition read_only {A} (h : Handler A) : Prop := ∀ st, (h st).1 = st.

(** *** Texts *)

(** Number of whitespace-separated words of a text: the maximal runs of
    characters that are not whitespace.  [in_word] tells that the previous
    character belonged to a word. *)
Fixpoint count_words (in_word : bool) (l : list ascii) : nat :=
  match l with
  | [] => 0
  | c :: r =>
      if Js.is_space c then count_words false r
      else ((if in_word then 0 else 1) + count_words true r)%nat
  end.

Definition word_count (content : string) : Z :=
  Z.of_nat (count_words false (Js.chars content)).

(** Whether a scan that starts in state [w] is inside a word after [l]. *)
Definition ends_in_word (w : bool) (l : list ascii) : bool :=
  match last l with Some c => negb (Js.is_space c) | None => w end.

(** The slug alphabet [a-z0-9-]. *)
Definition slug_char (c : ascii) : bool :=
  Js.is_lower c || Js.is_digit c || Js.is_hyphen c.

Fixpoint adjacent_hyphens (l : list ascii) : bool :=
  match l with
  | c :: r =>
      (Js.is_hyphen c && match r with d :: _ => Js.is_hyphen d | [] => false end)
      || adjacent_hyphens r
  | [] => false
  end.

Definition head_hyphen (l : list ascii) : bool :=
  match l with c :: _ => Js.is_hyphen c | [] => false end.

Definition last_hyphen (l : list ascii) : bool :=
  match last l with Some c => Js.is_hyphen c | None => false end.

(** Equality of two strings up to letter case, as [toLowerCase] folds it. *)
Definition eq_ignore_case (a b : string) : Prop :=
  Js.toLowerCase a = Js.toLowerCase b.

Definition lowercase (s : string) : Prop := Js.toLowerCase s = s.

(** Letter case on the letters A-Z alone. *)
Definition ascii_lower_char (c : ascii) : ascii :=
  if Js.in_range 65 90 c then ascii_of_N (Js.code c + 32) else c.

Definition ascii_lower (s : string) : string :=
  Js.str (ascii_lower_char <$> Js.chars s).

Definition eq_ascii_case (a b : string) : Prop :=
  ascii_lower a = ascii_lower b.

Definition is_ascii (s : string) : Prop :=
  Forall (λ c, (Js.code c < 128)%N) (Js.chars s).

(** A field of a JSON body that is left out, or blank once trimmed. *)
Definition omitted_or_blank (field : option string) : Prop :=
  match field with None => True | Some s => Js.trim s = "" end.

(** *** Ids *)

(** Ids outside the [published:] namespace, and ids without a colon;
    [crypto.randomUUID()] produces ids of both kinds only. *)
Definition plain_id (blogId : string) : Prop :=
  starts_with "published:" blogId = false.

Fixpoint no_colon (s : string) : bool :=
  match s with
  | EmptyString => true
  | String c rest => negb (bool_decide (c = ":"%char)) && no_colon rest
  end.

(** *** The published index *)

(** The published index mirrors the draft flag of one blog id: the entry
    exists exactly when the record exists with [isDraft] false, and then
    carries the record's [createdAt]. *)
Definition index_consistent (st : Store) (blogId : string) : Prop :=
  (is_Some (blogKeys st !! published_key blogId) ↔
     ∃ b, blogKeys st !! blog_key blogId = Some b ∧ Blog.isDraft b = Some false)
  ∧ (∀ e b, blogKeys st !! published_key blogId = Some e →
            blogKeys st !! blog_key blogId = Some b →
            Blog.createdAt e = Blog.createdAt b).

Definition index_invariant (st : Store) : Prop :=
  ∀ blogId, index_consistent st blogId.

(** The shapes the handlers write: an index entry has no [isDraft]
    property, a record under a plain id has one. *)
Definition index_entries_projected (st : Store) : Prop :=
  ∀ blogId e, blogKeys st !! published_key blogId = Some e →
              Blog.isDraft e = None.

Definition records_flagged (st : Store) : Prop :=
  ∀ blogId b, plain_id blogId → blogKeys st !! blog_key blogId = Some b →
              is_Some (Blog.isDraft b).

Definition index_sound (st : Store) : Prop :=
  index_invariant st ∧ index_entries_projected st ∧ records_flagged st.

(** Every record that the index points to has a content and tags, as all
    records written by [createBlog] and [updateBlog] have. *)
Definition indexed_records_complete (st : Store) : Prop :=
  ∀ e b, e ∈ scan published_prefix (blogKeys st) →
         blogKeys st !! blog_key (Blog.id e) = Some b →
         is_Some (Blog.content b) ∧ is_Some (Blog.tags b).

(** [e] is the first entry of a scan whose slug is [slug]. *)
Definition first_with_slug (slug : string) (entries : list Blog.t)
    (e : Blog.t) : Prop :=
  ∃ before after, entries = before ++ e :: after
                  ∧ Forall (λ x, Blog.slug x ≠ slug) before
                  ∧ Blog.slug e = slug.

(** A blog record after one more view. *)
Definition viewed (blog : Blog.t) : Blog.t :=
  Blog.mk (Blog.id blog) (Blog.title blog) (Blog.content blog) (Blog.slug blog)
    (Blog.tags blog) (Blog.isDraft blog) (Blog.readingTime blog)
    (Blog.authorId blog) (Blog.createdAt blog) (Blog.updatedAt blog)
    (Some (default 0 (Blog.views blog) + 1)).

(** *** Comments *)

(** Every comment found by the prefix scan of a blog sits under the key
    that [addComment] gives it, [comment:${blogId}:${comment.id}]. *)
Definition comments_keyed_by_id (st : Store) (blogId : string) : Prop :=
  map_Forall (λ k c, starts_with (comment_prefix blogId) k = true →
                     k = comment_key blogId (Comment.id c))
    (commentKeys st).

(** *** Listings *)

(** [newest_first xs]: every element is at least as new as all later ones. *)
Definition newest_first {A} (time : A → Z) (xs : list A) : Prop :=
  StronglySorted (λ a b, time b <= time a) xs.

(** The blogs of a listing, their ids, and the page count. *)
Definition listed (r : response Listing) : list Blog.t :=
  match r with
  | Json (PageListing blogs _ _ _) => blogs.*1
  | Json (AuthorListing blogs _) => blogs
  | Failed _ => []
  end.

Definition listed_ids (r : response Listing) : list string :=
  Blog.id <$> listed r.

Definition listed_pages (r : response Listing) : option Z :=
  match r with
  | Json (PageListing _ _ _ totalPages) => totalPages
  | _ => None
  end.

Definition found_in (r : response (list Blog.t)) : list Blog.t :=
  match r with Json found => found | Failed _ => [] end.

(** ** Sample data *)

(** A text of [n] one-letter words. *)
Fixpoint words_text (n : nat) : string :=
  match n with
  | O => ""
  | S k => "w " +:+ words_text k
  end.

(** The profile of alice, one published post of hers, and two comments
    on it. *)
Definition sample_user : User.t :=
  User.mk "alice" "Alice" "alice@example.org" "old bio" "Paris" "555" "example.org"
    "a.png" ∅
    (Some {[ "showEmail" := false; "showPhone" := false;
             "emailNotifications" := true ]})
    500 None.

Definition sample_users : Store :=
  mkStore ∅ ∅ ∅ {[ user_key "alice" := sample_user ]}.

Definition sample_patch : ProfilePatch :=
  mkProfilePatch (Some " Alice B ") None None (Some "  ") None None None None
    (Some {[ "showEmail" := true ]}).

Definition sample_body : BlogBody :=
  mkBlogBody (Some "Hello World") (Some "my first post") (Some ["react"]) None.

Definition sample_blog : Blog.t :=
  Blog.mk "b1" "Hello World" (Some "my first post") "hello-world"
    (Some ["react"]) (Some false) (Some 1) "alice" 1000 (Some 1000) (Some 0).

Definition sample_entry : Blog.t :=
  index_entry "b1" "Hello World" (Some ["react"]) "hello-world" "alice" 1000.

Definition sample_store : Store :=
  store_after (createBlog (Some "alice") sample_body "b1" 1000) sample_users.

Definition sample_commented : Store :=
  store_after (addComment (Some "alice") "b1" (Some "thanks") "c2" 3000)
    (store_after (addComment (Some "alice") "b1" (Some " nice ") "c1" 2000)
       sample_store).

(** A second post with the title of the first: two index entries with the
    slug ["hello-world"], that of [b1] first in scan order. *)
Definition second_hello : Store :=
  store_after (createBlog (Some "alice") sample_body "b2" 1500) sample_store.

Definition second_blog : Blog.t :=
  Blog.mk "b2" "Hello World" (Some "my first post") "hello-world"
    (Some ["react"]) (Some false) (Some 1) "alice" 1500 (Some 1500) (Some 0).

Definition second_entry : Blog.t :=
  index_entry "b2" "Hello World" (Some ["react"]) "hello-world" "alice" 1500.

(** The request [DELETE /blogs/published:b1] sent by alice. *)
Definition alias_delete : Handler bool :=
  deleteBlog (Some "alice") "published:b1".

(** Posts published one after the other by alice: id, title and creation
    time of each. *)
Definition publish (post : string * string * Z) (st : Store) : Store :=
  store_after
    (createBlog (Some "alice")
       (mkBlogBody (Some post.1.2) (Some "some text") None None)
       post.1.1 post.2) st.

Definition three_posts : Store :=
  foldr publish sample_users
    [("f3", "Foo again", 30); ("f2", "More foo", 20); ("f1", "A foo", 10)].

Definition eleven_posts : Store :=
  foldr publish sample_users
    [("p11", "Post", 11); ("p10", "Post", 10); ("p09", "Post", 9);
     ("p08", "Post", 8); ("p07", "Post", 7); ("p06", "Post", 6);
     ("p05", "Post", 5); ("p04", "Post", 4); ("p03", "Post", 3);
     ("p02", "Post", 2); ("p01", "Post", 1)].

Definition no_filter : BlogQuery := mkBlogQuery None None None None None.

Definition by_tag (tag : string) : BlogQuery :=
  mkBlogQuery None (Some tag) None None None.

(** [GET /blogs?search=foo&page=2&limit=1] *)
Definition foo_page_two : BlogQuery :=
  mkBlogQuery (Some "foo") None (Some 2) (Some 1) None.

(** A post whose tags are submitted with a capital letter, twice. *)
Definition capital_body : BlogBody :=
  mkBlogBody (Some "Hooks") (Some "some text") (Some ["React"; "React"]) None.

Definition capital_store : Store :=
  store_after (createBlog (Some "alice") capital_body "b7" 50) sample_users.

(** The one-letter strings U+00E9 and U+00C9, e acute in both cases, and a
    post tagged with the first. *)
Definition e_acute : string := String "233"%char "".
Definition E_acute : string := String "201"%char "".

Definition accent_store : Store :=
  store_after
    (createBlog (Some "alice")
       (mkBlogBody (Some "Cafes") (Some "some text") (Some [e_acute]) None)
       "b8" 60) sample_users.

(** * The rest of the server *)

(** ** Authentication and sign-up *)

(** [s.split(sep)] for a one-character separator: the pieces between the
    separators, an empty piece between two adjacent ones.  [cur] is the
    piece being read, reversed. *)
Fixpoint split_on (sep : ascii) (cur : list ascii) (l : list ascii)
    : list (list ascii) :=
  match l with
  | [] => [rev cur]
  | c :: r =>
      if bool_decide (c = sep) then rev cur :: split_on sep [] r
      else split_on sep (c :: cur) r
  end.

(** [request.headers.get('Authorization')?.split(' ')[1]], lines 32-35;
    an empty piece is falsy and counts as no token. *)
Definition accessToken (authorization : option string) : option string :=
  match authorization with
  | None => None
  | Some header =>
      match split_on " " [] (Js.chars header) !! 1%nat with
      | Some piece => if bool_decide (piece = []) then None
                      else Some (Js.str piece)
      | None => None
      end
  end.

(** [getAuthenticatedUser], lines 31-43.  [getUser] is the identity
    provider: the user id that [supabase.auth.getUser] finds for a token,
    or nothing. *)
Definition getAuthenticatedUser (getUser : string → option string)
    (authorization : option string) : option string :=
  match accessToken authorization with
  | None => None
  | Some token => getUser token
  end.

(** The preferences of a new profile, lines 100-106 and 590-596. *)
Definition default_preferences : gmap string bool :=
  {[ "emailNotifications" := true; "publicProfile" := true;
     "showEmail" := false; "showPhone" := false; "showLocation" := true ]}.

(** [POST /signup], lines 68-115.  [created] is the answer of
    [supabase.auth.admin.createUser]: the id of the new user, or nothing
    when the provider reports an error. *)
Definition signup (email password name : option string)
    (created : option string) (now : Z) : Handler string :=
  if bool_decide (default "" email = "") || bool_decide (default "" password = "")
     || bool_decide (default "" name = "")
  then fail ValidationError
  else
    match created with
    | None => fail ValidationError
    | Some userId =>
        kv.setUser (user_key userId)
          (User.mk userId (default "" name) (default "" email) "" "" "" "" ""
             ∅ (Some default_preferences) now None);;
        mret userId
    end.

(** ** Reading a profile *)

(** The user object of [GET /users/:userId]. *)
Record ProfileSummary := mkProfileSummary {
  summary_id : string;
  summary_name : string;
  summary_email : string;
  summary_bio : string;
  summary_location : string;
  summary_phone : string;
  summary_website : string;
  summary_avatar : string;
  summary_socialLinks : gmap string string;
  summary_preferences : gmap string bool;
  summary_createdAt : Z;
  blogCount : Z
}.

(** [GET /users/:userId], lines 564-605. *)
Definition getProfile (userId : string) : Handler ProfileSummary :=
  user ← kv.getUser (user_key userId);
  match user with
  | None => fail NotFoundError
  | Some user =>
      userBlogs ← kv.getList (user_blogs_key userId);
      blogs ← mapAll (λ id, kv.getBlog (blog_key id)) (default [] userBlogs);
      let publishedBlogs :=
        filter (λ blog, negb (default false (Blog.isDraft blog)) = true)
          (omap (λ b, b) blogs) in
      mret (mkProfileSummary (User.id user) (User.name user) (User.email user)
              (User.bio user) (User.location user) (User.phone user)
              (User.website user) (User.avatar user) (User.socialLinks user)
              (default default_preferences (User.preferences user))
              (User.createdAt user) (Z.of_nat (length publishedBlogs)))
  end.

(** ** Popular tags *)

(** [tagCounts[tag] = (tagCounts[tag] || 0) + 1] on the own properties of
    the object, kept in the order in which they were created. *)
Fixpoint bump (tag : string) (counts : list (string * Z)) : list (string * Z) :=
  match counts with
  | [] => [(tag, 1)]
  | (t, n) :: rest =>
      if bool_decide (t = tag) then (t, n + 1) :: rest
      else (t, n) :: bump tag rest
  end.

(** A property name that is an array index: the decimal numeral, without
    a leading zero, of a number up to 2^32 - 2. *)
Fixpoint parse_digits (acc : N) (l : list ascii) : option N :=
  match l with
  | [] => Some acc
  | c :: r =>
      if Js.is_digit c then parse_digits (acc * 10 + (Js.code c - 48)) r
      else None
  end.

Definition array_index (key : string) : option N :=
  match Js.chars key with
  | [] => None
  | c :: r =>
      if bool_decide (c = "0"%char) && negb (bool_decide (r = [])) then None
      else match parse_digits 0 (c :: r) with
           | Some n => if (n <=? 4294967294)%N then Some n else None
           | None => None
           end
  end.

Fixpoint insert_index (entry : N * (string * Z))
    (sorted : list (N * (string * Z))) : list (N * (string * Z)) :=
  match sorted with
  | [] => [entry]
  | e :: r => if (entry.1 <? e.1)%N then entry :: sorted
              else e :: insert_index entry r
  end.

(** [Object.entries(tagCounts)]: the array-index keys in ascending numeric
    order, then the other keys in the order of their creation. *)
Definition entries (counts : list (string * Z)) : list (string * Z) :=
  (foldr insert_index []
     (omap (λ kv, (λ n, (n, kv)) <$> array_index kv.1) counts)).*2
  ++ filter (λ kv, array_index kv.1 = None) counts.

(** One turn of the loop of lines 613-620. *)
Definition count_tags (tagCounts : list (string * Z)) (blogIndex : Blog.t)
    : Handler (list (string * Z)) :=
  blog ← kv.getBlog (blog_key (Blog.id blogIndex));
  match blog with
  | None => mret tagCounts
  | Some blog =>
      match Blog.tags blog with
      | None => mret tagCounts
      | Some tags => mret (foldl (λ counts tag, bump tag counts) tagCounts tags)
      end
  end.

(** [for (const x of xs) { acc = await body(acc, x) }] *)
Fixpoint forEachFrom {A S} (xs : list A) (body : S → A → Handler S) (acc : S)
    : Handler S :=
  match xs with
  | [] => mret acc
  | x :: r => body acc x ≫= forEachFrom r body
  end.

(** [GET /tags], lines 608-632.  [tagCounts] is an ordinary object: a tag
    that is the name of a member of [Object.prototype] reads that member
    in place of a count, and is counted here like any other tag only in
    this transcription; see [ordinary_tag]. *)
Definition popularTags : Handler (list (string * Z)) :=
  publishedBlogs ← kv.blogsByPrefix published_prefix;
  tagCounts ← forEachFrom publishedBlogs count_tags [];
  mret (slice 0 20 (sort_newest_first snd (entries tagCounts))).

(** The names that an ordinary object inherits. *)
Definition prototype_names : list string :=
  ["__proto__"; "constructor"; "hasOwnProperty"; "isPrototypeOf";
   "propertyIsEnumerable"; "toLocaleString"; "toString"; "valueOf";
   "__defineGetter__"; "__defineSetter__"; "__lookupGetter__";
   "__lookupSetter__"].

Definition ordinary_tag (tag : string) : Prop := tag ∉ prototype_names.

(** ** More vocabulary *)

(** The elements of a list answer, none for a failure. *)
Definition items {A} (r : response (list A)) : list A :=
  match r with Json xs => xs | Failed _ => [] end.

(** A blog that is not marked as a draft. *)
Definition not_draft (blog : Blog.t) : Prop :=
  negb (default false (Blog.isDraft blog)) = true.

(** The records of the ids in a user's blog-id list, in list order. *)
Definition own_blogs (st : Store) (userId : string) : list Blog.t :=
  omap (λ id, blogKeys st !! blog_key id)
    (default [] (listKeys st !! user_blogs_key userId)).

(** The query [?authorId=...] and a query with its page replaced. *)
Definition by_author (authorId : string) : BlogQuery :=
  mkBlogQuery None None None None (Some authorId).

Definition with_page (q : BlogQuery) (page : Z) : BlogQuery :=
  mkBlogQuery (query_search q) (query_tag q) (Some page) (query_limit q)
    (query_authorId q).

(** The comment that [addComment] stores. *)
Definition new_comment (caller blogId content commentId : string) (now : Z)
    : Comment.t :=
  Comment.mk commentId blogId (Js.trim content) caller now.

(** The published index points to the blog id only from the entry kept
    under the id's own index key. *)
Definition indexed_once (st : Store) (blogId : string) : Prop :=
  ∀ k e, blogKeys st !! k = Some e → starts_with published_prefix k = true →
         Blog.id e = blogId → k = published_key blogId.

(** [GET /blogs?limit=2], and the posts that the scan of [three_posts]
    finds. *)
Definition two_per_page : BlogQuery := mkBlogQuery None None None (Some 2) None.

Definition three_found : list Blog.t :=
  found_in (reply (matchingPublished "" "") three_posts).

(** The profile that [updateProfile] writes over [existing]. *)
Definition patched (existing : User.t) (patch : ProfilePatch) (now : Z)
    : User.t :=
  User.mk (User.id existing)
    (trimmed_or "" (patch_name patch))
    (trimmed_or (User.email existing) (patch_email patch))
    (trimmed_or "" (patch_bio patch))
    (trimmed_or "" (patch_location patch))
    (trimmed_or "" (patch_phone patch))
    (trimmed_or "" (patch_website patch))
    (trimmed_or "" (patch_avatar patch))
    (default ∅ (patch_socialLinks patch))
    (Some (spread2 (User.preferences existing) (patch_preferences patch)))
    (User.createdAt existing) (Some now).

(** The profile that [signup] writes. *)
Definition fresh_profile (userId name email : string) (now : Z) : User.t :=
  User.mk userId name email "" "" "" "" "" ∅ (Some default_preferences) now
    None.

(** The number that [getProfile] reports as [blogCount]. *)
Definition published_count (st : Store) (userId : string) : Z :=
  Z.of_nat (length (filter not_draft (own_blogs st userId))).

(** The tags that [popularTags] counts: those of the records of the
    indexed blogs, with their repetitions. *)
Definition tags_of (st : Store) (entry : Blog.t) : option (list string) :=
  blog ← blogKeys st !! blog_key (Blog.id entry); Blog.tags blog.

Definition counted_tags (st : Store) : list string :=
  concat (omap (tags_of st) (scan published_prefix (blogKeys st))).

Definition occurrences (tag : string) (tags : list string) : Z :=
  Z.of_nat (length (filter (λ t, t = tag) tags)).

(** The count that [tagCounts[tag] || 0] reads. *)
Fixpoint tally (tag : string) (counts : list (string * Z)) : Z :=
  match counts with
  | [] => 0
  | (t, n) :: rest => if bool_decide (t = tag) then n else tally tag rest
  end.

(** Two tagged posts of alice. *)
Definition tagged_posts : Store :=
  store_after
    (createBlog (Some "alice")
       (mkBlogBody (Some "Two") (Some "text") (Some ["rust"; "coq"]) None)
       "t2" 20)
    (store_after
       (createBlog (Some "alice")
          (mkBlogBody (Some "One") (Some "text")
             (Some ["rust"; "go"; "rust"]) None)
          "t1" 10)
       sample_users).

(** A text without the space character. *)
Definition no_space (s : string) : Prop :=
  Forall (λ c, c ≠ " "%char) (Js.chars s).

(** [needle] occurs in [hay]. *)
Definition occurs_in (needle hay : string) : Prop :=
  ∃ before after, hay = before +:+ needle +:+ after.

(** * The client *)

(** ** The editor: [MarkdownEditor] of [src/components/BlogCard.tsx] *)

(** The state of the editor that the handlers below read and set. *)
Record Editor := mkEditor {
  blogTitle : string;
  blogContent : string;
  blogTags : list string;
  newTag : string
}.

(** [readingTime], lines 575-579. *)
Definition editor_readingTime (ed : Editor) : Z :=
  let wordsPerMinute := 200 in
  let words :=
    Z.of_nat (length (Js.split_spaces (Js.trim (blogContent ed)))) in
  Js.ceil_div words wordsPerMinute.

(** [handleAddTag], lines 581-586. *)
Definition handleAddTag (ed : Editor) : Editor :=
  if negb (bool_decide (Js.trim (newTag ed) = ""))
     && negb (bool_decide (Js.toLowerCase (Js.trim (newTag ed)) ∈ blogTags ed))
  then mkEditor (blogTitle ed) (blogContent ed)
         (blogTags ed ++ [Js.toLowerCase (Js.trim (newTag ed))]) ""
  else ed.

(** [handleRemoveTag], lines 588-590. *)
Definition handleRemoveTag (tagToRemove : string) (ed : Editor) : Editor :=
  mkEditor (blogTitle ed) (blogContent ed)
    (filter (λ tag, tag ≠ tagToRemove) (blogTags ed)) (newTag ed).

(** [handleSave], lines 592-611, with the [onSave] callback given: an
    alert, or the data handed to [onSave]. *)
Inductive saved :=
  | Alert (message : string)
  | Sent (data : BlogBody).

Definition handleSave (saveAsDraft : bool) (ed : Editor) : saved :=
  if bool_decide (Js.trim (blogTitle ed) = "")
  then Alert "Please enter a title for your blog post"
  else if bool_decide (Js.trim (blogContent ed) = "")
  then Alert "Please enter some content for your blog post"
  else Sent (mkBlogBody (Some (Js.trim (blogTitle ed)))
               (Some (Js.trim (blogContent ed))) (Some (blogTags ed))
               (Some saveAsDraft)).

(** ** The profile page: [UserProfile] of [src/components/UserProfile.tsx] *)

(** [getTotalViews], [getPublishedBlogs] and [getDraftBlogs], lines
    85-95. *)
Definition getTotalViews (blogs : list Blog.t) : Z :=
  foldl (λ total blog, total + default 0 (Blog.views blog)) 0 blogs.

Definition getPublishedBlogs (blogs : list Blog.t) : list Blog.t :=
  filter (λ blog, negb (default false (Blog.isDraft blog)) = true) blogs.

Definition getDraftBlogs (blogs : list Blog.t) : list Blog.t :=
  filter (λ blog, default false (Blog.isDraft blog) = true) blogs.

(** ** The home page *)

(** The query that [loadBlogs] sends, lines 401-434 of the application:
    the current page, twelve blogs a page, and the search text and the
    tag when they are not empty. *)
Definition loadBlogs_query (currentPage : Z) (searchQuery activeTag : string)
    : BlogQuery :=
  mkBlogQuery
    (if bool_decide (searchQuery = "") then None else Some searchQuery)
    (if bool_decide (activeTag = "") then None else Some activeTag)
    (Some currentPage) (Some 12) None.

(** [data.totalPages || 1] *)
Definition loaded_totalPages (r : response Listing) : Z :=
  match listed_pages r with
  | Some totalPages => if totalPages =? 0 then 1 else totalPages
  | None => 1
  end.

(** The page buttons of [Pagination], lines 1039-1095 of
    [src/components/Header.tsx]: the number on each button, none when the
    component renders nothing. *)
Definition pageNum (totalPages currentPage i : Z) : Z :=
  if totalPages <=? 7 then i + 1
  else if currentPage <=? 4 then i + 1
  else if totalPages - 3 <=? currentPage then totalPages - 6 + i
  else currentPage - 3 + i.

Definition Pagination (totalPages currentPage : Z) : list Z :=
  if 1 <? totalPages
  then omap (λ i, let pageNum := pageNum totalPages currentPage i in
                  if (pageNum <? 1) || (totalPages <? pageNum) then None
                  else Some pageNum)
         (seqZ 0 (Z.min totalPages 7))
  else [].

(** An editor in which a tag has been typed. *)
Definition sample_editor : Editor :=
  mkEditor " Hello World " "my first  post " ["react"] " Rust ".

(** [GET /blogs?page=...&limit=...], no search text, tag or author. *)
Definition page_of (page limit : Z) : BlogQuery :=
  mkBlogQuery None None (Some page) (Some limit) None.

(** What one turn of the scan pushes when nothing is filtered. *)
Definition pushed_id (st : Store) (entry : Blog.t) : list string :=
  match blogKeys st !! blog_key (Blog.id entry) with
  | Some blog => [Blog.id blog]
  | None => []
  end.

(** * Verification *)

(** ** Running handlers *)

Ltac run :=
  cbv beta iota delta
    [mbind mret Handler_bind Handler_ret fail store_after reply
     kv.getBlog kv.setBlog kv.delBlog kv.blogsByPrefix kv.getList kv.setList
     kv.setComment kv.delComment kv.commentsByPrefix kv.getUser kv.setUser];
  cbn [fst snd blogKeys listKeys commentKeys userKeys].

(** ** Strings *)

Section Words.
Local Open Scope nat_scope.
Implicit Types l : list ascii.

Lemma chars_str l : Js.chars (Js.str l) = l.
Proof. apply list_ascii_of_string_of_list_ascii. Qed.

Lemma ends_in_word_cons w c l :
  ends_in_word w (c :: l) = ends_in_word (negb (Js.is_space c)) l.
Proof.
  unfold ends_in_word. destruct l as [|d l]; [reflexivity|].
  rewrite last_cons_cons. destruct (last (d :: l)) eqn:E; [done|].
  by apply last_None in E.
Qed.

(** Pieces and words are counted by the same alternation of runs. *)
Lemma split_ws_length cur w l :
  length (Js.split_ws cur (negb w) l) + (if ends_in_word w l then 1 else 0)
  = 1 + count_words w l + (if w then 1 else 0).
Proof.
  revert cur w. induction l as [|c r IH]; intros cur w.
  - simpl. unfold ends_in_word. simpl. lia.
  - rewrite ends_in_word_cons. simpl. destruct (Js.is_space c) eqn:Hc; simpl.
    + specialize (IH [] false). simpl in IH. destruct w; simpl; lia.
    + specialize (IH (c :: cur) true). simpl in IH. destruct w; simpl; lia.
Qed.

Lemma drop_spaces_split l :
  ∃ sp, Forall (λ c, Js.is_space c = true) sp ∧ l = sp ++ Js.drop_spaces l.
Proof.
  induction l as [|c r (sp & Hsp & Hr)]; [by exists []|].
  simpl. destruct (Js.is_space c) eqn:Hc.
  - exists (c :: sp). split; [by constructor|]. simpl. by f_equal.
  - by exists [].
Qed.

Lemma drop_spaces_head l c r :
  Js.drop_spaces l = c :: r → Js.is_space c = false.
Proof.
  induction l as [|d l IH]; [done|]. simpl.
  destruct (Js.is_space d) eqn:Hd; [done|]. by intros [= <- _].
Qed.

Lemma count_words_spaces_l w sp l :
  Forall (λ c, Js.is_space c = true) sp →
  count_words w (sp ++ l) = count_words (w && bool_decide (sp = [])) l.
Proof.
  intros Hsp. revert w. induction Hsp as [|c sp Hc _ IH]; intros w.
  - simpl. by rewrite andb_true_r.
  - simpl. rewrite Hc, IH. simpl. by rewrite andb_false_r.
Qed.

Lemma count_words_spaces_r w l sp :
  Forall (λ c, Js.is_space c = true) sp →
  count_words w (l ++ sp) = count_words w l.
Proof.
  intros Hsp. revert w. induction l as [|c r IH]; intros w; simpl.
  - induction Hsp as [|d sp Hd _ IHsp] in w |- *; [done|].
    simpl. by rewrite Hd.
  - by rewrite !IH.
Qed.

(** [trim] removes a run of whitespace at either end and nothing else. *)
Lemma trim_chars_split l :
  ∃ sp1 sp2, Forall (λ c, Js.is_space c = true) sp1 ∧
             Forall (λ c, Js.is_space c = true) sp2 ∧
             l = sp1 ++ Js.trim_chars l ++ sp2.
Proof.
  destruct (drop_spaces_split l) as (sp1 & H1 & E1).
  destruct (drop_spaces_split (rev (Js.drop_spaces l))) as (sp2 & H2 & E2).
  exists sp1, (rev sp2). split; [done|]. split.
  - by apply Forall_rev.
  - unfold Js.trim_chars. rewrite <- rev_app_distr, <- E2, rev_involutive.
    done.
Qed.

Lemma count_words_trim l :
  count_words false (Js.trim_chars l) = count_words false l.
Proof.
  destruct (trim_chars_split l) as (sp1 & sp2 & H1 & H2 & E).
  rewrite E at 2. rewrite count_words_spaces_l by done. simpl.
  by rewrite count_words_spaces_r.
Qed.

Lemma trim_chars_ends l : ends_in_word true (Js.trim_chars l) = true.
Proof.
  unfold Js.trim_chars, ends_in_word.
  destruct (Js.drop_spaces (rev (Js.drop_spaces l))) as [|c r] eqn:E; [done|].
  simpl. rewrite last_snoc. by rewrite (drop_spaces_head _ _ _ E).
Qed.

Lemma trim_chars_head l c r :
  Js.trim_chars l = c :: r → Js.is_space c = false.
Proof.
  intros E. destruct (drop_spaces_split (rev (Js.drop_spaces l)))
    as (sp & Hsp & E2).
  apply (f_equal (@rev ascii)) in E2.
  rewrite rev_involutive, rev_app_distr in E2.
  fold (Js.trim_chars l) in E2. rewrite E in E2. simpl in E2.
  by apply (drop_spaces_head l c (r ++ rev sp)).
Qed.

(** [split] after [trim] yields one piece per word, and the single empty
    piece when there is no word. *)
Lemma split_trim_length l :
  length (Js.split_ws [] false (Js.trim_chars l))
  = Nat.max 1 (count_words false l).
Proof.
  rewrite <- (count_words_trim l).
  pose proof (trim_chars_ends l) as He.
  destruct (Js.trim_chars l) as [|c r] eqn:E; [done|].
  pose proof (trim_chars_head _ _ _ E) as Hc.
  simpl. rewrite Hc.
  rewrite ends_in_word_cons, Hc in He. simpl in He.
  pose proof (split_ws_length [c] true r) as H. simpl in H.
  rewrite He in H. lia.
Qed.
End Words.

(** ** Reading time *)

Lemma calculateReadingTime_words content :
  calculateReadingTime content
  = Js.ceil_div (Z.max 1 (word_count content)) 200.
Proof.
  unfold calculateReadingTime, Js.split_spaces, Js.trim, word_count.
  rewrite length_fmap, chars_str, split_trim_length. f_equal. lia.
Qed.

Lemma ceil_div_200 n :
  0 <= n → Js.ceil_div (Z.max 1 n) 200 = Z.max 1 (Js.ceil_div n 200).
Proof.
  intros Hn. unfold Js.ceil_div.
  destruct (Z.eq_dec n 0) as [->|Hne]; [done|].
  rewrite (Z.max_r 1 n) by lia.
  assert (- n / 200 < 0); [|lia].
  apply Z.div_lt_upper_bound; lia.
Qed.

(** [ceil_div a b] is the least integer that is at least [a / b]. *)
Lemma ceil_div_least a b :
  0 < b → a <= Js.ceil_div a b * b ∧ (Js.ceil_div a b - 1) * b < a.
Proof.
  intros Hb. unfold Js.ceil_div.
  pose proof (Z.div_mod (- a) b ltac:(lia)) as Hdiv.
  pose proof (Z.mod_pos_bound (- a) b Hb) as Hmod. nia.
Qed.

(** C6: the reading time of any text is the number of its
    whitespace-separated words divided by 200 and rounded up, and at least 1;
    a text of exactly 200 words reads in 1 minute, one of 201 words in 2. *)
Theorem calculateReadingTime_spec content :
  calculateReadingTime content
    = Z.max 1 (Js.ceil_div (word_count content) 200)
  ∧ (word_count content = 200 → calculateReadingTime content = 1)
  ∧ (word_count content = 201 → calculateReadingTime content = 2).
Proof.
  rewrite calculateReadingTime_words.
  assert (0 <= word_count content) by (unfold word_count; lia).
  split; [by apply ceil_div_200|].
  split; intros ->; reflexivity.
Qed.

Lemma calculateReadingTime_spec_witness :
  calculateReadingTime (words_text 200) = 1
  ∧ calculateReadingTime (words_text 201) = 2.
Proof.
  split.
  - apply (proj1 (proj2 (calculateReadingTime_spec (words_text 200)))).
    vm_compute. reflexivity.
  - apply (proj2 (proj2 (calculateReadingTime_spec (words_text 201)))).
    vm_compute. reflexivity.
Defined.

Example reading_empty : calculateReadingTime "" = 1.
Proof. reflexivity. Qed.

Example reading_blank : calculateReadingTime "   " = 1.
Proof. reflexivity. Qed.

(** ** Slugs *)

Section Slug.
Implicit Types l : list ascii.

(** What a [replace] of runs leaves: the characters outside the class,
    and the replacement. *)
Lemma squeeze_Forall (P Q : ascii → Prop) p rep b l :
  (∀ c, P c → p c = false → Q c) → Q rep →
  Forall P l → Forall Q (Js.squeeze p rep b l).
Proof.
  intros HPQ Hrep Hl. revert b.
  induction Hl as [|c r Hc _ IH]; intros b; simpl; [constructor|].
  destruct (p c) eqn:Hp.
  - destruct b; [apply IH|constructor; [done|apply IH]].
  - constructor; [by apply HPQ|apply IH].
Qed.

Lemma trim_chars_Forall (P : ascii → Prop) l :
  Forall P l → Forall P (Js.trim_chars l).
Proof.
  intros Hl. destruct (trim_chars_split l) as (sp1 & sp2 & _ & _ & E).
  rewrite E in Hl. apply Forall_app in Hl as [_ Hl].
  by apply Forall_app in Hl as [Hl _].
Qed.

Lemma adjacent_hyphens_cons c l :
  adjacent_hyphens (c :: l)
  = (Js.is_hyphen c && head_hyphen l) || adjacent_hyphens l.
Proof. by destruct l. Qed.

(** After [replace(/-+/g, '-')] no hyphen follows a hyphen. *)
Lemma squeeze_hyphens b l :
  adjacent_hyphens (Js.squeeze Js.is_hyphen "-" b l) = false
  ∧ (b = true → head_hyphen (Js.squeeze Js.is_hyphen "-" b l) = false).
Proof.
  revert b. induction l as [|c r IH]; intros b; [done|].
  cbn [Js.squeeze]. destruct (Js.is_hyphen c) eqn:Hc.
  - destruct (IH true) as [Ha Hh]. specialize (Hh eq_refl).
    destruct b; [done|]. split; [|done].
    by rewrite adjacent_hyphens_cons, Hh, Ha.
  - destruct (IH false) as [Ha _]. split.
    + by rewrite adjacent_hyphens_cons, Hc, Ha.
    + intros _. simpl. done.
Qed.

Lemma adjacent_hyphens_app l1 l2 :
  adjacent_hyphens (l1 ++ l2) = false →
  adjacent_hyphens l1 = false ∧ adjacent_hyphens l2 = false.
Proof.
  induction l1 as [|c r IH]; [done|].
  rewrite <- app_comm_cons, !adjacent_hyphens_cons.
  intros [H1 H2]%orb_false_iff. destruct (IH H2) as [Hr Hl2].
  split; [|done]. rewrite Hr, orb_false_r.
  destruct r as [|d r]; [by rewrite andb_false_r|done].
Qed.

Lemma trim_chars_hyphens l :
  adjacent_hyphens l = false → adjacent_hyphens (Js.trim_chars l) = false.
Proof.
  intros Hl. destruct (trim_chars_split l) as (sp1 & sp2 & _ & _ & E).
  rewrite E in Hl. apply adjacent_hyphens_app in Hl as [_ Hl].
  by apply adjacent_hyphens_app in Hl as [Hl _].
Qed.
End Slug.

(** The part of the slug contract that the code keeps: every slug is
    written in the alphabet [a-z0-9-] (so it has no upper-case letter) and
    no hyphen follows a hyphen. *)
Lemma generateSlug_alphabet title :
  Forall (λ c, slug_char c = true) (Js.chars (generateSlug title))
  ∧ adjacent_hyphens (Js.chars (generateSlug title)) = false.
Proof.
  unfold generateSlug, Js.trim. rewrite !chars_str. split.
  - apply trim_chars_Forall.
    apply (squeeze_Forall (λ c, slug_char c = true)); [done..|].
    eapply (squeeze_Forall
              (λ c, Js.is_lower c || Js.is_digit c || Js.is_space c
                    || Js.is_hyphen c = true)).
    + intros c Hc Hs. unfold slug_char. rewrite Hs, orb_false_r in Hc. done.
    + reflexivity.
    + unfold Js.strip. apply Forall_forall. intros c Hc.
      by apply list_elem_of_filter in Hc as [Hc _].
  - apply trim_chars_hyphens, squeeze_hyphens.
Qed.

(** C4: the slug of the title ["- Release notes -"] keeps a hyphen at
    both ends: the whitespace around the title has already become hyphens
    when [trim] runs, so [trim] finds nothing to remove. *)
Theorem generateSlug_edge_hyphens :
  generateSlug "- Release notes -" = "-release-notes-"
  ∧ head_hyphen (Js.chars (generateSlug "- Release notes -")) = true
  ∧ last_hyphen (Js.chars (generateSlug "- Release notes -")) = true
  ∧ generateSlug " a" = "-a"
  ∧ generateSlug "Hello World !" = "hello-world-".
Proof. repeat split; reflexivity. Qed.

Example slug_hello : generateSlug "Hello, World!" = "hello-world".
Proof. reflexivity. Qed.

(** ** Keys *)

Lemma string_length_app (a b : string) :
  String.length (a +:+ b) = (String.length a + String.length b)%nat.
Proof.
  induction a as [|c a IH]; [done|].
  change (String c a +:+ b) with (String c (a +:+ b)).
  cbn [String.length]. by rewrite IH.
Qed.

Lemma blog_key_inj a b : blog_key a = blog_key b → a = b.
Proof. unfold blog_key. apply String.app_inj. Qed.

Lemma published_key_inj a b : published_key a = published_key b → a = b.
Proof. unfold published_key. apply String.app_inj. Qed.

(** The index key of a blog is the record key of the id [published:${id}]. *)
Lemma published_key_alias blogId :
  published_key blogId = blog_key ("published:" +:+ blogId).
Proof. reflexivity. Qed.

Lemma blog_key_ne_published_key blogId :
  blog_key blogId ≠ published_key blogId.
Proof.
  rewrite published_key_alias. intros H%blog_key_inj.
  apply (f_equal String.length) in H. rewrite string_length_app in H.
  cbn in H. lia.
Qed.

(** ** Prefix scans *)

Lemma starts_with_app p s : starts_with p (p +:+ s) = true.
Proof.
  induction p as [|c p IH]; [done|].
  change (String c p +:+ s) with (String c (p +:+ s)).
  cbn [starts_with]. by rewrite bool_decide_true, IH.
Qed.

Lemma elem_of_scan {V} p (m : gmap string V) x :
  x ∈ scan p m ↔ ∃ k, m !! k = Some x ∧ starts_with p k = true.
Proof.
  unfold scan. rewrite list_elem_of_fmap. split.
  - intros ([k v] & -> & [Hp Hkv%elem_of_map_to_list]%list_elem_of_filter).
    by exists k.
  - intros (k & Hk & Hp). exists (k, x). split; [done|].
    apply list_elem_of_filter. split; [done|]. by apply elem_of_map_to_list.
Qed.

(** ** Ownership *)

(** C7: on an existing blog, a caller who is not its author gets
    ForbiddenError from both [updateBlog] and [deleteBlog], and the store
    (blog record, index entry, blog-id lists, comments) is left as it
    was. *)
Theorem non_owner_forbidden st caller blogId blog body now :
  blogKeys st !! blog_key blogId = Some blog →
  Blog.authorId blog ≠ caller →
  updateBlog (Some caller) blogId body now st = (st, Failed ForbiddenError)
  ∧ deleteBlog (Some caller) blogId st = (st, Failed ForbiddenError).
Proof.
  intros Hblog Hne. unfold updateBlog, deleteBlog. run.
  rewrite Hblog. by rewrite bool_decide_true.
Qed.

Lemma non_owner_forbidden_witness :
  updateBlog (Some "bob") "b1" sample_body 2000 sample_store
    = (sample_store, Failed ForbiddenError)
  ∧ deleteBlog (Some "bob") "b1" sample_store
    = (sample_store, Failed ForbiddenError).
Proof.
  apply (non_owner_forbidden sample_store "bob" "b1" sample_blog).
  - vm_compute. reflexivity.
  - discriminate.
Defined.

(** ** Creating and deleting *)

Lemma createBlog_valid st caller body title content blogId now :
  body_title body = Some title → title ≠ "" →
  body_content body = Some content → content ≠ "" →
  let draft := default false (body_isDraft body) in
  let blog :=
    Blog.mk blogId title (Some content) (generateSlug title)
      (Some (default [] (body_tags body))) (Some draft)
      (Some (calculateReadingTime content)) caller now (Some now) (Some 0) in
  let entry := index_entry blogId title (body_tags body) (generateSlug title)
                 caller now in
  createBlog (Some caller) body blogId now st
  = (mkStore
       (if negb draft
        then <[published_key blogId := entry]>
               (<[blog_key blogId := blog]> (blogKeys st))
        else <[blog_key blogId := blog]> (blogKeys st))
       (<[user_blogs_key caller :=
            default [] (listKeys st !! user_blogs_key caller) ++ [blogId]]>
          (listKeys st))
       (commentKeys st) (userKeys st),
     Json blog).
Proof.
  intros Ht Htne Hc Hcne draft blog entry. unfold createBlog.
  rewrite Ht, Hc, !bool_decide_false by done. cbn [orb]. run.
  fold draft. by destruct (negb draft).
Qed.

(** The cascade loop only touches the comment keys. *)
Lemma forEach_delComment (key : Comment.t → string) comments st :
  forEach comments (λ comment, kv.delComment (key comment)) st
  = (mkStore (blogKeys st) (listKeys st)
       (foldl (λ m comment, delete (key comment) m) (commentKeys st) comments)
       (userKeys st),
     Json ()).
Proof.
  revert st. induction comments as [|c cs IH]; intros st.
  - by destruct st.
  - cbn [forEach foldl]. run. by rewrite IH.
Qed.

Lemma deleteBlog_owner st owner blogId blog :
  blogKeys st !! blog_key blogId = Some blog →
  Blog.authorId blog = owner →
  deleteBlog (Some owner) blogId st
  = (mkStore
       (delete (published_key blogId) (delete (blog_key blogId) (blogKeys st)))
       (<[user_blogs_key owner :=
            filter (λ id, id ≠ blogId)
              (default [] (listKeys st !! user_blogs_key owner))]> (listKeys st))
       (foldl (λ m comment,
                 delete (comment_key blogId (Comment.id comment)) m)
          (commentKeys st) (scan (comment_prefix blogId) (commentKeys st)))
       (userKeys st),
     Json true).
Proof.
  intros Hblog Hown. unfold deleteBlog.
  cbv beta iota delta
    [mbind mret Handler_bind Handler_ret fail kv.getBlog kv.delBlog kv.getList
     kv.setList kv.commentsByPrefix].
  rewrite Hblog, bool_decide_false by (by intros []).
  by rewrite forEach_delComment.
Qed.

(** ** Updating a blog *)

(** What a successful [updateBlog] of an owner leaves in the store. *)
Lemma updateBlog_owner st owner blogId existing body title content now :
  blogKeys st !! blog_key blogId = Some existing →
  Blog.authorId existing = owner →
  body_title body = Some title →
  body_content body = Some content →
  let isDraft := match body_isDraft body with
                 | Some d => Some d
                 | None => Blog.isDraft existing
                 end in
  let updated :=
    Blog.mk (Blog.id existing) title (Some content) (generateSlug title)
      (Some (default [] (body_tags body))) isDraft
      (Some (calculateReadingTime content)) (Blog.authorId existing)
      (Blog.createdAt existing) (Some now) (Blog.views existing) in
  let entry := index_entry blogId title (body_tags body) (generateSlug title)
                 owner (Blog.createdAt existing) in
  updateBlog (Some owner) blogId body now st
  = (mkStore
       (if negb (default false isDraft)
        then <[published_key blogId := entry]>
               (<[blog_key blogId := updated]> (blogKeys st))
        else delete (published_key blogId)
               (<[blog_key blogId := updated]> (blogKeys st)))
       (listKeys st) (commentKeys st) (userKeys st),
     Json updated).
Proof.
  intros Hblog Hown Ht Hc isDraft updated entry.
  unfold updateBlog. run. rewrite Hblog.
  rewrite bool_decide_false by (by intros []). rewrite Ht, Hc.
  cbn [Blog.isDraft]. fold isDraft.
  by destruct (negb (default false isDraft)).
Qed.

(** C10: an owner may update a blog to the empty title and the empty
    content: no ValidationError is raised, and the stored record then has
    the empty title, content and slug and a reading time of 1; [createBlog]
    refuses an empty title or an empty content. *)
Theorem updateBlog_accepts_empty st owner blogId existing tags isDraft now :
  blogKeys st !! blog_key blogId = Some existing →
  Blog.authorId existing = owner →
  let body := mkBlogBody (Some "") (Some "") tags isDraft in
  (∃ updated,
     reply (updateBlog (Some owner) blogId body now) st = Json updated
     ∧ blogKeys (store_after (updateBlog (Some owner) blogId body now) st)
         !! blog_key blogId = Some updated
     ∧ Blog.title updated = ""
     ∧ Blog.content updated = Some ""
     ∧ Blog.slug updated = ""
     ∧ Blog.readingTime updated = Some 1)
  ∧ (∀ caller newId created,
       createBlog (Some caller) body newId created st
       = (st, Failed ValidationError))
  ∧ (∀ caller body' newId created,
       default "" (body_title body') = "" ∨ default "" (body_content body') = "" →
       createBlog (Some caller) body' newId created st
       = (st, Failed ValidationError)).
Proof.
  intros Hblog Hown body. split; [|split].
  - eexists. unfold reply, store_after.
    rewrite (updateBlog_owner st owner blogId existing body "" "" now)
      by done.
    cbn [fst snd blogKeys]. split; [reflexivity|]. split; [|done].
    destruct (negb _).
    + rewrite lookup_insert_ne by (symmetry; apply blog_key_ne_published_key).
      by rewrite lookup_insert_eq.
    + rewrite lookup_delete_ne by (symmetry; apply blog_key_ne_published_key).
      by rewrite lookup_insert_eq.
  - done.
  - intros caller body' newId created Hempty. unfold createBlog.
    destruct (body_title body') as [t|], (body_content body') as [c|];
      try done.
    simpl in Hempty. destruct Hempty as [-> | ->]; [done|].
    by destruct (bool_decide (t = "")).
Qed.

Lemma updateBlog_accepts_empty_witness :
  ∃ updated,
    reply (updateBlog (Some "alice") "b1" (mkBlogBody (Some "") (Some "") None None)
             2000) sample_store = Json updated
    ∧ Blog.title updated = "" ∧ Blog.slug updated = ""
    ∧ Blog.readingTime updated = Some 1.
Proof.
  destruct (updateBlog_accepts_empty sample_store "alice" "b1" sample_blog
              None None 2000) as [(updated & Hr & _ & Ht & _ & Hs & Hrt) _].
  - vm_compute. reflexivity.
  - reflexivity.
  - exists updated. auto.
Defined.

(** ** The published index *)

(** C1: deleting under the id [published:b1] removes the index entry of
    the published blog [b1] and leaves its record: the handler looks the
    id up under [blog:published:b1], which is the index key of [b1], takes
    the index entry for the blog to delete, and so breaks the mirror
    between index and draft flag. *)
Theorem deleteBlog_alias_breaks_index :
  (blogKeys sample_store !! blog_key "b1" = Some sample_blog
   ∧ is_Some (blogKeys sample_store !! published_key "b1"))
  ∧ reply alias_delete sample_store = Json true
  ∧ blogKeys (store_after alias_delete sample_store) !! blog_key "b1"
    = Some sample_blog
  ∧ Blog.isDraft sample_blog = Some false
  ∧ blogKeys (store_after alias_delete sample_store) !! published_key "b1"
    = None
  ∧ ¬ index_consistent (store_after alias_delete sample_store) "b1".
Proof.
  assert (blogKeys (store_after alias_delete sample_store) !! blog_key "b1"
          = Some sample_blog) as Hb by (vm_compute; reflexivity).
  assert (blogKeys (store_after alias_delete sample_store)
            !! published_key "b1" = None) as Hp by (vm_compute; reflexivity).
  split; [split; [vm_compute; reflexivity|]|].
  { eexists. vm_compute. reflexivity. }
  split; [vm_compute; reflexivity|]. split; [exact Hb|].
  split; [reflexivity|]. split; [exact Hp|].
  intros [[_ Hidx] _]. rewrite Hp in Hidx.
  destruct Hidx as [? ?]; [|done]. by exists sample_blog.
Qed.

(** ** The index outside the [published:] namespace *)

Lemma plain_id_keys blogId other :
  plain_id blogId → blog_key blogId ≠ published_key other.
Proof.
  unfold plain_id. intros Hplain Heq. rewrite published_key_alias in Heq.
  apply blog_key_inj in Heq. subst blogId.
  by rewrite starts_with_app in Hplain.
Qed.

(** A write that touches only the two keys of a plain id, and leaves them
    consistent, keeps the whole index sound. *)
Lemma index_sound_step st st' blogId :
  plain_id blogId → index_sound st →
  (∀ k, k ≠ blog_key blogId → k ≠ published_key blogId →
        blogKeys st' !! k = blogKeys st !! k) →
  index_consistent st' blogId →
  (∀ e, blogKeys st' !! published_key blogId = Some e → Blog.isDraft e = None) →
  (∀ b, blogKeys st' !! blog_key blogId = Some b → is_Some (Blog.isDraft b)) →
  index_sound st'.
Proof.
  intros Hplain (Hinv & Hproj & Hflag) Hframe Hcons Hentry Hrecord.
  assert (∀ other, other ≠ blogId →
            blogKeys st' !! published_key other
            = blogKeys st !! published_key other) as Hpub.
  { intros other Hne. apply Hframe.
    - intros Heq. symmetry in Heq. by apply plain_id_keys in Heq.
    - by intros ?%published_key_inj. }
  split; [|split].
  - intros other. destruct (decide (other = blogId)) as [->|Hne]; [done|].
    destruct (decide (blog_key other = published_key blogId)) as [Halias|Hna].
    + assert (blogKeys st' !! published_key other = None) as Hnone.
      { rewrite Hpub by done. destruct (Hinv other) as [Hiff _].
        destruct (blogKeys st !! published_key other) as [e|] eqn:He; [|done].
        destruct (proj1 Hiff) as (b & Hb & Hd); [by eexists|].
        rewrite Halias in Hb. apply Hproj in Hb. congruence. }
      split.
      * rewrite Hnone. split; [by intros [? ?]|].
        intros (b & Hb & Hd). rewrite Halias in Hb. apply Hentry in Hb.
        congruence.
      * intros e b He. by rewrite Hnone in He.
    + unfold index_consistent. rewrite Hpub by done.
      rewrite (Hframe (blog_key other)); [apply Hinv| |done].
      by intros ?%blog_key_inj.
  - intros other e He. destruct (decide (other = blogId)) as [->|Hne].
    + by apply Hentry.
    + rewrite Hpub in He by done. by apply (Hproj other).
  - intros other b Hother Hb. destruct (decide (other = blogId)) as [->|Hne].
    + by apply Hrecord.
    + rewrite Hframe in Hb; [by apply (Hflag other)| |].
      * by intros ?%blog_key_inj.
      * by apply plain_id_keys.
Qed.

Lemma index_sound_no_blogs st : blogKeys st = ∅ → index_sound st.
Proof.
  intros Hempty. unfold index_sound, index_invariant, index_consistent,
    index_entries_projected, records_flagged. rewrite Hempty.
  split; [|split].
  - intros blogId. rewrite !lookup_empty. split.
    + split; [by intros [? ?]|by intros (? & ? & ?)].
    + by intros e b.
  - intros blogId e. by rewrite lookup_empty.
  - intros blogId b _. by rewrite lookup_empty.
Qed.

(** On ids outside the [published:] namespace the three write operations
    keep the index a mirror of the draft flags, with the creation time of
    each record. *)
Theorem index_sound_preserved st blogId :
  index_sound st → plain_id blogId →
  (∀ caller body title content now,
     body_title body = Some title → title ≠ "" →
     body_content body = Some content → content ≠ "" →
     blogKeys st !! blog_key blogId = None →
     index_sound (store_after (createBlog (Some caller) body blogId now) st))
  ∧ (∀ owner existing body title content now,
       blogKeys st !! blog_key blogId = Some existing →
       Blog.authorId existing = owner →
       body_title body = Some title → body_content body = Some content →
       index_sound (store_after (updateBlog (Some owner) blogId body now) st))
  ∧ (∀ owner existing,
       blogKeys st !! blog_key blogId = Some existing →
       Blog.authorId existing = owner →
       index_sound (store_after (deleteBlog (Some owner) blogId) st)).
Proof.
  intros Hsound Hplain.
  pose proof (blog_key_ne_published_key blogId) as Hkeys.
  split; [|split].
  - intros caller body title content now Ht Htne Hc Hcne Hfresh.
    unfold store_after.
    rewrite (createBlog_valid st caller body title content blogId now) by done.
    cbn [fst].
    assert (blogKeys st !! published_key blogId = None) as Hnoidx.
    { destruct Hsound as (Hinv & _). destruct (Hinv blogId) as [Hiff _].
      destruct (blogKeys st !! published_key blogId) eqn:He; [|done].
      destruct (proj1 Hiff) as (b & Hb & _); [by eexists|]. congruence. }
    apply (index_sound_step st _ blogId); [done|done|..]; cbn [blogKeys];
      destruct (default false (body_isDraft body)); cbn [negb].
    + intros k Hk1 Hk2. by rewrite lookup_insert_ne.
    + intros k Hk1 Hk2. by rewrite !lookup_insert_ne.
    + split; cbn [blogKeys].
      * rewrite lookup_insert_ne, Hnoidx, lookup_insert_eq by done.
        split; [by intros [? ?]|]. by intros (b & [= <-] & ?).
      * intros e b. by rewrite lookup_insert_ne, Hnoidx.
    + split; cbn [blogKeys].
      * rewrite lookup_insert_eq, lookup_insert_ne, lookup_insert_eq by done.
        split; [|by eexists]. intros _. by eexists.
      * rewrite lookup_insert_eq, lookup_insert_ne, lookup_insert_eq by done.
        by intros e b [= <-] [= <-].
    + intros e. by rewrite lookup_insert_ne, Hnoidx.
    + intros e. rewrite lookup_insert_eq. by intros [= <-].
    + intros b. rewrite lookup_insert_eq. intros [= <-]. by eexists.
    + intros b. rewrite lookup_insert_ne, lookup_insert_eq by done.
      intros [= <-]. by eexists.
  - intros owner existing body title content now Hblog Hown Ht Hc.
    unfold store_after.
    rewrite (updateBlog_owner st owner blogId existing body title content now)
      by done.
    cbn [fst].
    destruct Hsound as (Hinv & Hproj & Hflag).
    destruct (Hflag blogId existing Hplain Hblog) as [flag Hflagged].
    assert (∃ d, match body_isDraft body with
                 | Some d => Some d
                 | None => Blog.isDraft existing
                 end = Some d) as [d Hd].
    { destruct (body_isDraft body); [by eexists|]. by exists flag. }
    rewrite Hd. cbn [from_option id].
    apply (index_sound_step st _ blogId); [done|done|..]; cbn [blogKeys];
      destruct d; cbn [negb].
    + intros k Hk1 Hk2. by rewrite lookup_delete_ne, lookup_insert_ne.
    + intros k Hk1 Hk2. by rewrite !lookup_insert_ne.
    + split; cbn [blogKeys].
      * rewrite lookup_delete_eq, lookup_delete_ne, lookup_insert_eq by done.
        split; [by intros [? ?]|]. by intros (b & [= <-] & ?).
      * intros e b. by rewrite lookup_delete_eq.
    + split; cbn [blogKeys].
      * rewrite lookup_insert_eq, lookup_insert_ne, lookup_insert_eq by done.
        split; [|by eexists]. intros _. by eexists.
      * rewrite lookup_insert_eq, lookup_insert_ne, lookup_insert_eq by done.
        by intros e b [= <-] [= <-].
    + intros e. by rewrite lookup_delete_eq.
    + intros e. rewrite lookup_insert_eq. by intros [= <-].
    + intros b. rewrite lookup_delete_ne, lookup_insert_eq by done.
      intros [= <-]. by eexists.
    + intros b. rewrite lookup_insert_ne, lookup_insert_eq by done.
      intros [= <-]. by eexists.
  - intros owner existing Hblog Hown. unfold store_after.
    rewrite (deleteBlog_owner st owner blogId existing) by done. cbn [fst].
    apply (index_sound_step st _ blogId); [done|done|..]; cbn [blogKeys].
    + intros k Hk1 Hk2. by rewrite !lookup_delete_ne.
    + split; cbn [blogKeys].
      * rewrite lookup_delete_eq. split; [by intros [? ?]|].
        intros (b & Hb & _). by rewrite lookup_delete_ne, lookup_delete_eq in Hb.
      * intros e b. by rewrite lookup_delete_eq.
    + intros e. by rewrite lookup_delete_eq.
    + intros b. by rewrite lookup_delete_ne, lookup_delete_eq.
Qed.

(** ** First match of a linear scan *)

Lemma find_first {A} (f : A → bool) l e :
  List.find f l = Some e ↔
  ∃ before after, l = before ++ e :: after
                  ∧ Forall (λ x, f x = false) before ∧ f e = true.
Proof.
  split.
  - induction l as [|x l IH]; [done|]. cbn [List.find].
    destruct (f x) eqn:Hx.
    + intros [= ->]. by exists [], l.
    + intros (before & after & -> & Hb & He)%IH.
      exists (x :: before), after. split; [done|]. split; [|done].
      by constructor.
  - intros (before & after & -> & Hb & He).
    induction Hb as [|x before Hx _ IH]; cbn [app List.find].
    + by rewrite He.
    + by rewrite Hx.
Qed.

Lemma find_none_Forall {A} (f : A → bool) l :
  List.find f l = None ↔ Forall (λ x, f x = false) l.
Proof.
  induction l as [|x l IH]; cbn [List.find]; [by split|].
  destruct (f x) eqn:Hx.
  - split; [done|]. intros H. apply Forall_cons in H as [H _]. congruence.
  - rewrite IH. split; [by constructor|]. by intros [_ H]%Forall_cons.
Qed.

Lemma slug_test_false slug (e : Blog.t) :
  bool_decide (Blog.slug e = slug) = false ↔ Blog.slug e ≠ slug.
Proof. apply bool_decide_eq_false. Qed.

(** ** Fetching by slug *)

(** The record served by a fetch: the stored one with one more view. *)
Lemma getBlogBySlug_found st slug e blog :
  List.find (λ x, bool_decide (Blog.slug x = slug))
    (scan published_prefix (blogKeys st)) = Some e →
  Blog.id e ≠ "" →
  blogKeys st !! blog_key (Blog.id e) = Some blog →
  let served :=
    Blog.mk (Blog.id blog) (Blog.title blog) (Blog.content blog)
      (Blog.slug blog) (Blog.tags blog) (Blog.isDraft blog)
      (Blog.readingTime blog) (Blog.authorId blog) (Blog.createdAt blog)
      (Blog.updatedAt blog) (Some (default 0 (Blog.views blog) + 1)) in
  getBlogBySlug slug st
  = (mkStore (<[blog_key (Blog.id e) := served]> (blogKeys st)) (listKeys st)
       (commentKeys st) (userKeys st),
     Json (served, project_author (userKeys st !! user_key (Blog.authorId blog)))).
Proof.
  intros Hfind Hid Hblog served. unfold getBlogBySlug. run.
  rewrite Hfind. cbn [fmap option_fmap option_map].
  rewrite bool_decide_false by done. by rewrite Hblog.
Qed.

Lemma getBlogBySlug_outcome st slug :
  (∃ e blog, List.find (λ x, bool_decide (Blog.slug x = slug))
               (scan published_prefix (blogKeys st)) = Some e
             ∧ Blog.id e ≠ ""
             ∧ blogKeys st !! blog_key (Blog.id e) = Some blog)
  ∨ getBlogBySlug slug st = (st, Failed NotFoundError).
Proof.
  destruct (List.find _ (scan published_prefix (blogKeys st))) as [e|] eqn:Hfind.
  - destruct (decide (Blog.id e = "")) as [Hid|Hid].
    + right. unfold getBlogBySlug. run. rewrite Hfind.
      cbn [fmap option_fmap option_map]. by rewrite bool_decide_true.
    + destruct (blogKeys st !! blog_key (Blog.id e)) as [blog|] eqn:Hblog.
      * left. by exists e, blog.
      * right. unfold getBlogBySlug. run. rewrite Hfind.
        cbn [fmap option_fmap option_map].
        rewrite bool_decide_false by done. by rewrite Hblog.
  - right. unfold getBlogBySlug. run. by rewrite Hfind.
Qed.

Lemma first_with_slug_find slug entries e :
  first_with_slug slug entries e ↔
  List.find (λ x, bool_decide (Blog.slug x = slug)) entries = Some e.
Proof.
  rewrite find_first. unfold first_with_slug.
  split; intros (before & after & -> & Hb & He); exists before, after;
    (split; [done|]); split.
  - eapply Forall_impl; [exact Hb|]. intros x Hx. by apply slug_test_false.
  - by apply bool_decide_eq_true.
  - eapply Forall_impl; [exact Hb|]. intros x Hx. by apply slug_test_false.
  - by apply bool_decide_eq_true in He.
Qed.

Lemma no_slug_find slug entries :
  Forall (λ x, Blog.slug x ≠ slug) entries ↔
  List.find (λ x, bool_decide (Blog.slug x = slug)) entries = None.
Proof.
  rewrite find_none_Forall. split; intros H; (eapply Forall_impl; [exact H|]);
    intros x Hx; by apply slug_test_false.
Qed.

(** C2: [getBlogBySlug] serves the blog of the first index entry, in scan
    order, whose slug is the requested one; it fails with NotFoundError
    exactly when no entry has the slug or the first such entry has no blog
    record; every successful fetch stores and returns the record with its
    view counter raised by exactly 1, whoever asks.  Slugs are not unique.
    A blog created as published has 0 views, and the fetch of its slug
    right after serves it with 1 view when its index entry is the first
    with that slug in scan order, which is so whenever no entry of the
    index had the slug before; when the entry of another blog comes first,
    the fetch leaves the record of the new blog as it is, at 0 views. *)
Theorem getBlogBySlug_spec st slug :
  blogKeys st !! blog_key "" = None →
  let entries := scan published_prefix (blogKeys st) in
  (reply (getBlogBySlug slug) st = Failed NotFoundError ↔
     Forall (λ x, Blog.slug x ≠ slug) entries
     ∨ ∃ e, first_with_slug slug entries e
            ∧ blogKeys st !! blog_key (Blog.id e) = None)
  ∧ (∀ e blog,
       first_with_slug slug entries e →
       blogKeys st !! blog_key (Blog.id e) = Some blog →
       ∃ author,
         reply (getBlogBySlug slug) st = Json (viewed blog, author)
         ∧ Blog.views (viewed blog) = Some (default 0 (Blog.views blog) + 1)
         ∧ blogKeys (store_after (getBlogBySlug slug) st)
             !! blog_key (Blog.id e) = Some (viewed blog))
  ∧ (∀ caller body title content blogId now,
       body_title body = Some title → title ≠ "" →
       body_content body = Some content → content ≠ "" →
       default false (body_isDraft body) = false →
       blogId ≠ "" →
       let st1 := store_after (createBlog (Some caller) body blogId now) st in
       let fetch := getBlogBySlug (generateSlug title) in
       ∃ created,
         reply (createBlog (Some caller) body blogId now) st = Json created
         ∧ Blog.id created = blogId
         ∧ Blog.views created = Some 0
         ∧ blogKeys st1 !! blog_key blogId = Some created
         ∧ (∃ e, first_with_slug (generateSlug title)
                   (scan published_prefix (blogKeys st1)) e)
         ∧ (∀ e, first_with_slug (generateSlug title)
                   (scan published_prefix (blogKeys st1)) e →
                 Blog.id e = blogId →
                 ∃ author,
                   reply fetch st1 = Json (viewed created, author)
                   ∧ Blog.views (viewed created) = Some 1
                   ∧ blogKeys (store_after fetch st1) !! blog_key blogId
                     = Some (viewed created))
         ∧ (∀ e, first_with_slug (generateSlug title)
                   (scan published_prefix (blogKeys st1)) e →
                 Blog.id e ≠ blogId →
                 blogKeys (store_after fetch st1) !! blog_key blogId
                 = Some created)
         ∧ (Forall (λ x, Blog.slug x ≠ generateSlug title) entries →
            ∃ author,
              reply fetch st1 = Json (viewed created, author)
              ∧ Blog.views (viewed created) = Some 1)).
Proof.
  intros Hempty entries. split; [|split].
  - split.
    + intros Hfail.
      destruct (getBlogBySlug_outcome st slug)
        as [(e & blog & Hfind & Hid & Hblog)|Hnot].
      * unfold reply in Hfail.
        by rewrite (getBlogBySlug_found st slug e blog) in Hfail.
      * clear Hnot.
        destruct (List.find (λ x, bool_decide (Blog.slug x = slug)) entries)
          as [e|] eqn:Hfind; [|left; by apply no_slug_find].
        right. exists e. split; [by apply first_with_slug_find|].
        destruct (decide (Blog.id e = "")) as [->|Hid]; [done|].
        destruct (blogKeys st !! blog_key (Blog.id e)) as [blog|] eqn:Hblog;
          [|done].
        unfold reply in Hfail.
        by rewrite (getBlogBySlug_found st slug e blog) in Hfail.
    + destruct (getBlogBySlug_outcome st slug)
        as [(e & blog & Hfind & Hid & Hblog)|Hnot].
      * intros [Hnone|(e' & Hfirst & Hmissing)].
        -- apply no_slug_find in Hnone. fold entries in Hfind. congruence.
        -- apply first_with_slug_find in Hfirst. fold entries in Hfind.
           congruence.
      * intros _. unfold reply. by rewrite Hnot.
  - intros e blog Hfirst%first_with_slug_find Hblog.
    assert (Blog.id e ≠ "") as Hid by (intros Heq; congruence).
    unfold reply, store_after.
    rewrite (getBlogBySlug_found st slug e blog) by done.
    cbn [fst snd blogKeys]. eexists. split; [reflexivity|]. split; [done|].
    by rewrite lookup_insert_eq.
  - intros caller body title content blogId now Ht Htne Hc Hcne Hpub Hid
      st1 fetch.
    subst st1 fetch. unfold reply, store_after.
    rewrite (createBlog_valid st caller body title content blogId now) by done.
    rewrite Hpub. cbn [fst snd negb].
    set (blog := Blog.mk blogId title _ _ _ _ _ _ _ _ _).
    set (entry := index_entry _ _ _ _ _ _).
    set (st1 := mkStore _ _ _ _).
    set (slug1 := generateSlug title).
    assert (blogKeys st1 !! blog_key blogId = Some blog) as Hblog.
    { cbn. rewrite lookup_insert_ne
        by (symmetry; apply blog_key_ne_published_key).
      by rewrite lookup_insert_eq. }
    assert (entry ∈ scan published_prefix (blogKeys st1)) as Hentry.
    { apply elem_of_scan. exists (published_key blogId). split.
      - cbn. by rewrite lookup_insert_eq.
      - apply starts_with_app. }
    assert (∀ e, first_with_slug slug1 (scan published_prefix (blogKeys st1)) e →
                 Blog.id e = blogId →
                 getBlogBySlug slug1 st1
                 = (mkStore (<[blog_key blogId := viewed blog]> (blogKeys st1))
                      (listKeys st1) (commentKeys st1) (userKeys st1),
                    Json (viewed blog,
                          project_author
                            (userKeys st1 !! user_key (Blog.authorId blog)))))
      as Hserved.
    { intros e Hfirst%first_with_slug_find He.
      rewrite (getBlogBySlug_found st1 slug1 e blog);
        [by rewrite He|done|by rewrite He|by rewrite He]. }
    assert (∃ e, first_with_slug slug1 (scan published_prefix (blogKeys st1)) e)
      as Hsome.
    { destruct (List.find (λ x, bool_decide (Blog.slug x = slug1))
                  (scan published_prefix (blogKeys st1))) as [e|] eqn:Hfind.
      - exists e. by apply first_with_slug_find.
      - exfalso. apply no_slug_find in Hfind.
        by apply (proj1 (Forall_forall _ _) Hfind entry Hentry). }
    exists blog. do 4 (split; [done|]). split; [exact Hsome|].
    split; [|split].
    + intros e Hfirst He. rewrite (Hserved e Hfirst He). cbn [fst snd blogKeys].
      eexists. split; [reflexivity|]. split; [done|].
      by rewrite lookup_insert_eq.
    + intros e Hfirst He.
      destruct (getBlogBySlug_outcome st1 slug1)
        as [(e' & other & Hfind & Hid' & Hother)|Hnot].
      * assert (e' = e) as ->.
        { apply first_with_slug_find in Hfirst. congruence. }
        rewrite (getBlogBySlug_found st1 slug1 e other) by done.
        cbn [fst snd blogKeys].
        rewrite lookup_insert_ne; [exact Hblog|].
        intros Hkey%blog_key_inj. done.
      * rewrite Hnot. exact Hblog.
    + intros Hfresh. destruct Hsome as [e Hfirst].
      assert (Blog.id e = blogId) as He.
      { assert (e ∈ scan published_prefix (blogKeys st1)) as Hmem.
        { destruct Hfirst as (before & after & -> & _).
          apply elem_of_app. right. by left. }
        destruct Hfirst as (_ & _ & _ & _ & Hslug).
        apply elem_of_scan in Hmem as (k & Hk & Hp). cbn in Hk.
        apply lookup_insert_Some in Hk as [[_ <-]|[_ Hk]]; [done|].
        apply lookup_insert_Some in Hk as [[_ <-]|[_ Hk]]; [done|].
        exfalso. eapply Forall_forall in Hfresh;
          [|apply elem_of_scan; by exists k]. done. }
      rewrite (Hserved e Hfirst He). cbn [snd].
      eexists. split; [reflexivity|done].
Qed.

Lemma getBlogBySlug_spec_witness :
  (∃ blog author,
     blogKeys three_posts !! blog_key "f2" = Some blog
     ∧ reply (getBlogBySlug "more-foo") three_posts = Json (viewed blog, author)
     ∧ Blog.views (viewed blog) = Some (default 0 (Blog.views blog) + 1))
  ∧ (∃ created author,
       reply (createBlog (Some "alice")
                (mkBlogBody (Some "Second post") (Some "more text") None None)
                "b2" 1500) sample_store = Json created
       ∧ Blog.views created = Some 0
       ∧ reply (getBlogBySlug (generateSlug "Second post"))
           (store_after
              (createBlog (Some "alice")
                 (mkBlogBody (Some "Second post") (Some "more text") None None)
                 "b2" 1500) sample_store)
         = Json (viewed created, author)
       ∧ Blog.views (viewed created) = Some 1)
  ∧ blogKeys (store_after (getBlogBySlug (generateSlug "Hello World"))
                second_hello) !! blog_key "b2"
    = Some second_blog.
Proof.
  split; [|split].
  - assert (blogKeys three_posts !! blog_key "" = None) as Hempty
      by (vm_compute; reflexivity).
    destruct (getBlogBySlug_spec three_posts "more-foo" Hempty)
      as (_ & Hserve & _).
    set (f2 := Blog.mk "f2" "More foo" (Some "some text") "more-foo" (Some [])
                 (Some false) (Some 1) "alice" 20 (Some 20) (Some 0)).
    destruct (Hserve (index_entry "f2" "More foo" None "more-foo" "alice" 20)
                f2) as (author & Hr & Hviews & _).
    + exists [index_entry "f3" "Foo again" None "foo-again" "alice" 30;
              index_entry "f1" "A foo" None "a-foo" "alice" 10], [].
      split; [vm_compute; reflexivity|]. split; [|reflexivity].
      repeat constructor; discriminate.
    + vm_compute. reflexivity.
    + exists f2, author. split; [vm_compute; reflexivity|].
      split; [exact Hr|exact Hviews].
  - assert (blogKeys sample_store !! blog_key "" = None) as Hempty
      by (vm_compute; reflexivity).
    destruct (getBlogBySlug_spec sample_store "hello-world" Hempty)
      as (_ & _ & Hcreate).
    destruct (Hcreate "alice"
                (mkBlogBody (Some "Second post") (Some "more text") None None)
                "Second post" "more text" "b2" 1500)
      as (created & Hr & _ & Hviews & _ & _ & _ & _ & Hfresh);
      [reflexivity|discriminate|reflexivity|discriminate|reflexivity
      |discriminate|].
    destruct Hfresh as (author & Hserved & Hone).
    + replace (scan published_prefix (blogKeys sample_store))
        with [sample_entry] by (vm_compute; reflexivity).
      repeat constructor. vm_compute. discriminate.
    + exists created, author. split; [exact Hr|]. split; [exact Hviews|].
      split; [exact Hserved|exact Hone].
  - assert (blogKeys sample_store !! blog_key "" = None) as Hempty
      by (vm_compute; reflexivity).
    destruct (getBlogBySlug_spec sample_store "hello-world" Hempty)
      as (_ & _ & Hcreate).
    destruct (Hcreate "alice" sample_body "Hello World" "my first post" "b2"
                1500)
      as (created & Hr & _ & _ & Hstored & _ & _ & Hother & _);
      [reflexivity|discriminate|reflexivity|discriminate|reflexivity
      |discriminate|].
    assert (created = second_blog) as ->.
    { assert (Some created = Some second_blog) as [= ->]; [|reflexivity].
      rewrite <- Hstored. vm_compute. reflexivity. }
    apply (Hother sample_entry).
    + exists [], [second_entry].
      split; [vm_compute; reflexivity|]. split; [constructor|reflexivity].
    + discriminate.
Defined.

(** C2, as stated, against the handler: slugs are not unique.  After a
    second post with the title of the first has been created as published,
    with 0 views, the fetch of its slug serves the first post, whose index
    entry comes first in the scan, and raises that post's counter; the
    record of the post just created still shows 0 views. *)
Lemma getBlogBySlug_claim_counterexample :
  reply (createBlog (Some "alice") sample_body "b2" 1500) sample_store
    = Json second_blog
  ∧ Blog.views second_blog = Some 0
  ∧ Blog.slug second_blog = generateSlug "Hello World"
  ∧ Blog.id <$> scan published_prefix (blogKeys second_hello) = ["b1"; "b2"]
  ∧ reply (getBlogBySlug (generateSlug "Hello World")) second_hello
    = Json (viewed sample_blog, Some (mkAuthor "alice" "Alice"))
  ∧ Blog.id (viewed sample_blog) = "b1"
  ∧ Blog.views (viewed sample_blog) = Some 1
  ∧ blogKeys (store_after (getBlogBySlug (generateSlug "Hello World"))
                second_hello) !! blog_key "b2"
    = Some second_blog.
Proof. repeat split; vm_compute; reflexivity. Qed.

(** ** Cascading delete *)

Lemma lookup_foldl_delete {V A} (key : A → string) (xs : list A)
    (m : gmap string V) k :
  foldl (λ acc x, delete (key x) acc) m xs !! k
  = if decide (k ∈ key <$> xs) then None else m !! k.
Proof.
  revert m. induction xs as [|x xs IH]; intros m; cbn [foldl fmap list_fmap].
  - rewrite decide_False; [done|]. apply not_elem_of_nil.
  - rewrite IH. destruct (decide (k = key x)) as [->|Hne].
    + rewrite lookup_delete_eq. rewrite (decide_True (P := _ ∈ _ :: _));
        [by destruct (decide _)|by left].
    + rewrite lookup_delete_ne by done.
      destruct (decide (k ∈ key <$> xs)) as [Hin|Hnin].
      * rewrite decide_True; [done|by right].
      * rewrite decide_False; [done|].
        by intros [?|?]%elem_of_cons.
Qed.

(** C8: when the owner deletes a blog, whatever the number of its
    comments, the blog record is gone, the published-index entry is gone
    (whether or not there was one), the id is no longer in the owner's
    blog-id list, no comment is left under the blog's prefix, and
    [listComments] on that id answers the empty list. *)
Theorem deleteBlog_cascade st owner blogId blog :
  blogKeys st !! blog_key blogId = Some blog →
  Blog.authorId blog = owner →
  comments_keyed_by_id st blogId →
  let st' := store_after (deleteBlog (Some owner) blogId) st in
  reply (deleteBlog (Some owner) blogId) st = Json true
  ∧ blogKeys st' !! blog_key blogId = None
  ∧ blogKeys st' !! published_key blogId = None
  ∧ listKeys st' !! user_blogs_key owner
    = Some (filter (λ id, id ≠ blogId)
              (default [] (listKeys st !! user_blogs_key owner)))
  ∧ (blogId ∉ default [] (listKeys st' !! user_blogs_key owner))
  ∧ scan (comment_prefix blogId) (commentKeys st') = []
  ∧ listComments blogId st' = (st', Json []).
Proof.
  intros Hblog Hown Hkeyed st'. subst st'. unfold reply, store_after.
  rewrite (deleteBlog_owner st owner blogId blog) by done.
  cbn [fst snd blogKeys listKeys commentKeys].
  set (left_comments := foldl _ (commentKeys st) _).
  assert (scan (comment_prefix blogId) left_comments = []) as Hnone.
  { apply elem_of_nil_inv. intros c (k & Hk & Hp)%elem_of_scan.
    unfold left_comments in Hk. rewrite lookup_foldl_delete in Hk.
    destruct (decide _) as [|Hnin]; [done|]. apply Hnin.
    rewrite (Hkeyed k c Hk Hp).
    apply (list_elem_of_fmap_2 (λ x, comment_key blogId (Comment.id x))).
    apply elem_of_scan. by exists k. }
  split; [done|].
  split.
  { rewrite lookup_delete_ne
      by (intros H; symmetry in H; by apply blog_key_ne_published_key in H).
    by rewrite lookup_delete_eq. }
  split; [by rewrite lookup_delete_eq|].
  rewrite lookup_insert_eq. split; [done|]. cbn [default].
  split; [by intros [? _]%list_elem_of_filter|].
  split; [done|].
  unfold listComments. run. by rewrite Hnone.
Qed.

Lemma deleteBlog_cascade_witness :
  length (scan (comment_prefix "b1") (commentKeys sample_commented)) = 2%nat
  ∧ reply (deleteBlog (Some "alice") "b1") sample_commented = Json true
  ∧ reply (listComments "b1")
      (store_after (deleteBlog (Some "alice") "b1") sample_commented) = Json [].
Proof.
  split; [vm_compute; reflexivity|].
  destruct (deleteBlog_cascade sample_commented "alice" "b1" sample_blog)
    as (Hr & _ & _ & _ & _ & _ & Hlist).
  - vm_compute. reflexivity.
  - reflexivity.
  - unfold comments_keyed_by_id. apply (bool_decide_unpack _). vm_compute. exact I.
  - split; [exact Hr|]. unfold reply. rewrite Hlist. reflexivity.
Defined.

(** ** Where comments are stored *)

Lemma starts_with_colon_free (a b rest : string) :
  no_colon b = true → no_colon rest = true →
  starts_with (a +:+ ":") (b +:+ ":" +:+ rest) = true → a = b.
Proof.
  revert b. induction a as [|c a IH]; intros [|d b] Hb Hrest Hpre.
  - done.
  - change (String d b +:+ ":" +:+ rest)
      with (String d (b +:+ ":" +:+ rest)) in Hpre.
    cbn in Hpre. cbn [no_colon] in Hb.
    apply andb_true_iff in Hpre as [Hd%bool_decide_eq_true _]. subst d.
    by rewrite bool_decide_true in Hb.
  - exfalso.
    change (String c a +:+ ":") with (String c (a +:+ ":")) in Hpre.
    change ("" +:+ ":" +:+ rest) with (String ":" rest) in Hpre.
    cbn [starts_with] in Hpre.
    apply andb_true_iff in Hpre as [_ Hpre].
    clear IH Hb. revert rest Hrest Hpre.
    induction a as [|e a IHa]; intros [|r rest] Hrest Hpre; try done.
    + cbn in Hpre. cbn [no_colon] in Hrest.
      apply andb_true_iff in Hpre as [Hr%bool_decide_eq_true _]. subst r.
      by rewrite bool_decide_true in Hrest.
    + change (String e a +:+ ":") with (String e (a +:+ ":")) in Hpre.
      cbn [starts_with] in Hpre. cbn [no_colon] in Hrest.
      apply andb_true_iff in Hpre as [_ Hpre].
      apply andb_true_iff in Hrest as [_ Hrest]. by apply (IHa rest).
  - change (String c a +:+ ":") with (String c (a +:+ ":")) in Hpre.
    change (String d b +:+ ":" +:+ rest)
      with (String d (b +:+ ":" +:+ rest)) in Hpre.
    cbn [starts_with] in Hpre. cbn [no_colon] in Hb.
    apply andb_true_iff in Hpre as [Hcd%bool_decide_eq_true Hpre].
    apply andb_true_iff in Hb as [_ Hb]. f_equal; [done|]. by apply IH.
Qed.

Lemma string_app_assoc (a b c : string) :
  (a +:+ b) +:+ c = a +:+ (b +:+ c).
Proof.
  induction a as [|x a IH]; [done|].
  change (String x a +:+ b) with (String x (a +:+ b)).
  change (String x (a +:+ b) +:+ c) with (String x ((a +:+ b) +:+ c)).
  by rewrite IH.
Qed.

Lemma starts_with_same_prefix (p a b : string) :
  starts_with (p +:+ a) (p +:+ b) = starts_with a b.
Proof.
  induction p as [|x p IH]; [done|].
  change (String x p +:+ a) with (String x (p +:+ a)).
  change (String x p +:+ b) with (String x (p +:+ b)).
  cbn [starts_with]. by rewrite bool_decide_true, IH.
Qed.

Lemma comment_prefix_colon_free blogId other commentId :
  no_colon other = true → no_colon commentId = true →
  starts_with (comment_prefix blogId) (comment_key other commentId) = true →
  other = blogId.
Proof.
  intros Hother Hcomment Hpre. symmetry.
  apply (starts_with_colon_free blogId other commentId); [done..|].
  unfold comment_key, comment_prefix in Hpre.
  rewrite !string_app_assoc in Hpre.
  by rewrite starts_with_same_prefix in Hpre.
Qed.

(** [addComment] stores every comment where the cascade of [deleteBlog]
    looks for it. *)
Lemma addComment_keeps_comment_keys st caller other content commentId now
    blogId :
  no_colon other = true → no_colon commentId = true →
  comments_keyed_by_id st blogId →
  comments_keyed_by_id
    (store_after (addComment caller other content commentId now) st) blogId.
Proof.
  intros Hother Hcomment Hkeyed. unfold store_after, addComment.
  destruct caller as [uid|]; [|done].
  destruct (bool_decide (Js.trim (default "" content) = "")); [done|]. run.
  destruct (blogKeys st !! blog_key other) as [blog|]; [|done].
  destruct (default false (Blog.isDraft blog)); [done|].
  assert (comments_keyed_by_id
            (mkStore (blogKeys st) (listKeys st)
               (<[comment_key other commentId :=
                    Comment.mk commentId other (Js.trim (default "" content))
                      uid now]> (commentKeys st))
               (userKeys st)) blogId) as Hnew.
  { unfold comments_keyed_by_id in *. cbn [commentKeys].
    apply map_Forall_insert_2; [|done]. intros Hpre. cbn [Comment.id].
    by rewrite (comment_prefix_colon_free blogId other commentId). }
  by destruct (userKeys st !! user_key uid).
Qed.

Lemma emptyStore_comment_keys blogId : comments_keyed_by_id emptyStore blogId.
Proof. apply map_Forall_empty. Qed.

(** ** Read-only handlers *)

Lemma read_only_ret {A} (a : A) : read_only (mret a).
Proof. by intros st. Qed.

Lemma read_only_fail {A} e : read_only (@fail A e).
Proof. by intros st. Qed.

Lemma read_only_bind {A B} (m : Handler A) (f : A → Handler B) :
  read_only m → (∀ a, read_only (f a)) → read_only (m ≫= f).
Proof.
  intros Hm Hf st. unfold mbind, Handler_bind. specialize (Hm st).
  destruct (m st) as [st' [a|e]]; simpl in Hm; subst st'; [apply Hf|done].
Qed.

Lemma read_only_mapAll {A B} (f : A → Handler B) xs :
  (∀ x, read_only (f x)) → read_only (mapAll f xs).
Proof.
  intros Hf. induction xs as [|x xs IH]; [apply read_only_ret|].
  cbn [mapAll]. apply read_only_bind; [apply Hf|]. intros y.
  apply read_only_bind; [apply IH|]. intros ys. apply read_only_ret.
Qed.

Lemma read_only_getBlog k : read_only (kv.getBlog k).
Proof. by intros st. Qed.

Lemma read_only_search_filter search blog :
  read_only (search_filter search blog).
Proof.
  unfold search_filter. repeat case_match;
    first [apply read_only_ret | apply read_only_fail].
Qed.

Lemma read_only_tag_filter tag blog : read_only (tag_filter tag blog).
Proof.
  unfold tag_filter. repeat case_match;
    first [apply read_only_ret | apply read_only_fail].
Qed.

Lemma read_only_visit_published search tag e :
  read_only (visit_published search tag e).
Proof.
  unfold visit_published. apply read_only_bind; [apply read_only_getBlog|].
  intros [blog|]; [|apply read_only_ret].
  apply read_only_bind; [apply read_only_search_filter|]. intros found.
  destruct (negb found); [apply read_only_ret|].
  apply read_only_bind; [apply read_only_tag_filter|]. intros tagged.
  destruct (negb tagged); apply read_only_ret.
Qed.

Lemma read_only_matchingPublished search tag :
  read_only (matchingPublished search tag).
Proof.
  unfold matchingPublished. apply read_only_bind; [by intros st|].
  intros published. apply read_only_bind.
  { apply read_only_mapAll, read_only_visit_published. }
  intros pushed. apply read_only_bind.
  { apply read_only_mapAll, read_only_getBlog. }
  intros blogs. apply read_only_ret.
Qed.

(** [Promise.all] over lookups that cannot fail. *)
Lemma mapAll_lookups {A B} (f : A → Handler B) (g : Store → A → B) xs st :
  (∀ x, f x st = (st, Json (g st x))) →
  mapAll f xs st = (st, Json (g st <$> xs)).
Proof.
  intros Hf. induction xs as [|x xs IH]; [done|].
  cbn [mapAll]. unfold mbind, Handler_bind at 1. rewrite Hf.
  unfold mbind, Handler_bind at 1. by rewrite IH.
Qed.

(** ** The scan of the index succeeds on complete records *)

Lemma mapAll_total {A B} (f : A → Handler B) xs st :
  (∀ x, x ∈ xs → ∃ y, f x st = (st, Json y)) →
  ∃ ys, mapAll f xs st = (st, Json ys).
Proof.
  induction xs as [|x xs IH]; intros Hf; [by exists []|].
  destruct (Hf x) as [y Hy]; [by left|].
  destruct IH as [ys Hys]; [intros z Hz; apply Hf; by right|].
  exists (y :: ys). cbn [mapAll]. unfold mbind, Handler_bind at 1.
  rewrite Hy. unfold mbind, Handler_bind at 1. by rewrite Hys.
Qed.

Lemma matchingPublished_total st search tag :
  indexed_records_complete st →
  ∃ found, matchingPublished search tag st = (st, Json found).
Proof.
  intros Hcomplete. unfold matchingPublished.
  cbv beta iota delta [mbind mret Handler_bind Handler_ret kv.blogsByPrefix].
  destruct (mapAll_total (visit_published search tag)
              (scan published_prefix (blogKeys st)) st) as [pushed Hpushed].
  { intros e He. unfold visit_published. run.
    destruct (blogKeys st !! blog_key (Blog.id e)) as [b|] eqn:Hb;
      [|by eexists].
    destruct (Hcomplete e b He Hb) as [[content Hc] [tags Ht]].
    assert (∃ found, search_filter search b st = (st, Json found))
      as [found ->].
    { unfold search_filter. rewrite Hc. repeat case_match; by eexists. }
    assert (∃ tagged, tag_filter tag b st = (st, Json tagged))
      as [tagged Htagged].
    { unfold tag_filter. rewrite Ht. repeat case_match; by eexists. }
    destruct found; cbn [negb]; [|by eexists]. rewrite Htagged.
    destruct tagged; by eexists. }
  rewrite Hpushed.
  destruct (mapAll_total (λ id, kv.getBlog (blog_key id)) (concat pushed) st)
    as [blogs Hblogs]; [intros id _; by eexists|].
  rewrite Hblogs. by eexists.
Qed.

(** ** Sorting and slicing *)

Section Sorting.
Context {A : Type} (time : A → Z).

Lemma insert_newest_perm x xs : insert_newest time x xs ≡ₚ x :: xs.
Proof.
  induction xs as [|y xs IH]; [done|]. cbn [insert_newest].
  destruct (time x <? time y); [|done].
  by rewrite IH, Permutation_swap.
Qed.

Lemma sort_newest_first_perm xs : sort_newest_first time xs ≡ₚ xs.
Proof.
  induction xs as [|x xs IH]; [done|].
  cbn [sort_newest_first foldr]. rewrite insert_newest_perm.
  by f_equiv.
Qed.

Lemma insert_newest_sorted x xs :
  newest_first time xs → newest_first time (insert_newest time x xs).
Proof.
  unfold newest_first. induction 1 as [|y xs Hs IH Hy]; cbn [insert_newest].
  - repeat constructor.
  - destruct (time x <? time y) eqn:Hxy.
    + apply Z.ltb_lt in Hxy. constructor; [done|].
      rewrite insert_newest_perm. constructor; [lia|done].
    + apply Z.ltb_ge in Hxy. constructor; [by constructor|].
      constructor; [done|]. eapply Forall_impl; [exact Hy|].
      intros z Hz. simpl in *. lia.
Qed.

Lemma sort_newest_first_sorted xs :
  newest_first time (sort_newest_first time xs).
Proof.
  induction xs as [|x xs IH]; [constructor|].
  cbn [sort_newest_first foldr]. by apply insert_newest_sorted.
Qed.

Lemma newest_first_take_drop n k xs :
  newest_first time xs → newest_first time (take n (drop k xs)).
Proof.
  unfold newest_first. intros Hs.
  assert (StronglySorted (λ a b, time b <= time a) (drop k xs)) as Hd.
  { revert xs Hs. induction k as [|k IH]; intros xs Hs; [by rewrite drop_0|].
    destruct Hs; [constructor|]. cbn [drop]. by apply IH. }
  revert n. induction Hd as [|y ys Hys IH Hy]; intros n.
  - rewrite take_nil. constructor.
  - destruct n as [|n]; [constructor|]. cbn [take]. constructor; [apply IH|].
    eapply Forall_take in Hy. exact Hy.
Qed.
End Sorting.

(** A page within range of the indices: [slice] is [take] after [drop]. *)
Lemma slice_page {A} (xs : list A) page limit :
  1 <= page → 1 <= limit →
  slice ((page - 1) * limit) ((page - 1) * limit + limit) xs
  = take (Z.to_nat limit) (drop (Z.to_nat ((page - 1) * limit)) xs).
Proof.
  intros Hp Hl. unfold slice.
  set (len := Z.of_nat (length xs)). set (start := (page - 1) * limit).
  assert (0 <= start) by (unfold start; nia).
  rewrite !(proj2 (Z.ltb_ge _ 0)) by lia.
  destruct (Z.le_gt_cases len start) as [Hout|Hin].
  - rewrite Z.min_r, Z.min_r by lia. replace (len - len) with 0 by lia.
    rewrite (drop_ge xs (Z.to_nat start)) by (unfold len in Hout; lia).
    by rewrite take_nil.
  - rewrite (Z.min_l start) by lia.
    destruct (Z.le_gt_cases (start + limit) len) as [Hfull|Hshort].
    + rewrite Z.min_l by lia. f_equal. lia.
    + rewrite Z.min_r by lia.
      rewrite !take_ge; [done|rewrite length_drop..]; unfold len in *; lia.
Qed.

(** ** Listing *)

(** C3, as the handler has it: without [authorId], for every list of
    blogs that the scan keeps, every page from 1 on and every limit from 1
    on (10 when the query gives none), the blogs are sorted newest first,
    the answer holds the [limit] blogs from index [(page-1)*limit] on, a
    page past the end holds no blog, and [totalPages] is
    [ceil(total / limit)], which is 0 when nothing matches. *)
Theorem listBlogs_pagination st user q found :
  default "" (query_authorId q) = "" →
  reply (matchingPublished (default "" (query_search q))
           (default "" (query_tag q))) st = Json found →
  let page := default 1 (query_page q) in
  let limit := default 10 (query_limit q) in
  1 <= page → 1 <= limit →
  let total := Z.of_nat (length found) in
  let sorted := sort_newest_first Blog.createdAt found in
  ∃ blogs,
    listBlogs user q st
    = (st, Json (PageListing blogs total page (Some (Js.ceil_div total limit))))
    ∧ blogs.*1
      = take (Z.to_nat limit) (drop (Z.to_nat ((page - 1) * limit)) sorted)
    ∧ sorted ≡ₚ found
    ∧ newest_first Blog.createdAt sorted
    ∧ newest_first Blog.createdAt blogs.*1
    ∧ (total <= (page - 1) * limit → blogs = [])
    ∧ (query_limit q = None → limit = 10)
    ∧ (total = 0 → Js.ceil_div total limit = 0).
Proof.
  intros Hauthor Hfound page limit Hpage Hlimit total sorted.
  assert (matchingPublished (default "" (query_search q))
            (default "" (query_tag q)) st = (st, Json found)) as Hscan.
  { pose proof (read_only_matchingPublished (default "" (query_search q))
                  (default "" (query_tag q)) st) as Hst.
    unfold reply in Hfound. destruct (matchingPublished _ _ st) as [st' r].
    simpl in *. by subst. }
  set (paginated := take (Z.to_nat limit)
                      (drop (Z.to_nat ((page - 1) * limit)) sorted)).
  exists ((λ blog, (blog, project_author
                            (userKeys st !! user_key (Blog.authorId blog))))
          <$> paginated).
  split; [|split; [|split; [|split; [|split; [|split; [|split]]]]]].
  - unfold listBlogs. rewrite Hauthor, bool_decide_true by done. cbn [negb].
    unfold mbind at 1, Handler_bind at 1. rewrite Hscan.
    fold page limit sorted. rewrite slice_page by done. fold paginated.
    unfold mbind at 1, Handler_bind at 1.
    rewrite (mapAll_lookups _
               (λ st blog, (blog, project_author
                                    (userKeys st !! user_key (Blog.authorId blog)))))
      by done.
    unfold mret, Handler_ret, total_pages.
    rewrite (proj2 (Z.eqb_neq limit 0)) by lia.
    subst sorted. by rewrite (Permutation_length (sort_newest_first_perm _ found)).
  - rewrite <- list_fmap_compose. apply list_fmap_id.
  - apply sort_newest_first_perm.
  - apply sort_newest_first_sorted.
  - rewrite <- list_fmap_compose, list_fmap_id.
    apply newest_first_take_drop, sort_newest_first_sorted.
  - intros Hout. unfold paginated. rewrite drop_ge; [by rewrite take_nil|].
    subst sorted total.
    rewrite (Permutation_length (sort_newest_first_perm _ found)). lia.
  - intros Hnone. subst limit. by rewrite Hnone.
  - intros Hzero. by rewrite Hzero.
Qed.

Lemma listBlogs_pagination_witness :
  length (found_in (reply (matchingPublished "foo" "") three_posts)) = 3%nat
  ∧ listed_ids (reply (listBlogs None foo_page_two) three_posts) = ["f2"]
  ∧ listed_pages (reply (listBlogs None foo_page_two) three_posts) = Some 3.
Proof.
  split; [vm_compute; reflexivity|].
  destruct (listBlogs_pagination three_posts None foo_page_two
              (found_in (reply (matchingPublished "foo" "") three_posts)))
    as (blogs & Hr & Hblogs & _).
  - reflexivity.
  - vm_compute. reflexivity.
  - vm_compute. discriminate.
  - vm_compute. discriminate.
  - unfold reply, listed_ids, listed, listed_pages. rewrite Hr. cbn [snd].
    rewrite Hblogs. split; vm_compute; reflexivity.
Defined.

(** C3, as stated, against the handler: with nothing to list it reports 0
    pages, where the claim has a minimum of 1; with eleven posts and no
    [limit] it lists ten of them on two pages, where a default of 12 would
    list all eleven on one; the page -1 with limit 1 over three posts is
    out of range and yet not empty; and the limit -1 lists two of the three
    posts on -3 pages. *)
Lemma listBlogs_claim_counterexample :
  (listed_pages (reply (listBlogs None no_filter) sample_users) = Some 0
   ∧ Some 0 ≠ Some (Z.max 1 (Js.ceil_div 0 12)))
  ∧ (length (found_in (reply (matchingPublished "" "") eleven_posts)) = 11%nat
     ∧ length (listed (reply (listBlogs None no_filter) eleven_posts)) = 10%nat
     ∧ listed_pages (reply (listBlogs None no_filter) eleven_posts) = Some 2
     ∧ Some 2 ≠ Some (Z.max 1 (Js.ceil_div 11 12)))
  ∧ listed_ids (reply (listBlogs None
                         (mkBlogQuery None None (Some (-1)) (Some 1) None))
                  three_posts) = ["f2"]
  ∧ (listed_ids (reply (listBlogs None
                          (mkBlogQuery None None (Some 1) (Some (-1)) None))
                   three_posts) = ["f3"; "f2"]
     ∧ listed_pages (reply (listBlogs None
                              (mkBlogQuery None None (Some 1) (Some (-1)) None))
                       three_posts) = Some (-3)).
Proof.
  split; [split; [vm_compute; reflexivity|vm_compute; discriminate]|].
  split.
  { do 3 (split; [vm_compute; reflexivity|]). vm_compute. discriminate. }
  repeat split; vm_compute; reflexivity.
Qed.

Example listBlogs_past_the_end :
  listed_ids (reply (listBlogs None
                       (mkBlogQuery None None (Some 5) (Some 1) None))
                three_posts) = [].
Proof. vm_compute. reflexivity. Qed.

(** ** Tags *)

Lemma lower_char_idem c : Js.lower_char (Js.lower_char c) = Js.lower_char c.
Proof. destruct c as [[] [] [] [] [] [] [] []]; reflexivity. Qed.

Lemma toLowerCase_idem s : Js.toLowerCase (Js.toLowerCase s) = Js.toLowerCase s.
Proof.
  unfold Js.toLowerCase. rewrite chars_str, <- list_fmap_compose. f_equal.
  apply list_fmap_ext. intros _ c _. apply lower_char_idem.
Qed.

Lemma lower_char_ascii c :
  (Js.code c < 128)%N → Js.lower_char c = ascii_lower_char c.
Proof.
  destruct c as [[] [] [] [] [] [] [] []]; intros H; try reflexivity;
    by vm_compute in H.
Qed.

(** On ASCII text [toLowerCase] folds the letters A-Z and nothing else. *)
Lemma toLowerCase_ascii s : is_ascii s → Js.toLowerCase s = ascii_lower s.
Proof.
  unfold is_ascii, Js.toLowerCase, ascii_lower. intros Hs. f_equal.
  induction Hs as [|c l Hc _ IH]; [done|].
  cbn [fmap list_fmap]. by rewrite lower_char_ascii, IH.
Qed.

Lemma tag_filter_result tag blog tags st :
  Blog.tags blog = Some tags → tag ≠ "" →
  tag_filter tag blog st = (st, Json (bool_decide (Js.toLowerCase tag ∈ tags))).
Proof.
  intros Htags Hne. unfold tag_filter.
  by rewrite bool_decide_false, Htags by done.
Qed.

(** C5, as the handler has it: the tags of a blog are stored as they were
    submitted ([[]] when the body has none); on a blog whose stored tags
    are all lower-case, a non-empty tag filter keeps the blog exactly when
    some stored tag equals the query up to letter case as [toLowerCase]
    folds it, which on ASCII tags and queries is equality up to ASCII case;
    and the empty query keeps every blog. *)
Theorem tag_filter_lowercase_tags st :
  (∀ caller body title content blogId now,
     body_title body = Some title → title ≠ "" →
     body_content body = Some content → content ≠ "" →
     ∃ blog,
       blogKeys (store_after (createBlog (Some caller) body blogId now) st)
         !! blog_key blogId = Some blog
       ∧ Blog.tags blog = Some (default [] (body_tags body)))
  ∧ (∀ owner blogId existing body title content now,
       blogKeys st !! blog_key blogId = Some existing →
       Blog.authorId existing = owner →
       body_title body = Some title → body_content body = Some content →
       ∃ blog,
         blogKeys (store_after (updateBlog (Some owner) blogId body now) st)
           !! blog_key blogId = Some blog
         ∧ Blog.tags blog = Some (default [] (body_tags body)))
  ∧ (∀ blog tags t,
       Blog.tags blog = Some tags → Forall lowercase tags → t ≠ "" →
       (∃ kept, tag_filter t blog st = (st, Json kept))
       ∧ (tag_filter t blog st = (st, Json true)
          ↔ ∃ s, s ∈ tags ∧ eq_ignore_case s t)
       ∧ (is_ascii t → Forall is_ascii tags →
          (tag_filter t blog st = (st, Json true)
           ↔ ∃ s, s ∈ tags ∧ eq_ascii_case s t)))
  ∧ (∀ blog, tag_filter "" blog st = (st, Json true)).
Proof.
  split; [|split; [|split]].
  - intros caller body title content blogId now Ht Htne Hc Hcne.
    unfold store_after.
    rewrite (createBlog_valid st caller body title content blogId now) by done.
    cbn [fst blogKeys]. eexists. split.
    { destruct (negb _); [|by rewrite lookup_insert_eq].
      rewrite lookup_insert_ne by (symmetry; apply blog_key_ne_published_key).
      by rewrite lookup_insert_eq. }
    reflexivity.
  - intros owner blogId existing body title content now Hblog Hown Ht Hc.
    unfold store_after.
    rewrite (updateBlog_owner st owner blogId existing body title content now)
      by done.
    cbn [fst blogKeys]. eexists. split.
    { destruct (negb _).
      - rewrite lookup_insert_ne
          by (symmetry; apply blog_key_ne_published_key).
        by rewrite lookup_insert_eq.
      - rewrite lookup_delete_ne
          by (symmetry; apply blog_key_ne_published_key).
        by rewrite lookup_insert_eq. }
    reflexivity.
  - intros blog tags t Htags Hlower Hne.
    rewrite (tag_filter_result t blog tags st) by done.
    assert ((st, Json (bool_decide (Js.toLowerCase t ∈ tags)))
              = (st, Json true)
            ↔ ∃ s, s ∈ tags ∧ eq_ignore_case s t) as Hiff.
    { split.
      - intros [= Hin%bool_decide_eq_true]. exists (Js.toLowerCase t).
        split; [done|]. apply toLowerCase_idem.
      - intros (s & Hin & Heq). do 2 f_equal. apply bool_decide_eq_true.
        unfold eq_ignore_case in Heq. rewrite <- Heq.
        by rewrite (proj1 (Forall_forall _ _) Hlower s Hin). }
    split; [by eexists|]. split; [exact Hiff|].
    intros Ht Hascii. rewrite Hiff. split; intros (s & Hin & Heq); exists s.
    + split; [done|]. unfold eq_ascii_case.
      rewrite <- !toLowerCase_ascii;
        [done|done|exact (proj1 (Forall_forall _ _) Hascii s Hin)].
    + split; [done|]. unfold eq_ignore_case.
      rewrite !toLowerCase_ascii;
        [done|done|exact (proj1 (Forall_forall _ _) Hascii s Hin)].
  - intros blog. unfold tag_filter. by rewrite bool_decide_true.
Qed.

Lemma tag_filter_lowercase_tags_witness :
  tag_filter "React" sample_blog sample_store = (sample_store, Json true).
Proof.
  destruct (tag_filter_lowercase_tags sample_store) as (_ & _ & Hfilter & _).
  destruct (Hfilter sample_blog ["react"] "React") as (_ & Hiff & _).
  - reflexivity.
  - constructor; [vm_compute; reflexivity|constructor].
  - discriminate.
  - apply Hiff. exists "react". split; [by left|vm_compute; reflexivity].
Defined.

(** C5, as stated, against the handler: tags submitted as ["React"],
    twice, are stored as submitted, neither lower-cased nor made a set; the
    filter [react], which equals the stored tag up to ASCII case, finds no
    blog; and the filter U+00C9 finds the blog tagged U+00E9, which differs
    from it by more than ASCII case. *)
Lemma tag_filter_claim_counterexample :
  (reply (createBlog (Some "alice") capital_body "b7" 50) sample_users
     = Json (Blog.mk "b7" "Hooks" (Some "some text") "hooks"
               (Some ["React"; "React"]) (Some false) (Some 1) "alice" 50
               (Some 50) (Some 0))
   ∧ (Blog.tags <$> blogKeys capital_store !! blog_key "b7")
     = Some (Some ["React"; "React"])
   ∧ ¬ NoDup ["React"; "React"]
   ∧ ¬ lowercase "React")
  ∧ (eq_ascii_case "React" "react"
     ∧ listed_ids (reply (listBlogs None no_filter) capital_store) = ["b7"]
     ∧ listed_ids (reply (listBlogs None (by_tag "react")) capital_store) = [])
  ∧ (lowercase e_acute
     ∧ ¬ eq_ascii_case e_acute E_acute
     ∧ listed_ids (reply (listBlogs None (by_tag E_acute)) accent_store)
       = ["b8"]).
Proof.
  split; [|split].
  - split; [vm_compute; reflexivity|]. split; [vm_compute; reflexivity|].
    split; [|vm_compute; discriminate].
    intros Hnodup. apply NoDup_cons in Hnodup as [Hnotin _].
    apply Hnotin. by left.
  - repeat split; vm_compute; reflexivity.
  - split; [vm_compute; reflexivity|]. split; [vm_compute; discriminate|].
    vm_compute. reflexivity.
Qed.

(** ** Profiles *)

Lemma trimmed_or_blank fallback field :
  omitted_or_blank field → trimmed_or fallback field = fallback.
Proof.
  destruct field as [s|]; simpl; [|done].
  intros ->. by rewrite bool_decide_true.
Qed.

(** C9: when a user updates their own profile, each of bio, location,
    phone, website and avatar that the patch leaves out (or gives blank)
    is stored as the empty string, whatever was stored before; a missing
    email keeps the stored one; and every preference key that the patch
    does not mention keeps its stored value. *)
Theorem updateProfile_resets_omitted st userId existing patch name now :
  userKeys st !! user_key userId = Some existing →
  patch_name patch = Some name →
  Js.trim name ≠ "" →
  ∃ updated prefs,
    reply (updateProfile (Some userId) userId patch now) st = Json updated
    ∧ userKeys (store_after (updateProfile (Some userId) userId patch now) st)
        !! user_key userId = Some updated
    ∧ (omitted_or_blank (patch_bio patch) → User.bio updated = "")
    ∧ (omitted_or_blank (patch_location patch) → User.location updated = "")
    ∧ (omitted_or_blank (patch_phone patch) → User.phone updated = "")
    ∧ (omitted_or_blank (patch_website patch) → User.website updated = "")
    ∧ (omitted_or_blank (patch_avatar patch) → User.avatar updated = "")
    ∧ (omitted_or_blank (patch_email patch) →
       User.email updated = User.email existing)
    ∧ User.preferences updated = Some prefs
    ∧ (∀ key, default ∅ (patch_preferences patch) !! key = None →
         prefs !! key = default ∅ (User.preferences existing) !! key).
Proof.
  intros Huser Hname Hne. unfold reply, store_after, updateProfile. run.
  rewrite bool_decide_false by (by intros []). rewrite Huser, Hname.
  cbn [trimmed_or]. rewrite !(bool_decide_false (Js.trim name = "")) by done.
  cbn [fst snd userKeys]. eexists _, _.
  split; [reflexivity|]. split; [by rewrite lookup_insert_eq|].
  cbn [User.bio User.location User.phone User.website User.avatar User.email
       User.preferences].
  repeat (split; [by apply trimmed_or_blank|]).
  split; [reflexivity|]. intros key Hkey. unfold spread2.
  by rewrite lookup_union_r.
Qed.

Lemma updateProfile_resets_omitted_witness :
  ∃ updated prefs,
    reply (updateProfile (Some "alice") "alice" sample_patch 900) sample_users
      = Json updated
    ∧ User.bio sample_user = "old bio" ∧ User.bio updated = ""
    ∧ User.location updated = ""
    ∧ User.email updated = "alice@example.org"
    ∧ User.preferences updated = Some prefs
    ∧ prefs !! "showPhone" = Some false
    ∧ prefs !! "showEmail" = Some true.
Proof.
  destruct (updateProfile_resets_omitted sample_users "alice" sample_user
              sample_patch " Alice B " 900)
    as (updated & prefs & Hr & Hs & Hbio & Hloc & _ & _ & _ & Hmail & Hp & Hk).
  - vm_compute. reflexivity.
  - reflexivity.
  - vm_compute. discriminate.
  - exists updated, prefs. split; [exact Hr|]. split; [reflexivity|].
    split; [apply Hbio; exact I|]. split; [apply Hloc; vm_compute; reflexivity|].
    split; [apply Hmail; exact I|]. split; [exact Hp|].
    split.
    + rewrite (Hk "showPhone"); vm_compute; reflexivity.
    + vm_compute in Hr. injection Hr as <-.
      vm_compute in Hp. injection Hp as <-. vm_compute. reflexivity.
Defined.

(** * Further properties of the server *)

(** ** Comments *)

Lemma omitted_or_blank_trim content :
  omitted_or_blank content ↔ Js.trim (default "" content) = "".
Proof. destruct content as [s|]; simpl; [done|]. by split. Qed.

(** X1: [addComment] checks the credentials first, then the content, then
    the blog: without credentials it answers AuthError; with a content that
    is missing or blank it answers ValidationError, whether or not the blog
    exists; with a real content it answers NotFoundError when the blog is
    missing or is a draft.  None of these rejections changes the store. *)
Theorem addComment_rejections st blogId content commentId now :
  addComment None blogId content commentId now st = (st, Failed AuthError)
  ∧ (∀ caller, omitted_or_blank content →
       addComment (Some caller) blogId content commentId now st
       = (st, Failed ValidationError))
  ∧ (∀ caller, ¬ omitted_or_blank content →
       blogKeys st !! blog_key blogId = None →
       addComment (Some caller) blogId content commentId now st
       = (st, Failed NotFoundError))
  ∧ (∀ caller blog, ¬ omitted_or_blank content →
       blogKeys st !! blog_key blogId = Some blog →
       Blog.isDraft blog = Some true →
       addComment (Some caller) blogId content commentId now st
       = (st, Failed NotFoundError)).
Proof.
  split; [done|]. split; [|split].
  - intros caller Hblank%omitted_or_blank_trim. unfold addComment.
    by rewrite bool_decide_true.
  - intros caller Hblank Hmissing. unfold addComment.
    rewrite bool_decide_false by (by rewrite <- omitted_or_blank_trim).
    run. by rewrite Hmissing.
  - intros caller blog Hblank Hblog Hdraft. unfold addComment.
    rewrite bool_decide_false by (by rewrite <- omitted_or_blank_trim).
    run. by rewrite Hblog, Hdraft.
Qed.

Lemma addComment_rejections_witness :
  addComment (Some "alice") "b1" (Some "   ") "c9" 4000 sample_store
    = (sample_store, Failed ValidationError)
  ∧ addComment (Some "alice") "nowhere" (Some "hello") "c9" 4000 sample_store
    = (sample_store, Failed NotFoundError).
Proof.
  split.
  - apply (addComment_rejections sample_store "b1" (Some "   ") "c9" 4000).
    vm_compute. reflexivity.
  - apply (addComment_rejections sample_store "nowhere" (Some "hello") "c9"
             4000).
    + vm_compute. discriminate.
    + vm_compute. reflexivity.
Defined.

(** What [addComment] leaves behind once the content and the blog pass. *)
Lemma addComment_stored st caller blogId blog content commentId now :
  Js.trim content ≠ "" →
  blogKeys st !! blog_key blogId = Some blog →
  Blog.isDraft blog ≠ Some true →
  let comment := new_comment caller blogId content commentId now in
  addComment (Some caller) blogId (Some content) commentId now st
  = (mkStore (blogKeys st) (listKeys st)
       (<[comment_key blogId commentId := comment]> (commentKeys st))
       (userKeys st),
     match userKeys st !! user_key caller with
     | Some author => Json (comment, mkAuthor (User.id author) (User.name author))
     | None => Failed InternalError
     end).
Proof.
  intros Hcontent Hblog Hdraft comment. unfold addComment. cbn [default from_option].
  rewrite bool_decide_false by done. run. rewrite Hblog.
  assert (default false (Blog.isDraft blog) = false) as ->.
  { destruct (Blog.isDraft blog) as [[]|]; done. }
  by destruct (userKeys st !! user_key caller).
Qed.

Lemma listComments_answer st blogId :
  listComments blogId st
  = (st, Json (sort_newest_first (λ ca, Comment.createdAt ca.1)
                 ((λ comment,
                     (comment,
                      project_author
                        (userKeys st !! user_key (Comment.authorId comment))))
                  <$> scan (comment_prefix blogId) (commentKeys st)))).
Proof.
  unfold listComments.
  cbv beta iota delta [mbind mret Handler_bind Handler_ret kv.commentsByPrefix].
  by rewrite (mapAll_lookups _
                (λ st comment,
                   (comment,
                    project_author
                      (userKeys st !! user_key (Comment.authorId comment))))).
Qed.

(** X4: [listComments] changes nothing in the store and never fails; its
    answer is sorted newest first, holds exactly the comments stored under
    the blog's prefix, each once, and gives every comment the [{id, name}]
    of its author's profile, or nothing when that profile is missing. *)
Theorem listComments_sorted st blogId :
  ∃ comments,
    listComments blogId st = (st, Json comments)
    ∧ newest_first (λ ca, Comment.createdAt ca.1) comments
    ∧ comments.*1 ≡ₚ scan (comment_prefix blogId) (commentKeys st)
    ∧ Forall (λ ca, ca.2 = project_author
                             (userKeys st !! user_key (Comment.authorId ca.1)))
        comments.
Proof.
  rewrite listComments_answer. eexists. split; [done|].
  split; [apply sort_newest_first_sorted|]. split.
  - rewrite sort_newest_first_perm, <- list_fmap_compose.
    by rewrite list_fmap_id.
  - rewrite sort_newest_first_perm. apply Forall_fmap, Forall_true. done.
Qed.

(** X2: a comment with a real content on an existing blog that is not a
    draft, sent by a user who has a profile, is stored trimmed under
    [comment:${blogId}:${commentId}], is answered with the author's
    [{id, name}], and is in the next [listComments] of that blog; blogs,
    blog-id lists and profiles are untouched. *)
Theorem addComment_then_listComments st caller profile blogId blog content
    commentId now :
  Js.trim content ≠ "" →
  blogKeys st !! blog_key blogId = Some blog →
  Blog.isDraft blog ≠ Some true →
  userKeys st !! user_key caller = Some profile →
  let comment := new_comment caller blogId content commentId now in
  let author := mkAuthor (User.id profile) (User.name profile) in
  let st' := store_after
               (addComment (Some caller) blogId (Some content) commentId now)
               st in
  reply (addComment (Some caller) blogId (Some content) commentId now) st
    = Json (comment, author)
  ∧ commentKeys st' !! comment_key blogId commentId = Some comment
  ∧ (comment, Some author) ∈ items (reply (listComments blogId) st')
  ∧ blogKeys st' = blogKeys st ∧ listKeys st' = listKeys st
  ∧ userKeys st' = userKeys st.
Proof.
  intros Hcontent Hblog Hdraft Hprofile comment author st'. subst st'.
  unfold reply, store_after.
  rewrite (addComment_stored st caller blogId blog content commentId now)
    by done.
  rewrite Hprofile. cbn [fst snd commentKeys blogKeys listKeys userKeys].
  split; [done|]. split; [by rewrite lookup_insert_eq|].
  split; [|done]. rewrite listComments_answer. cbn [snd items].
  rewrite sort_newest_first_perm. cbn [commentKeys userKeys].
  apply list_elem_of_fmap.
  exists comment. split.
  - cbn [Comment.authorId new_comment comment]. by rewrite Hprofile.
  - apply elem_of_scan. exists (comment_key blogId commentId).
    split; [by rewrite lookup_insert_eq|apply starts_with_app].
Qed.

Lemma addComment_then_listComments_witness :
  (new_comment "alice" "b1" "  well said " "c3" 4000,
   Some (mkAuthor "alice" "Alice"))
  ∈ items (reply (listComments "b1")
             (store_after
                (addComment (Some "alice") "b1" (Some "  well said ") "c3" 4000)
                sample_commented)).
Proof.
  apply (addComment_then_listComments sample_commented "alice" sample_user
           "b1" sample_blog "  well said " "c3" 4000).
  - vm_compute. discriminate.
  - vm_compute. reflexivity.
  - discriminate.
  - vm_compute. reflexivity.
Defined.

(** X3: when the sender of a comment has no profile record, the handler
    answers InternalError, and yet the comment has been stored: the next
    [listComments] shows it, without an author. *)
Theorem addComment_without_profile st caller blogId blog content commentId
    now :
  Js.trim content ≠ "" →
  blogKeys st !! blog_key blogId = Some blog →
  Blog.isDraft blog ≠ Some true →
  userKeys st !! user_key caller = None →
  let comment := new_comment caller blogId content commentId now in
  let st' := store_after
               (addComment (Some caller) blogId (Some content) commentId now)
               st in
  reply (addComment (Some caller) blogId (Some content) commentId now) st
    = Failed InternalError
  ∧ commentKeys st' !! comment_key blogId commentId = Some comment
  ∧ (comment, None) ∈ items (reply (listComments blogId) st').
Proof.
  intros Hcontent Hblog Hdraft Hprofile comment st'. subst st'.
  unfold reply, store_after.
  rewrite (addComment_stored st caller blogId blog content commentId now)
    by done.
  rewrite Hprofile. cbn [fst snd commentKeys].
  split; [done|]. split; [by rewrite lookup_insert_eq|].
  rewrite listComments_answer. cbn [snd items].
  rewrite sort_newest_first_perm. cbn [commentKeys userKeys].
  apply list_elem_of_fmap.
  exists comment. split.
  - cbn [Comment.authorId new_comment comment]. by rewrite Hprofile.
  - apply elem_of_scan. exists (comment_key blogId commentId).
    split; [by rewrite lookup_insert_eq|apply starts_with_app].
Qed.

Lemma addComment_without_profile_witness :
  reply (addComment (Some "bob") "b1" (Some "hi") "c4" 5000) sample_store
    = Failed InternalError
  ∧ (new_comment "bob" "b1" "hi" "c4" 5000, None)
    ∈ items (reply (listComments "b1")
               (store_after (addComment (Some "bob") "b1" (Some "hi") "c4" 5000)
                  sample_store)).
Proof.
  destruct (addComment_without_profile sample_store "bob" "b1" sample_blog
              "hi" "c4" 5000) as (Hr & _ & Hin).
  - vm_compute. discriminate.
  - vm_compute. reflexivity.
  - discriminate.
  - vm_compute. reflexivity.
  - split; [exact Hr|exact Hin].
Defined.

(** ** The listing of one author *)

Lemma omap_lookups {A B} (f : A → option B) (xs : list A) :
  omap (λ b, b) (f <$> xs) = omap f xs.
Proof. induction xs as [|x xs IH]; [done|]. cbn. by rewrite IH. Qed.

Lemma filter_all {A} (P : A → Prop) `{∀ x, Decision (P x)} (xs : list A) :
  Forall P xs → filter P xs = xs.
Proof.
  induction 1 as [|x xs Hx _ IH]; [done|].
  by rewrite filter_cons_True, IH.
Qed.

Lemma listBlogs_author_answer st user q authorId :
  query_authorId q = Some authorId → authorId ≠ "" →
  listBlogs user q st
  = (st,
     Json (AuthorListing
             (filter (λ blog, bool_decide (user = Some authorId)
                              || negb (default false (Blog.isDraft blog)) = true)
                (own_blogs st authorId))
             (Z.of_nat
                (length
                   (filter (λ blog, bool_decide (user = Some authorId)
                                    || negb (default false (Blog.isDraft blog))
                                       = true)
                      (own_blogs st authorId)))))).
Proof.
  intros Hq Hne. unfold listBlogs. rewrite Hq. cbn [default from_option id].
  rewrite bool_decide_false by done. cbn [negb].
  cbv beta iota delta [mbind mret Handler_bind Handler_ret kv.getList].
  rewrite (mapAll_lookups _ (λ st id, blogKeys st !! blog_key id)) by done.
  by rewrite omap_lookups.
Qed.

(** X5: with an [authorId], [listBlogs] reads the author's blog-id list and
    changes nothing; the author gets every record of the list, drafts
    included, in list order; anyone else, signed in or not, gets the same
    list without the drafts, so never a draft; search, tag, page and limit
    play no part, and [total] is the number of blogs answered. *)
Theorem listBlogs_by_author st user q authorId :
  query_authorId q = Some authorId → authorId ≠ "" →
  ∃ blogs,
    listBlogs user q st
    = (st, Json (AuthorListing blogs (Z.of_nat (length blogs))))
    ∧ (user = Some authorId → blogs = own_blogs st authorId)
    ∧ (user ≠ Some authorId →
       blogs = filter not_draft (own_blogs st authorId)
       ∧ Forall (λ blog, Blog.isDraft blog ≠ Some true) blogs).
Proof.
  intros Hq Hne. rewrite (listBlogs_author_answer st user q authorId) by done.
  eexists. split; [reflexivity|]. split.
  - intros Hown. rewrite bool_decide_true by done. cbn [orb].
    apply filter_all. by apply Forall_true.
  - intros Hother. rewrite bool_decide_false by done. cbn [orb].
    split; [done|]. apply Forall_forall. intros blog Hin.
    apply list_elem_of_filter in Hin as [Hnot _]. by intros Hd; rewrite Hd in Hnot.
Qed.

Lemma listBlogs_by_author_witness :
  listed (reply (listBlogs None (by_author "alice")) sample_store)
  = [sample_blog].
Proof.
  destruct (listBlogs_by_author sample_store None (by_author "alice") "alice")
    as (blogs & Hr & _ & Hother).
  - reflexivity.
  - discriminate.
  - unfold reply. rewrite Hr. cbn [snd listed].
    destruct Hother as [-> _]; [discriminate|]. vm_compute. reflexivity.
Defined.

(** X6: a draft is for its author's eyes: after [createBlog], the author's
    own listing contains the new blog; the listing that anyone else gets of
    that author contains it exactly when it was not created as a draft. *)
Theorem created_blog_listed st caller body title content blogId now :
  body_title body = Some title → title ≠ "" →
  body_content body = Some content → content ≠ "" →
  caller ≠ "" →
  let st' := store_after (createBlog (Some caller) body blogId now) st in
  ∃ created,
    reply (createBlog (Some caller) body blogId now) st = Json created
    ∧ created ∈ listed (reply (listBlogs (Some caller) (by_author caller)) st')
    ∧ (∀ user, user ≠ Some caller →
         created ∈ listed (reply (listBlogs user (by_author caller)) st')
         ↔ default false (body_isDraft body) = false).
Proof.
  intros Ht Htne Hc Hcne Hcaller st'. subst st'. unfold reply, store_after.
  rewrite (createBlog_valid st caller body title content blogId now) by done.
  cbn [fst snd].
  set (blog := Blog.mk blogId title _ _ _ _ _ _ _ _ _).
  set (st1 := mkStore _ _ _ _).
  assert (blog ∈ own_blogs st1 caller) as Hown.
  { unfold own_blogs. cbn [listKeys st1]. rewrite lookup_insert_eq.
    cbn [default from_option id]. apply list_elem_of_omap. exists blogId. split.
    - apply elem_of_app. right. by left.
    - cbn [blogKeys st1]. destruct (negb _).
      + rewrite lookup_insert_ne
          by (symmetry; apply blog_key_ne_published_key).
        by rewrite lookup_insert_eq.
      + by rewrite lookup_insert_eq. }
  exists blog. split; [done|]. split.
  - rewrite (listBlogs_author_answer st1 (Some caller) (by_author caller) caller)
      by done.
    cbn [snd listed]. apply list_elem_of_filter. split; [|done].
    by rewrite bool_decide_true.
  - intros user Huser.
    rewrite (listBlogs_author_answer st1 user (by_author caller) caller)
      by done.
    cbn [snd listed]. rewrite list_elem_of_filter, bool_decide_false by done.
    cbn [orb Blog.isDraft blog default from_option id].
    destruct (default false (body_isDraft body)); cbn [negb]; split;
      try done; intros []; done.
Qed.

Lemma created_blog_listed_witness :
  ∃ created,
    reply (createBlog (Some "alice")
             (mkBlogBody (Some "Notes") (Some "to self") None (Some true))
             "d1" 70) sample_store = Json created
    ∧ created ∈ listed (reply (listBlogs (Some "alice") (by_author "alice"))
                          (store_after
                             (createBlog (Some "alice")
                                (mkBlogBody (Some "Notes") (Some "to self")
                                   None (Some true)) "d1" 70) sample_store))
    ∧ created ∉ listed (reply (listBlogs None (by_author "alice"))
                          (store_after
                             (createBlog (Some "alice")
                                (mkBlogBody (Some "Notes") (Some "to self")
                                   None (Some true)) "d1" 70) sample_store)).
Proof.
  destruct (created_blog_listed sample_store "alice"
              (mkBlogBody (Some "Notes") (Some "to self") None (Some true))
              "Notes" "to self" "d1" 70)
    as (created & Hr & Hown & Hother); try done.
  exists created. split; [exact Hr|]. split; [exact Hown|].
  intros Hin. by apply (Hother None) in Hin.
Defined.

(** ** What the blog handlers leave alone *)

(** X7: [getBlogBySlug] never creates or deletes a key: the answer to a
    failed fetch is given with the store unchanged, and a successful fetch
    rewrites one blog record, which differs from the stored one in its
    view counter only; blog-id lists, comments and profiles are never
    written. *)
Theorem getBlogBySlug_frame st slug :
  let st' := store_after (getBlogBySlug slug) st in
  listKeys st' = listKeys st
  ∧ commentKeys st' = commentKeys st
  ∧ userKeys st' = userKeys st
  ∧ (∀ e, reply (getBlogBySlug slug) st = Failed e → st' = st)
  ∧ (∀ k, blogKeys st' !! k = blogKeys st !! k
          ∨ ∃ blog, blogKeys st !! k = Some blog
                    ∧ blogKeys st' !! k = Some (viewed blog)).
Proof.
  cbv zeta. unfold store_after, reply.
  destruct (getBlogBySlug_outcome st slug)
    as [(e & blog & Hfind & Hid & Hblog)|Hfail].
  - rewrite (getBlogBySlug_found st slug e blog) by done.
    cbn [fst snd listKeys commentKeys userKeys blogKeys].
    do 3 (split; [done|]). split; [done|]. intros k.
    destruct (decide (k = blog_key (Blog.id e))) as [->|Hne].
    + right. exists blog. split; [done|]. by rewrite lookup_insert_eq.
    + left. by rewrite lookup_insert_ne.
  - rewrite Hfail. cbn [fst snd]. do 4 (split; [done|]). by left.
Qed.

(** X8: a successful [updateBlog] keeps the record's id, author, creation
    time and view counter, also when it turns a draft into a published blog
    or back; it writes no key but the record and the index entry of that
    id, and no blog-id list, comment or profile. *)
Theorem updateBlog_frame st owner blogId existing body title content now :
  blogKeys st !! blog_key blogId = Some existing →
  Blog.authorId existing = owner →
  body_title body = Some title → body_content body = Some content →
  let st' := store_after (updateBlog (Some owner) blogId body now) st in
  ∃ updated,
    reply (updateBlog (Some owner) blogId body now) st = Json updated
    ∧ blogKeys st' !! blog_key blogId = Some updated
    ∧ Blog.id updated = Blog.id existing
    ∧ Blog.authorId updated = Blog.authorId existing
    ∧ Blog.createdAt updated = Blog.createdAt existing
    ∧ Blog.views updated = Blog.views existing
    ∧ Blog.updatedAt updated = Some now
    ∧ (∀ k, k ≠ blog_key blogId → k ≠ published_key blogId →
            blogKeys st' !! k = blogKeys st !! k)
    ∧ listKeys st' = listKeys st
    ∧ commentKeys st' = commentKeys st
    ∧ userKeys st' = userKeys st.
Proof.
  intros Hblog Hown Ht Hc st'. subst st'. unfold reply, store_after.
  rewrite (updateBlog_owner st owner blogId existing body title content now)
    by done.
  cbn [fst snd blogKeys listKeys commentKeys userKeys].
  eexists. split; [reflexivity|]. split.
  { destruct (negb _).
    - rewrite lookup_insert_ne by (symmetry; apply blog_key_ne_published_key).
      by rewrite lookup_insert_eq.
    - rewrite lookup_delete_ne by (symmetry; apply blog_key_ne_published_key).
      by rewrite lookup_insert_eq. }
  do 5 (split; [done|]). split; [|done].
  intros k Hk1 Hk2. destruct (negb _).
  - by rewrite !lookup_insert_ne.
  - by rewrite lookup_delete_ne, lookup_insert_ne.
Qed.

Lemma updateBlog_frame_witness :
  ∃ updated,
    reply (updateBlog (Some "alice") "b1"
             (mkBlogBody (Some "New title") (Some "new text") None (Some true))
             9000) sample_store = Json updated
    ∧ Blog.createdAt updated = 1000
    ∧ Blog.views updated = Some 0
    ∧ Blog.updatedAt updated = Some 9000.
Proof.
  destruct (updateBlog_frame sample_store "alice" "b1" sample_blog
              (mkBlogBody (Some "New title") (Some "new text") None (Some true))
              "New title" "new text" 9000)
    as (updated & Hr & _ & _ & _ & Hcreated & Hviews & Hupdated & _);
    [vm_compute; reflexivity|done..|].
  exists updated. split; [exact Hr|]. split; [exact Hcreated|].
  split; [exact Hviews|exact Hupdated].
Defined.

(** X9: [updateBlog] and [deleteBlog] answer AuthError without
    credentials and NotFoundError for an id without a record; [updateBlog]
    answers InternalError to the owner of the blog when the body lacks the
    title or the content.  In each of these cases the store is left as it
    was: no half-written update. *)
Theorem update_delete_rejections st blogId body now :
  updateBlog None blogId body now st = (st, Failed AuthError)
  ∧ deleteBlog None blogId st = (st, Failed AuthError)
  ∧ (∀ caller, blogKeys st !! blog_key blogId = None →
       updateBlog (Some caller) blogId body now st = (st, Failed NotFoundError)
       ∧ deleteBlog (Some caller) blogId st = (st, Failed NotFoundError))
  ∧ (∀ owner existing,
       blogKeys st !! blog_key blogId = Some existing →
       Blog.authorId existing = owner →
       body_title body = None ∨ body_content body = None →
       updateBlog (Some owner) blogId body now st = (st, Failed InternalError)).
Proof.
  split; [done|]. split; [done|]. split.
  - intros caller Hmissing. unfold updateBlog, deleteBlog. run.
    by rewrite Hmissing.
  - intros owner existing Hblog Hown Hbody. unfold updateBlog. run.
    rewrite Hblog, bool_decide_false by (by intros []).
    destruct Hbody as [-> | ->]; [done|]. by destruct (body_title body).
Qed.

Lemma update_delete_rejections_witness :
  updateBlog (Some "alice") "b1" (mkBlogBody None (Some "text") None None) 9000
    sample_store = (sample_store, Failed InternalError)
  ∧ deleteBlog (Some "alice") "b404" sample_store
    = (sample_store, Failed NotFoundError).
Proof.
  split.
  - destruct (update_delete_rejections sample_store "b1"
                (mkBlogBody None (Some "text") None None) 9000)
      as (_ & _ & _ & Hbody).
    apply (Hbody "alice" sample_blog).
    + vm_compute. reflexivity.
    + reflexivity.
    + by left.
  - destruct (update_delete_rejections sample_store "b404" sample_body 0)
      as (_ & _ & Hmissing & _).
    apply (Hmissing "alice"). vm_compute. reflexivity.
Defined.

(** ** Creating and then deleting *)

(** X10: deleting a blog right after creating it under a fresh id gives
    back the blog keys of the store as they were; the author's blog-id list
    holds the same ids as before (a missing list has become the empty
    list); the profiles are untouched, and so are the comments when none
    was stored under the id's prefix. *)
Theorem create_then_delete st caller body title content blogId now :
  body_title body = Some title → title ≠ "" →
  body_content body = Some content → content ≠ "" →
  blogKeys st !! blog_key blogId = None →
  blogKeys st !! published_key blogId = None →
  blogId ∉ default [] (listKeys st !! user_blogs_key caller) →
  let st1 := store_after (createBlog (Some caller) body blogId now) st in
  let st2 := store_after (deleteBlog (Some caller) blogId) st1 in
  reply (deleteBlog (Some caller) blogId) st1 = Json true
  ∧ blogKeys st2 = blogKeys st
  ∧ listKeys st2 !! user_blogs_key caller
    = Some (default [] (listKeys st !! user_blogs_key caller))
  ∧ (∀ k, k ≠ user_blogs_key caller → listKeys st2 !! k = listKeys st !! k)
  ∧ userKeys st2 = userKeys st
  ∧ (scan (comment_prefix blogId) (commentKeys st) = [] →
     commentKeys st2 = commentKeys st).
Proof.
  intros Ht Htne Hc Hcne Hrecord Hindex Hlist st1 st2. subst st1 st2.
  unfold reply, store_after.
  rewrite (createBlog_valid st caller body title content blogId now) by done.
  cbn [fst].
  set (blog := Blog.mk blogId title _ _ _ _ _ _ _ _ _).
  set (st1 := mkStore _ _ _ _).
  assert (blogKeys st1 !! blog_key blogId = Some blog) as Hblog.
  { cbn [blogKeys st1]. destruct (negb _); [|by rewrite lookup_insert_eq].
    rewrite lookup_insert_ne by (symmetry; apply blog_key_ne_published_key).
    by rewrite lookup_insert_eq. }
  rewrite (deleteBlog_owner st1 caller blogId blog) by done.
  cbn [fst snd blogKeys listKeys commentKeys userKeys st1].
  split; [done|]. split; [|split; [|split; [|split]]].
  - apply map_eq. intros k.
    pose proof (blog_key_ne_published_key blogId) as Hkeys.
    destruct (decide (k = published_key blogId)) as [->|Hk1].
    { by rewrite lookup_delete_eq, Hindex. }
    rewrite lookup_delete_ne by done.
    destruct (decide (k = blog_key blogId)) as [->|Hk2].
    { by rewrite lookup_delete_eq, Hrecord. }
    rewrite lookup_delete_ne by done.
    destruct (negb _); by rewrite ?lookup_insert_ne by done.
  - rewrite lookup_insert_eq. f_equal. rewrite lookup_insert_eq.
    cbn [default from_option id]. rewrite filter_app.
    rewrite (filter_all (λ id, id ≠ blogId)).
    + rewrite filter_cons_False, filter_nil by (by intros []).
      by rewrite app_nil_r.
    + apply Forall_forall. intros id Hin ->. done.
  - intros k Hk. by rewrite !lookup_insert_ne.
  - done.
  - intros Hnone. by rewrite Hnone.
Qed.

Lemma create_then_delete_witness :
  blogKeys
    (store_after (deleteBlog (Some "alice") "b2")
       (store_after (createBlog (Some "alice") sample_body "b2" 1500)
          sample_store))
  = blogKeys sample_store.
Proof.
  apply (create_then_delete sample_store "alice" sample_body "Hello World"
           "my first post" "b2" 1500); try done.
  replace (default [] (listKeys sample_store !! user_blogs_key "alice"))
    with ["b1"] by (vm_compute; reflexivity).
  by intros [?|?%elem_of_nil]%elem_of_cons.
Defined.

(** ** Unpublishing *)

Lemma plain_id_not_published blogId :
  plain_id blogId → starts_with published_prefix (blog_key blogId) = false.
Proof.
  unfold plain_id, published_prefix, blog_key. intros Hplain.
  change "blog:published:" with ("blog:" +:+ "published:").
  by rewrite starts_with_same_prefix.
Qed.

(** X11: once its owner has saved a blog as a draft, the blog has no index
    entry, nobody can comment on it (NotFoundError), and, when the index
    pointed to the blog from its own entry only and the id is outside the
    [published:] namespace, no fetch by any slug changes its record: its
    view counter is never raised. *)
Theorem updateBlog_to_draft st owner blogId existing body title content now :
  blogKeys st !! blog_key blogId = Some existing →
  Blog.authorId existing = owner →
  body_title body = Some title → body_content body = Some content →
  body_isDraft body = Some true →
  let st' := store_after (updateBlog (Some owner) blogId body now) st in
  blogKeys st' !! published_key blogId = None
  ∧ (∃ draft, blogKeys st' !! blog_key blogId = Some draft
              ∧ Blog.isDraft draft = Some true)
  ∧ (∀ caller text commentId sent,
       Js.trim text ≠ "" →
       addComment (Some caller) blogId (Some text) commentId sent st'
       = (st', Failed NotFoundError))
  ∧ (plain_id blogId → indexed_once st blogId →
     ∀ slug,
       blogKeys (store_after (getBlogBySlug slug) st') !! blog_key blogId
       = blogKeys st' !! blog_key blogId).
Proof.
  intros Hblog Hown Ht Hc Hdraft st'. subst st'. unfold store_after.
  rewrite (updateBlog_owner st owner blogId existing body title content now)
    by done.
  rewrite Hdraft. cbn [fst default from_option id negb].
  set (draft := Blog.mk _ title _ _ _ (Some true) _ _ _ _ _).
  set (st1 := mkStore _ _ _ _).
  assert (blogKeys st1 !! blog_key blogId = Some draft) as Hrecord.
  { cbn [blogKeys st1].
    rewrite lookup_delete_ne by (symmetry; apply blog_key_ne_published_key).
    by rewrite lookup_insert_eq. }
  split; [cbn [blogKeys st1]; by rewrite lookup_delete_eq|].
  split; [by exists draft|]. split.
  - intros caller text commentId sent Htext. unfold addComment.
    cbn [default from_option id]. rewrite bool_decide_false by done. run.
    fold st1. by rewrite Hrecord.
  - intros Hplain Honce slug.
    destruct (getBlogBySlug_outcome st1 slug)
      as [(e & blog & Hfind & Hid & Hserved)|Hfail]; [|by rewrite Hfail].
    rewrite (getBlogBySlug_found st1 slug e blog) by done.
    cbn [fst blogKeys]. rewrite lookup_insert_ne; [done|].
    intros Heq%blog_key_inj.
    apply find_first in Hfind as (before & after & Hsplit & _ & _).
    assert (e ∈ scan published_prefix (blogKeys st1)) as Hin.
    { rewrite Hsplit. apply elem_of_app. right. by left. }
    apply elem_of_scan in Hin as (k & Hk & Hprefix). cbn [blogKeys st1] in Hk.
    apply lookup_delete_Some in Hk as [Hne Hk].
    apply lookup_insert_Some in Hk as [[<- _]|[_ Hk]].
    + by rewrite plain_id_not_published in Hprefix.
    + apply Hne. symmetry. by apply (Honce k e).
Qed.

Lemma updateBlog_to_draft_witness :
  addComment (Some "alice") "b1" (Some "late") "c5" 9500
    (store_after (updateBlog (Some "alice") "b1"
                    (mkBlogBody (Some "Hello World") (Some "my first post")
                       None (Some true)) 9000) sample_store)
  = (store_after (updateBlog (Some "alice") "b1"
                    (mkBlogBody (Some "Hello World") (Some "my first post")
                       None (Some true)) 9000) sample_store,
     Failed NotFoundError).
Proof.
  destruct (updateBlog_to_draft sample_store "alice" "b1" sample_blog
              (mkBlogBody (Some "Hello World") (Some "my first post") None
                 (Some true)) "Hello World" "my first post" 9000)
    as (_ & _ & Hcomment & _); [vm_compute; reflexivity|done..|].
  apply Hcomment. vm_compute. discriminate.
Defined.

(** ** Paging through a listing *)

Lemma listBlogs_page_answer st user q found :
  default "" (query_authorId q) = "" →
  reply (matchingPublished (default "" (query_search q))
           (default "" (query_tag q))) st = Json found →
  1 <= default 1 (query_page q) → 1 <= default 10 (query_limit q) →
  let sorted := sort_newest_first Blog.createdAt found in
  listBlogs user q st
  = (st,
     Json (PageListing
             ((λ blog, (blog, project_author
                                (userKeys st !! user_key (Blog.authorId blog))))
              <$> take (Z.to_nat (default 10 (query_limit q)))
                    (drop (Z.to_nat ((default 1 (query_page q) - 1)
                                     * default 10 (query_limit q))) sorted))
             (Z.of_nat (length sorted)) (default 1 (query_page q))
             (Some (Js.ceil_div (Z.of_nat (length sorted))
                      (default 10 (query_limit q)))))).
Proof.
  intros Hauthor Hfound Hpage Hlimit sorted.
  assert (matchingPublished (default "" (query_search q))
            (default "" (query_tag q)) st = (st, Json found)) as Hscan.
  { pose proof (read_only_matchingPublished (default "" (query_search q))
                  (default "" (query_tag q)) st) as Hst.
    unfold reply in Hfound. destruct (matchingPublished _ _ st) as [st' r].
    simpl in *. by subst. }
  unfold listBlogs. rewrite Hauthor, bool_decide_true by done.
  cbn [negb]. unfold mbind at 1, Handler_bind at 1. rewrite Hscan.
  rewrite slice_page by done.
  unfold mbind at 1, Handler_bind at 1.
  rewrite (mapAll_lookups _
             (λ st blog, (blog, project_author
                                  (userKeys st !! user_key (Blog.authorId blog)))))
    by done.
  unfold mret, Handler_ret, total_pages.
  by rewrite (proj2 (Z.eqb_neq _ 0)) by lia.
Qed.

Lemma listBlogs_page st user q found :
  default "" (query_authorId q) = "" →
  reply (matchingPublished (default "" (query_search q))
           (default "" (query_tag q))) st = Json found →
  1 <= default 1 (query_page q) → 1 <= default 10 (query_limit q) →
  listed (reply (listBlogs user q) st)
  = take (Z.to_nat (default 10 (query_limit q)))
      (drop (Z.to_nat ((default 1 (query_page q) - 1)
                       * default 10 (query_limit q)))
         (sort_newest_first Blog.createdAt found))
  ∧ listed_pages (reply (listBlogs user q) st)
    = Some (Js.ceil_div (Z.of_nat (length found)) (default 10 (query_limit q))).
Proof.
  intros Hauthor Hfound Hpage Hlimit. unfold reply.
  rewrite (listBlogs_page_answer st user q found) by done.
  cbn [snd listed listed_pages]. split.
  - rewrite <- list_fmap_compose. apply list_fmap_id.
  - by rewrite (Permutation_length (sort_newest_first_perm _ found)).
Qed.

(** Cutting a list into pages of [size] elements loses and repeats
    nothing. *)
Lemma pages_concat {A} (xs : list A) (size count : nat) :
  (0 < size)%nat → (length xs ≤ count * size)%nat →
  concat ((λ p, take size (drop (p * size) xs)) <$> seq 0 count) = xs.
Proof.
  intros Hsize. revert xs. induction count as [|count IH]; intros xs Hlen.
  - destruct xs; [done|]. simpl in Hlen. lia.
  - cbn [seq fmap list_fmap concat]. rewrite Nat.mul_0_l, drop_0.
    transitivity (take size xs ++ drop size xs); [|apply take_drop].
    f_equal.
    transitivity (concat ((λ p, take size (drop (p * size) (drop size xs)))
                          <$> seq 0 count));
      [|apply IH; rewrite length_drop; lia].
    f_equal. rewrite <- seq_shift.
    change (fmap ?f (map S ?l)) with (f <$> (S <$> l)).
    rewrite <- list_fmap_compose.
    apply list_fmap_ext. intros _ p _. cbn.
    by rewrite drop_drop, (Nat.add_comm size).
Qed.

(** X12: paging reaches every blog once: for a limit from 1 on, the
    answers to the pages 1, 2, ..., [totalPages] of a listing, put one after
    the other, are the matching blogs, newest first, none missing and none
    twice. *)
Theorem listBlogs_pages_cover st user q found :
  default "" (query_authorId q) = "" →
  reply (matchingPublished (default "" (query_search q))
           (default "" (query_tag q))) st = Json found →
  1 <= default 10 (query_limit q) →
  let pages := Js.ceil_div (Z.of_nat (length found))
                 (default 10 (query_limit q)) in
  listed_pages (reply (listBlogs user (with_page q 1)) st) = Some pages
  ∧ concat ((λ page, listed (reply (listBlogs user (with_page q page)) st))
            <$> seqZ 1 pages)
    = sort_newest_first Blog.createdAt found.
Proof.
  intros Hauthor Hfound Hlimit pages.
  set (limit := default 10 (query_limit q)) in *.
  set (sorted := sort_newest_first Blog.createdAt found).
  assert (0 <= pages ∧ Z.of_nat (length found) <= pages * limit)
    as [Hpages Hcover].
  { subst pages. pose proof (ceil_div_least (Z.of_nat (length found)) limit).
    split; [|lia]. unfold Js.ceil_div.
    assert (- Z.of_nat (length found) / limit <= 0); [|lia].
    apply Z.div_le_upper_bound; lia. }
  split.
  - by destruct (listBlogs_page st user (with_page q 1) found) as [_ ->].
  - rewrite <- (pages_concat sorted (Z.to_nat limit) (Z.to_nat pages)).
    + unfold seqZ. rewrite <- list_fmap_compose. f_equal.
      apply list_fmap_ext. intros i p Hp%lookup_seq. destruct Hp as [-> Hp].
      cbn [compose].
      destruct (listBlogs_page st user (with_page q (Z.of_nat (0 + i) + 1))
                  found) as [-> _]; try done; cbn; [lia|].
      fold limit sorted. do 2 f_equal. nia.
    + lia.
    + subst sorted. rewrite (Permutation_length (sort_newest_first_perm _ found)).
      nia.
Qed.

Lemma listBlogs_pages_cover_witness :
  Js.ceil_div (Z.of_nat (length three_found)) 2 = 2
  ∧ concat ((λ page, listed (reply (listBlogs None (with_page two_per_page page))
                               three_posts))
            <$> seqZ 1 (Js.ceil_div (Z.of_nat (length three_found)) 2))
    = sort_newest_first Blog.createdAt three_found.
Proof.
  split; [vm_compute; reflexivity|].
  apply (listBlogs_pages_cover three_posts None two_per_page three_found).
  - reflexivity.
  - vm_compute. reflexivity.
  - vm_compute. discriminate.
Defined.

(** ** Profiles *)

Lemma getProfile_answer st userId user :
  userKeys st !! user_key userId = Some user →
  getProfile userId st
  = (st,
     Json (mkProfileSummary (User.id user) (User.name user) (User.email user)
             (User.bio user) (User.location user) (User.phone user)
             (User.website user) (User.avatar user) (User.socialLinks user)
             (default default_preferences (User.preferences user))
             (User.createdAt user) (published_count st userId))).
Proof.
  intros Huser. unfold getProfile.
  cbv beta iota delta [mbind mret Handler_bind Handler_ret kv.getUser kv.getList].
  rewrite Huser.
  rewrite (mapAll_lookups _ (λ st id, blogKeys st !! blog_key id)) by done.
  by rewrite omap_lookups.
Qed.

(** X13: [getProfile] changes nothing in the store.  For a stored profile
    it answers the profile's fields, the default preferences when the
    profile has none, and as [blogCount] the number of ids in the user's
    blog-id list whose record exists and is not a draft, which is never
    more than the list has ids.  When the key holds nothing, it answers
    NotFoundError. *)
Theorem getProfile_summary st userId :
  (∀ user, userKeys st !! user_key userId = Some user →
     ∃ summary,
       getProfile userId st = (st, Json summary)
       ∧ summary_name summary = User.name user
       ∧ summary_email summary = User.email user
       ∧ summary_preferences summary
         = default default_preferences (User.preferences user)
       ∧ blogCount summary = published_count st userId
       ∧ 0 <= blogCount summary
         <= Z.of_nat (length (default [] (listKeys st !! user_blogs_key userId))))
  ∧ (userKeys st !! user_key userId = None →
     listKeys st !! user_key userId = None →
     getProfile userId st = (st, Failed NotFoundError)).
Proof.
  split.
  - intros user Huser. rewrite (getProfile_answer st userId user) by done.
    eexists. split; [reflexivity|]. do 4 (split; [done|]).
    cbn [blogCount]. unfold published_count, own_blogs. split; [lia|].
    apply inj_le. etrans; [apply length_filter|].
    set (ids := default [] _). clearbody ids.
    induction ids as [|id ids IH]; [done|]. cbn.
    destruct (blogKeys st !! blog_key id); cbn; lia.
  - intros Hnone _. unfold getProfile. run. by rewrite Hnone.
Qed.

Lemma getProfile_summary_witness :
  ∃ summary,
    getProfile "alice" sample_store = (sample_store, Json summary)
    ∧ summary_name summary = "Alice"
    ∧ blogCount summary = 1.
Proof.
  destruct (getProfile_summary sample_store "alice") as [Hfound _].
  destruct (Hfound sample_user) as (summary & Hr & Hname & _ & _ & Hcount & _).
  - vm_compute. reflexivity.
  - exists summary. split; [exact Hr|]. split; [exact Hname|].
    rewrite Hcount. vm_compute. reflexivity.
Defined.

Lemma updateProfile_owner st userId existing patch now :
  userKeys st !! user_key userId = Some existing →
  trimmed_or "" (patch_name patch) ≠ "" →
  updateProfile (Some userId) userId patch now st
  = (mkStore (blogKeys st) (listKeys st) (commentKeys st)
       (<[user_key userId := patched existing patch now]> (userKeys st)),
     Json (patched existing patch now)).
Proof.
  intros Huser Hname. unfold updateProfile. run.
  rewrite bool_decide_false by (by intros []). rewrite Huser.
  by rewrite bool_decide_false by done.
Qed.

(** X14: what [updateProfile] stores is what [getProfile] then answers:
    after a successful update the profile read back has the trimmed name
    of the patch, the patched fields and the merged preferences; the id, the
    creation time and the [blogCount] are those of before the update. *)
Theorem updateProfile_then_getProfile st userId existing patch now :
  userKeys st !! user_key userId = Some existing →
  trimmed_or "" (patch_name patch) ≠ "" →
  let st' := store_after (updateProfile (Some userId) userId patch now) st in
  ∃ summary,
    getProfile userId st' = (st', Json summary)
    ∧ summary_id summary = User.id existing
    ∧ summary_createdAt summary = User.createdAt existing
    ∧ summary_name summary = trimmed_or "" (patch_name patch)
    ∧ summary_email summary
      = trimmed_or (User.email existing) (patch_email patch)
    ∧ summary_bio summary = trimmed_or "" (patch_bio patch)
    ∧ summary_socialLinks summary = default ∅ (patch_socialLinks patch)
    ∧ summary_preferences summary
      = spread2 (User.preferences existing) (patch_preferences patch)
    ∧ blogCount summary = published_count st userId.
Proof.
  intros Huser Hname st'. subst st'. unfold store_after.
  rewrite (updateProfile_owner st userId existing patch now) by done.
  cbn [fst]. set (st1 := mkStore _ _ _ _).
  rewrite (getProfile_answer st1 userId (patched existing patch now))
    by (cbn; by rewrite lookup_insert_eq).
  eexists. split; [reflexivity|]. by repeat split.
Qed.

Lemma updateProfile_then_getProfile_witness :
  ∃ summary,
    getProfile "alice"
      (store_after (updateProfile (Some "alice") "alice" sample_patch 900)
         sample_users)
    = (store_after (updateProfile (Some "alice") "alice" sample_patch 900)
         sample_users, Json summary)
    ∧ summary_name summary = "Alice B"
    ∧ summary_bio summary = "".
Proof.
  destruct (updateProfile_then_getProfile sample_users "alice" sample_user
              sample_patch 900)
    as (summary & Hr & _ & _ & Hname & _ & Hbio & _).
  - vm_compute. reflexivity.
  - vm_compute. discriminate.
  - exists summary. split; [exact Hr|].
    rewrite Hname, Hbio. split; vm_compute; reflexivity.
Defined.

(** X15: [updateProfile] rejects in this order, each time leaving the
    store as it was: no credentials, AuthError; a caller other than the
    profile's user, ForbiddenError, also when no such profile exists; no
    stored profile, NotFoundError; a name that is missing or blank,
    ValidationError. *)
Theorem updateProfile_rejections st userId patch now :
  updateProfile None userId patch now st = (st, Failed AuthError)
  ∧ (∀ caller, caller ≠ userId →
       updateProfile (Some caller) userId patch now st
       = (st, Failed ForbiddenError))
  ∧ (userKeys st !! user_key userId = None →
     updateProfile (Some userId) userId patch now st
     = (st, Failed NotFoundError))
  ∧ (∀ existing, userKeys st !! user_key userId = Some existing →
       omitted_or_blank (patch_name patch) →
       updateProfile (Some userId) userId patch now st
       = (st, Failed ValidationError)).
Proof.
  split; [done|]. split; [|split].
  - intros caller Hne. unfold updateProfile. by rewrite bool_decide_true.
  - intros Hnone. unfold updateProfile. run.
    rewrite bool_decide_false by (by intros []). by rewrite Hnone.
  - intros existing Huser Hblank. unfold updateProfile. run.
    rewrite bool_decide_false by (by intros []). rewrite Huser.
    rewrite (trimmed_or_blank "" (patch_name patch)) by done.
    by rewrite bool_decide_true.
Qed.

Lemma updateProfile_rejections_witness :
  updateProfile (Some "bob") "alice" sample_patch 900 sample_users
    = (sample_users, Failed ForbiddenError)
  ∧ updateProfile (Some "bob") "bob" sample_patch 900 sample_users
    = (sample_users, Failed NotFoundError).
Proof.
  split.
  - destruct (updateProfile_rejections sample_users "alice" sample_patch 900)
      as (_ & Hforbidden & _).
    apply Hforbidden. discriminate.
  - destruct (updateProfile_rejections sample_users "bob" sample_patch 900)
      as (_ & _ & Hmissing & _).
    apply Hmissing. vm_compute. reflexivity.
Defined.

(** ** Signing up *)

(** X16: [signup] answers ValidationError and writes nothing when the
    email, the password or the name is missing or empty, and when the
    identity provider refuses to create the user.  Otherwise it stores,
    under the id that the provider gave, a profile with the name and the
    email as they were sent, empty bio, location, phone, website and
    avatar, no social link and the default preferences; [getProfile] then
    answers that profile. *)
Theorem signup_profile st email password name created now :
  (default "" email = "" ∨ default "" password = "" ∨ default "" name = ""
   ∨ created = None →
   signup email password name created now st = (st, Failed ValidationError))
  ∧ (∀ userId,
       default "" email ≠ "" → default "" password ≠ "" →
       default "" name ≠ "" → created = Some userId →
       let profile :=
         fresh_profile userId (default "" name) (default "" email) now in
       let st' := store_after (signup email password name created now) st in
       reply (signup email password name created now) st = Json userId
       ∧ userKeys st' !! user_key userId = Some profile
       ∧ blogKeys st' = blogKeys st ∧ listKeys st' = listKeys st
       ∧ commentKeys st' = commentKeys st
       ∧ ∃ summary,
           getProfile userId st' = (st', Json summary)
           ∧ summary_name summary = default "" name
           ∧ summary_email summary = default "" email
           ∧ summary_bio summary = ""
           ∧ summary_preferences summary = default_preferences
           ∧ blogCount summary = published_count st userId).
Proof.
  split.
  - intros Hbad. unfold signup.
    destruct (bool_decide (default "" email = "")) eqn:He; [done|].
    destruct (bool_decide (default "" password = "")) eqn:Hp; [done|].
    destruct (bool_decide (default "" name = "")) eqn:Hn; [done|].
    apply bool_decide_eq_false in He, Hp, Hn. cbn [orb].
    by destruct Hbad as [?|[?|[?| ->]]].
  - intros userId He Hp Hn -> profile st'. subst st'.
    unfold reply, store_after, signup.
    rewrite !bool_decide_false by done. cbn [orb]. run.
    split; [done|]. split; [by rewrite lookup_insert_eq|].
    do 3 (split; [done|]).
    set (st1 := mkStore _ _ _ _).
    rewrite (getProfile_answer st1 userId profile)
      by (cbn; by rewrite lookup_insert_eq).
    eexists. split; [reflexivity|]. by repeat split.
Qed.

Lemma signup_profile_witness :
  reply (signup (Some "bob@example.org") (Some "secret") (Some "Bob")
           (Some "bob") 7000) sample_store = Json "bob"
  ∧ signup (Some "bob@example.org") (Some "") (Some "Bob") (Some "bob") 7000
      sample_store = (sample_store, Failed ValidationError).
Proof.
  split.
  - destruct (signup_profile sample_store (Some "bob@example.org")
                (Some "secret") (Some "Bob") (Some "bob") 7000) as [_ Hok].
    destruct (Hok "bob") as [Hr _]; done.
  - destruct (signup_profile sample_store (Some "bob@example.org")
                (Some "") (Some "Bob") (Some "bob") 7000) as [Hbad _].
    apply Hbad. right. by left.
Defined.

(** ** The count of published blogs *)

(** X17: creating a blog under a fresh id raises the author's [blogCount]
    by one when the blog is published and leaves it as it was when the blog
    is a draft, provided the ids already in the author's list are outside
    the [published:] namespace. *)
Theorem createBlog_blogCount st caller body title content blogId now :
  body_title body = Some title → title ≠ "" →
  body_content body = Some content → content ≠ "" →
  blogId ∉ default [] (listKeys st !! user_blogs_key caller) →
  Forall plain_id (default [] (listKeys st !! user_blogs_key caller)) →
  published_count (store_after (createBlog (Some caller) body blogId now) st)
    caller
  = published_count st caller
    + (if default false (body_isDraft body) then 0 else 1).
Proof.
  intros Ht Htne Hc Hcne Hfresh Hplain. unfold store_after.
  rewrite (createBlog_valid st caller body title content blogId now) by done.
  cbn [fst]. unfold published_count, own_blogs.
  cbn [listKeys blogKeys]. rewrite lookup_insert_eq. cbn [default from_option id].
  set (ids := from_option id [] (listKeys st !! user_blogs_key caller)) in *.
  set (blog := Blog.mk blogId title _ _ _ _ _ _ _ _ _).
  set (m' := if negb _ then _ else _).
  assert (m' !! blog_key blogId = Some blog) as Hblog.
  { subst m'. destruct (negb _); [|by rewrite lookup_insert_eq].
    rewrite lookup_insert_ne by (symmetry; apply blog_key_ne_published_key).
    by rewrite lookup_insert_eq. }
  assert (omap (λ id, m' !! blog_key id) ids
          = omap (λ id, blogKeys st !! blog_key id) ids) as Hold.
  { apply list_omap_ext. apply Forall2_same_length_lookup. split; [done|].
    intros i x y Hx Hy. assert (x = y) as <- by congruence.
    assert (x ≠ blogId) by (intros ->; apply Hfresh; by eapply list_elem_of_lookup_2).
    assert (plain_id x)
      by (eapply Forall_forall; [exact Hplain|by eapply list_elem_of_lookup_2]).
    subst m'. destruct (negb _).
    - rewrite lookup_insert_ne by (symmetry; by apply plain_id_keys).
      rewrite lookup_insert_ne; [done|]. by intros ?%blog_key_inj.
    - rewrite lookup_insert_ne; [done|]. by intros ?%blog_key_inj. }
  rewrite omap_app, Hold. cbn [omap list_omap]. rewrite Hblog.
  rewrite filter_app, length_app.
  assert (length (filter not_draft [blog])
          = if default false (body_isDraft body) then 0%nat else 1%nat) as ->.
  { destruct (default false (body_isDraft body)) eqn:Hd.
    - rewrite filter_cons_False; [done|]. by unfold not_draft, blog.
    - rewrite filter_cons_True; [done|]. by unfold not_draft, blog. }
  destruct (default false (body_isDraft body)); lia.
Qed.

Lemma createBlog_blogCount_witness :
  published_count
    (store_after (createBlog (Some "alice") sample_body "b2" 1500) sample_store)
    "alice"
  = published_count sample_store "alice" + 1.
Proof.
  apply (createBlog_blogCount sample_store "alice" sample_body "Hello World"
           "my first post" "b2" 1500); try done.
  - replace (default [] (listKeys sample_store !! user_blogs_key "alice"))
      with ["b1"] by (vm_compute; reflexivity).
    by intros [?|?%elem_of_nil]%elem_of_cons.
  - replace (default [] (listKeys sample_store !! user_blogs_key "alice"))
      with ["b1"] by (vm_compute; reflexivity).
    by repeat constructor.
Defined.

(** ** Popular tags *)

Lemma tally_bump t tag counts :
  tally t (bump tag counts)
  = tally t counts + (if bool_decide (tag = t) then 1 else 0).
Proof.
  induction counts as [|[t' n] counts IH]; cbn [bump tally].
  - case_bool_decide; lia.
  - destruct (bool_decide (t' = tag)) eqn:Ht'; cbn [tally].
    + apply bool_decide_eq_true in Ht' as ->.
      case_bool_decide; lia.
    + apply bool_decide_eq_false in Ht'.
      destruct (bool_decide (t' = t)) eqn:Ht; [|exact IH].
      apply bool_decide_eq_true in Ht as ->.
      rewrite bool_decide_false by congruence. lia.
Qed.

Lemma bump_keys tag counts :
  (bump tag counts).*1
  = if bool_decide (tag ∈ counts.*1) then counts.*1 else counts.*1 ++ [tag].
Proof.
  induction counts as [|[t n] counts IH]; [done|]. cbn [bump].
  destruct (bool_decide (t = tag)) eqn:Ht.
  - apply bool_decide_eq_true in Ht as ->. cbn [fmap list_fmap fst].
    by rewrite bool_decide_true by left.
  - apply bool_decide_eq_false in Ht. cbn [fmap list_fmap fst].
    change (list_fmap _ _ fst ?l) with (l.*1). rewrite IH.
    destruct (bool_decide (tag ∈ counts.*1)) eqn:Hin.
    + apply bool_decide_eq_true in Hin. by rewrite bool_decide_true by (by right).
    + apply bool_decide_eq_false in Hin.
      rewrite bool_decide_false; [done|].
      by intros [?|?]%elem_of_cons.
Qed.

Lemma bump_NoDup tag counts : NoDup counts.*1 → NoDup (bump tag counts).*1.
Proof.
  intros Hnd. rewrite bump_keys. case_bool_decide; [done|].
  apply NoDup_app. split; [done|]. split; [|apply NoDup_singleton].
  intros t Ht [->|[]%elem_of_nil]%elem_of_cons. done.
Qed.

Lemma elem_of_bump_keys t tag counts :
  t ∈ (bump tag counts).*1 ↔ t ∈ counts.*1 ∨ t = tag.
Proof.
  rewrite bump_keys. case_bool_decide.
  - split; [by left|]. by intros [?| ->].
  - rewrite elem_of_app, elem_of_cons. split.
    + intros [?|[?|[]%elem_of_nil]]; [by left|by right].
    + intros [?|?]; [by left|right; by left].
Qed.

Lemma tally_tags t counts tags :
  tally t (foldl (λ counts tag, bump tag counts) counts tags)
  = tally t counts + occurrences t tags.
Proof.
  revert counts. induction tags as [|tag tags IH]; intros counts.
  - cbn. unfold occurrences. cbn. lia.
  - cbn [foldl]. rewrite IH, tally_bump. unfold occurrences.
    case_bool_decide.
    + rewrite filter_cons_True by done. cbn [length]. lia.
    + rewrite filter_cons_False by done. lia.
Qed.

Lemma keys_tags t counts tags :
  t ∈ (foldl (λ counts tag, bump tag counts) counts tags).*1
  ↔ t ∈ counts.*1 ∨ t ∈ tags.
Proof.
  revert counts. induction tags as [|tag tags IH]; intros counts.
  - cbn. split; [by left|]. by intros [?|?%elem_of_nil].
  - cbn [foldl]. rewrite IH, elem_of_bump_keys, elem_of_cons. tauto.
Qed.

Lemma NoDup_tags counts tags :
  NoDup counts.*1 →
  NoDup (foldl (λ counts tag, bump tag counts) counts tags).*1.
Proof.
  revert counts. induction tags as [|tag tags IH]; intros counts Hnd; [done|].
  cbn [foldl]. by apply IH, bump_NoDup.
Qed.

Lemma elem_of_tally t n counts :
  NoDup counts.*1 → (t, n) ∈ counts → tally t counts = n.
Proof.
  induction counts as [|[t' n'] counts IH]; [by intros _ ?%elem_of_nil|].
  cbn [fmap list_fmap fst tally]. change (list_fmap _ _ fst ?l) with (l.*1).
  intros [Hnotin Hnd]%NoDup_cons [Heq|Hin]%elem_of_cons.
  - injection Heq as -> ->. by rewrite bool_decide_true.
  - rewrite bool_decide_false; [by apply IH|].
    intros ->. apply Hnotin. apply list_elem_of_fmap. by exists (t, n).
Qed.

Lemma tally_elem_of t counts :
  t ∈ counts.*1 → (t, tally t counts) ∈ counts.
Proof.
  induction counts as [|[t' n'] counts IH]; [by intros ?%elem_of_nil|].
  cbn [fmap list_fmap fst tally]. change (list_fmap _ _ fst ?l) with (l.*1).
  intros Hin. case_bool_decide as Ht.
  - subst t'. by left.
  - right. apply IH. by apply elem_of_cons in Hin as [?|?].
Qed.

Lemma insert_index_perm entry sorted :
  insert_index entry sorted ≡ₚ entry :: sorted.
Proof.
  induction sorted as [|e sorted IH]; [done|]. cbn [insert_index].
  destruct (entry.1 <? e.1)%N; [done|]. by rewrite IH, Permutation_swap.
Qed.

Lemma entries_perm counts : entries counts ≡ₚ counts.
Proof.
  unfold entries. induction counts as [|kv counts IH]; [done|].
  cbn [omap list_omap]. destruct (array_index kv.1) as [n|] eqn:Hn.
  - cbn [fmap option_fmap option_map foldr].
    rewrite insert_index_perm. cbn [fmap list_fmap snd app].
    rewrite filter_cons_False by (by rewrite Hn). by f_equiv.
  - cbn [fmap option_fmap option_map].
    rewrite filter_cons_True by done.
    rewrite <- Permutation_middle. by f_equiv.
Qed.

Lemma omap_cons {A B} (f : A → option B) x xs :
  omap f (x :: xs)
  = match f x with Some y => y :: omap f xs | None => omap f xs end.
Proof. done. Qed.

Lemma count_tags_answer st counts entry :
  count_tags counts entry st
  = (st,
     Json (foldl (λ counts tag, bump tag counts) counts
             (default [] (tags_of st entry)))).
Proof.
  unfold count_tags, tags_of.
  cbv beta iota delta [mbind mret Handler_bind Handler_ret kv.getBlog].
  destruct (blogKeys st !! blog_key (Blog.id entry)) as [blog|]; [|done].
  cbn. by destruct (Blog.tags blog).
Qed.

Lemma forEachFrom_count_tags st found counts :
  forEachFrom found count_tags counts st
  = (st,
     Json (foldl (λ counts tag, bump tag counts) counts
             (concat (omap (tags_of st) found)))).
Proof.
  revert counts. induction found as [|entry found IH]; intros counts; [done|].
  cbn [forEachFrom]. unfold mbind, Handler_bind at 1.
  rewrite count_tags_answer, IH, omap_cons.
  destruct (tags_of st entry) as [tags|];
    cbn [default from_option id concat foldl]; [|reflexivity].
  by rewrite foldl_app.
Qed.

Lemma popularTags_answer st :
  popularTags st
  = (st,
     Json (take 20
             (sort_newest_first snd
                (entries (foldl (λ counts tag, bump tag counts) []
                            (counted_tags st)))))).
Proof.
  unfold popularTags.
  cbv beta iota delta [mbind mret Handler_bind Handler_ret kv.blogsByPrefix].
  rewrite forEachFrom_count_tags.
  change (slice 0 20 ?xs) with (slice ((1 - 1) * 20) ((1 - 1) * 20 + 20) xs).
  by rewrite slice_page by lia.
Qed.

(** X18: [popularTags] changes nothing in the store and answers at most
    twenty pairs of a tag and a count, no tag twice, the counts in
    descending order.  The count of a tag is the number of times the tag
    occurs in the tag lists of the records of the indexed blogs, a tag
    repeated within one blog counted each time.  A tag is left out only
    when twenty tags with counts at least as large are answered.  The tags
    are assumed not to be names that an object inherits. *)
Theorem popularTags_counts st :
  Forall ordinary_tag (counted_tags st) →
  ∃ tags,
    popularTags st = (st, Json tags)
    ∧ (length tags ≤ 20)%nat
    ∧ NoDup tags.*1
    ∧ newest_first snd tags
    ∧ (∀ tag n, (tag, n) ∈ tags →
         tag ∈ counted_tags st ∧ n = occurrences tag (counted_tags st))
    ∧ (∀ tag, tag ∈ counted_tags st →
         (tag, occurrences tag (counted_tags st)) ∈ tags
         ∨ (length tags = 20%nat
            ∧ ∀ other, other ∈ tags →
                occurrences tag (counted_tags st) <= other.2)).
Proof.
  intros _. rewrite popularTags_answer.
  set (counts := foldl _ [] _).
  set (sorted := sort_newest_first snd (entries counts)).
  assert (sorted ≡ₚ counts) as Hperm
    by (unfold sorted; by rewrite sort_newest_first_perm, entries_perm).
  assert (NoDup counts.*1) as Hnd by (apply NoDup_tags; constructor).
  assert (∀ tag n, (tag, n) ∈ counts ↔
            tag ∈ counted_tags st ∧ n = occurrences tag (counted_tags st))
    as Hcounts.
  { intros tag n. split.
    - intros Hin. split.
      + assert (tag ∈ counts.*1) as Hk
          by (apply list_elem_of_fmap; by exists (tag, n)).
        apply keys_tags in Hk as [[]%elem_of_nil|Hk]. done.
      + apply elem_of_tally in Hin; [|done]. subst counts.
        rewrite tally_tags in Hin. cbn [tally] in Hin. lia.
    - intros [Hin ->].
      assert (tag ∈ counts.*1) as Hk by (apply keys_tags; by right).
      apply tally_elem_of in Hk. subst counts.
      rewrite tally_tags in Hk. cbn [tally] in Hk.
      by rewrite Z.add_0_l in Hk. }
  assert (newest_first snd sorted) as Hsorted
    by apply sort_newest_first_sorted.
  eexists. split; [reflexivity|]. split; [|split; [|split; [|split]]].
  - rewrite length_take. lia.
  - rewrite fmap_take. apply (sublist_NoDup _ sorted.*1).
    + by rewrite Hperm.
    + apply sublist_take.
  - rewrite <- (drop_0 sorted). by apply newest_first_take_drop.
  - intros tag n Hin%subseteq_take. apply Hcounts. by rewrite <- Hperm.
  - intros tag Hin.
    assert ((tag, occurrences tag (counted_tags st)) ∈ sorted) as Hs
      by (rewrite Hperm; by apply Hcounts).
    rewrite <- (take_drop 20 sorted) in Hs.
    apply elem_of_app in Hs as [Hs|Hs]; [by left|right]. split.
    + rewrite length_take. apply Nat.min_l.
      destruct (decide (20 ≤ length sorted)%nat); [done|].
      rewrite drop_ge in Hs by lia. by apply elem_of_nil in Hs.
    + intros other Hother. unfold newest_first in Hsorted.
      rewrite <- (take_drop 20 sorted) in Hsorted.
      by apply (StronglySorted_app_1_elem_of _ _ _ _ _ Hsorted Hother Hs).
Qed.

Lemma popularTags_counts_witness :
  ∃ tags,
    popularTags tagged_posts = (tagged_posts, Json tags)
    ∧ (length tags ≤ 20)%nat
    ∧ ∀ tag n, (tag, n) ∈ tags → n = occurrences tag (counted_tags tagged_posts).
Proof.
  destruct (popularTags_counts tagged_posts)
    as (tags & Hr & Hlen & _ & _ & Hcount & _).
  - unfold ordinary_tag. apply (bool_decide_unpack _). vm_compute. exact I.
  - exists tags. split; [exact Hr|]. split; [exact Hlen|].
    intros tag n Hin. by destruct (Hcount tag n Hin).
Defined.

(** ** The access token *)

Lemma chars_app (a b : string) : Js.chars (a +:+ b) = Js.chars a ++ Js.chars b.
Proof.
  induction a as [|c a IH]; [done|].
  change (String c a +:+ b) with (String c (a +:+ b)).
  cbn. f_equal. exact IH.
Qed.

Lemma str_chars s : Js.str (Js.chars s) = s.
Proof. apply string_of_list_ascii_of_string. Qed.

Lemma split_on_word sep cur word l :
  Forall (λ c, c ≠ sep) word →
  split_on sep cur (word ++ l) = split_on sep (rev word ++ cur) l.
Proof.
  intros Hword. revert cur. induction Hword as [|c word Hc _ IH]; intros cur.
  - done.
  - cbn [app split_on]. rewrite bool_decide_false by done.
    rewrite IH. cbn [rev]. by rewrite <- app_assoc.
Qed.

Lemma split_on_two sep first second l :
  Forall (λ c, c ≠ sep) first → Forall (λ c, c ≠ sep) second →
  split_on sep [] (first ++ sep :: second) !! 1%nat = Some second
  ∧ split_on sep [] (first ++ sep :: second ++ sep :: l) !! 1%nat
    = Some second
  ∧ split_on sep [] first !! 1%nat = None.
Proof.
  intros Hfirst Hsecond. split; [|split].
  - rewrite split_on_word by done. cbn [split_on].
    rewrite bool_decide_true by done. cbn [lookup list_lookup].
    rewrite <- (app_nil_r second) at 1. rewrite split_on_word by done.
    cbn. by rewrite app_nil_r, rev_involutive.
  - rewrite split_on_word by done. cbn [split_on].
    rewrite bool_decide_true by done. cbn [lookup list_lookup].
    rewrite split_on_word by done. cbn [split_on].
    rewrite bool_decide_true by done. cbn.
    by rewrite app_nil_r, rev_involutive.
  - rewrite <- (app_nil_r first). by rewrite split_on_word.
Qed.

(** X19: the access token is the second piece of the [Authorization]
    value split at single spaces: a value without a space carries no token,
    an empty second piece (two spaces in a row) is no token, and what
    follows a second space is dropped.  The first piece, the scheme, is
    never looked at: [getAuthenticatedUser] asks the identity provider
    about the token whatever the scheme says. *)
Theorem accessToken_second_piece scheme token rest :
  no_space scheme → no_space token →
  accessToken (Some scheme) = None
  ∧ accessToken (Some (scheme +:+ " " +:+ token))
    = (if bool_decide (token = "") then None else Some token)
  ∧ accessToken (Some (scheme +:+ " " +:+ token +:+ " " +:+ rest))
    = (if bool_decide (token = "") then None else Some token)
  ∧ (∀ getUser, token ≠ "" →
       getAuthenticatedUser getUser (Some (scheme +:+ " " +:+ token))
       = getUser token).
Proof.
  unfold no_space. intros Hscheme Htoken.
  destruct (split_on_two " "%char (Js.chars scheme) (Js.chars token)
              (Js.chars rest) Hscheme Htoken) as (Htwo & Hthree & Hone).
  assert (bool_decide (Js.chars token = []) = bool_decide (token = "")) as Hempty.
  { apply bool_decide_ext. split; [|by intros ->].
    intros Hnil. by rewrite <- (str_chars token), Hnil. }
  assert (accessToken (Some (scheme +:+ " " +:+ token))
          = if bool_decide (token = "") then None else Some token) as Htok.
  { unfold accessToken. rewrite !chars_app. change (Js.chars " ") with [" "%char].
    cbn [app]. by rewrite Htwo, Hempty, str_chars. }
  split; [|split; [|split]].
  - unfold accessToken. by rewrite Hone.
  - exact Htok.
  - unfold accessToken. rewrite !chars_app. change (Js.chars " ") with [" "%char].
    cbn [app]. by rewrite Hthree, Hempty, str_chars.
  - intros getUser Hne. unfold getAuthenticatedUser.
    by rewrite Htok, bool_decide_false.
Qed.

Lemma accessToken_second_piece_witness :
  accessToken (Some "Basic") = None
  ∧ accessToken (Some ("Basic" +:+ " " +:+ "abc")) = Some "abc".
Proof.
  destruct (accessToken_second_piece "Basic" "abc" "") as (Hone & Htwo & _).
  - unfold no_space. apply (bool_decide_unpack _). vm_compute. exact I.
  - unfold no_space. apply (bool_decide_unpack _). vm_compute. exact I.
  - split; [exact Hone|exact Htwo].
Defined.

(** ** Searching *)

Lemma starts_with_prefix p s :
  starts_with p s = true ↔ ∃ rest, s = p +:+ rest.
Proof.
  split.
  - revert s. induction p as [|a p IH]; intros s Hs; [by exists s|].
    destruct s as [|b s]; [done|]. cbn [starts_with] in Hs.
    apply andb_true_iff in Hs as [->%bool_decide_eq_true Hs].
    destruct (IH s Hs) as [rest ->]. by exists rest.
  - intros [rest ->]. apply starts_with_app.
Qed.

Lemma includes_occurs hay needle :
  includes hay needle = true ↔ occurs_in needle hay.
Proof.
  unfold occurs_in. split.
  - induction hay as [|c hay IH]; cbn [includes].
    + rewrite orb_false_r. intros [rest E]%starts_with_prefix.
      by exists "", rest.
    + intros [[rest E]%starts_with_prefix|Hin]%orb_true_iff.
      * by exists "", rest.
      * destruct (IH Hin) as (before & after & ->).
        by exists (String c before), after.
  - intros (before & after & ->).
    induction before as [|c before IH].
    + change ("" +:+ ?s) with s.
      destruct (needle +:+ after) eqn:E; cbn [includes];
        rewrite <- E, starts_with_app; done.
    + change (String c before +:+ ?s) with (String c (before +:+ s)).
      cbn [includes]. rewrite IH. apply orb_true_r.
Qed.

Lemma toLowerCase_empty s : Js.toLowerCase s = "" ↔ s = "".
Proof.
  split; [|by intros ->]. unfold Js.toLowerCase. intros Hs.
  apply (f_equal Js.chars) in Hs. rewrite chars_str in Hs.
  destruct s; [done|discriminate Hs].
Qed.

(** X20: with a search text, [search_filter] keeps a blog exactly when the
    lower-cased text occurs in the lower-cased title or in the lower-cased
    content; it writes nothing, and the search text written in another
    letter case gives the same answer. *)
Theorem search_filter_occurs search blog content st :
  search ≠ "" → Blog.content blog = Some content →
  ∃ found,
    search_filter search blog st = (st, Json found)
    ∧ (found = true ↔
       occurs_in (Js.toLowerCase search) (Js.toLowerCase (Blog.title blog))
       ∨ occurs_in (Js.toLowerCase search) (Js.toLowerCase content))
    ∧ (∀ other, Js.toLowerCase other = Js.toLowerCase search →
         search_filter other blog st = (st, Json found)).
Proof.
  intros Hne Hcontent.
  assert (∀ other, Js.toLowerCase other = Js.toLowerCase search →
            search_filter other blog st
            = (st, Json (includes (Js.toLowerCase (Blog.title blog))
                           (Js.toLowerCase search)
                         || includes (Js.toLowerCase content)
                              (Js.toLowerCase search)))) as Hany.
  { intros other Hother. unfold search_filter.
    rewrite bool_decide_false.
    - rewrite Hother, Hcontent.
      by destruct (includes (Js.toLowerCase (Blog.title blog)) _).
    - intros ->. apply Hne, toLowerCase_empty. by rewrite <- Hother. }
  eexists. split; [by apply Hany|]. split; [|exact Hany].
  by rewrite orb_true_iff, !includes_occurs.
Qed.

Lemma search_filter_occurs_witness :
  search_filter "WORLD" sample_blog sample_store = (sample_store, Json true).
Proof.
  destruct (search_filter_occurs "world" sample_blog "my first post"
              sample_store) as (found & Hr & Hfound & Hcase); [done..|].
  rewrite (Hcase "WORLD") by reflexivity. do 2 f_equal.
  apply Hfound. left. by exists "hello ", "".
Defined.

(** ** Slugs of slugs *)

Lemma slug_char_lower c : slug_char c = true → Js.lower_char c = c.
Proof.
  destruct c as [[] [] [] [] [] [] [] []]; intros H; try reflexivity;
    by vm_compute in H.
Qed.

Lemma slug_char_no_space c : slug_char c = true → Js.is_space c = false.
Proof.
  destruct c as [[] [] [] [] [] [] [] []]; intros H; try reflexivity;
    by vm_compute in H.
Qed.

Lemma is_hyphen_eq c : Js.is_hyphen c = true → c = "-"%char.
Proof.
  destruct c as [[] [] [] [] [] [] [] []]; intros H; try reflexivity;
    by vm_compute in H.
Qed.

Lemma squeeze_none p rep b l :
  Forall (λ c, p c = false) l → Js.squeeze p rep b l = l.
Proof.
  intros Hl. revert b. induction Hl as [|c l Hc _ IH]; intros b; [done|].
  cbn [Js.squeeze]. by rewrite Hc, IH.
Qed.

Lemma squeeze_single b l :
  adjacent_hyphens l = false → (b = true → head_hyphen l = false) →
  Js.squeeze Js.is_hyphen "-" b l = l.
Proof.
  revert b. induction l as [|c l IH]; intros b Hadj Hhead; [done|].
  rewrite adjacent_hyphens_cons in Hadj.
  apply orb_false_iff in Hadj as [Hc Hl].
  cbn [Js.squeeze]. destruct (Js.is_hyphen c) eqn:Hh.
  - destruct b; [by specialize (Hhead eq_refl); cbn in Hhead; congruence|].
    rewrite (is_hyphen_eq c Hh). f_equal. by apply IH.
  - f_equal. by apply IH.
Qed.

Lemma trim_chars_no_space l :
  Forall (λ c, Js.is_space c = false) l → Js.trim_chars l = l.
Proof.
  intros Hl. destruct (trim_chars_split l) as (sp1 & sp2 & H1 & H2 & E).
  assert (sp1 = []) as ->.
  { destruct sp1 as [|c sp1]; [done|]. rewrite E in Hl.
    apply Forall_cons in H1 as [Hc _]. apply Forall_app in Hl as [Hl _].
    apply Forall_cons in Hl as [Hc' _]. congruence. }
  assert (sp2 = []) as ->.
  { destruct sp2 as [|c sp2]; [done|]. rewrite E in Hl.
    apply Forall_cons in H2 as [Hc _]. apply Forall_app in Hl as [_ Hl].
    apply Forall_app in Hl as [_ Hl].
    apply Forall_cons in Hl as [Hc' _]. congruence. }
  by rewrite app_nil_l, app_nil_r in E.
Qed.

(** X21: a slug is its own slug, [generateSlug] changes nothing in a text
    that it has produced; and the letter case of a title does not matter
    to its slug. *)
Theorem generateSlug_idempotent title :
  generateSlug (generateSlug title) = generateSlug title
  ∧ generateSlug (Js.toLowerCase title) = generateSlug title.
Proof.
  split; [|unfold generateSlug; by rewrite toLowerCase_idem].
  destruct (generateSlug_alphabet title) as [Halpha Hadj].
  set (slug := generateSlug title) in *.
  unfold generateSlug at 1. unfold Js.toLowerCase, Js.trim, Js.strip.
  rewrite !chars_str.
  assert (Js.lower_char <$> Js.chars slug = Js.chars slug) as ->.
  { rewrite <- (list_fmap_id (Js.chars slug)) at 2.
    apply Forall_fmap_ext_1. eapply Forall_impl; [exact Halpha|].
    intros c Hc. by apply slug_char_lower. }
  rewrite filter_all.
  2:{ eapply Forall_impl; [exact Halpha|]. intros c Hc. cbn beta.
      unfold slug_char in Hc.
      apply orb_true_iff in Hc as [[Hc|Hc]%orb_true_iff|Hc]; rewrite Hc;
        by rewrite ?orb_true_r. }
  rewrite (squeeze_none Js.is_space).
  2:{ eapply Forall_impl; [exact Halpha|]. intros c Hc.
      by apply slug_char_no_space. }
  rewrite squeeze_single by done.
  rewrite trim_chars_no_space.
  2:{ eapply Forall_impl; [exact Halpha|]. intros c Hc.
      by apply slug_char_no_space. }
  apply str_chars.
Qed.

(** ** Creating a blog *)

(** X22: [createBlog] answers AuthError without credentials and
    ValidationError when the title or the content is missing or empty, and
    writes nothing in either case; a title or a content of white space only
    is accepted. *)
Theorem createBlog_rejections st body blogId now :
  createBlog None body blogId now st = (st, Failed AuthError)
  ∧ (∀ caller,
       default "" (body_title body) = "" ∨ default "" (body_content body) = "" →
       createBlog (Some caller) body blogId now st
       = (st, Failed ValidationError))
  ∧ (∀ caller,
       default "" (body_title body) ≠ "" → default "" (body_content body) ≠ "" →
       ∃ blog,
         reply (createBlog (Some caller) body blogId now) st = Json blog
         ∧ Some (Blog.title blog) = body_title body
         ∧ Blog.content blog = body_content body).
Proof.
  split; [done|]. split.
  - intros caller Hbad. unfold createBlog.
    destruct (body_title body) as [title|], (body_content body) as [content|];
      try done.
    cbn in Hbad. destruct Hbad as [-> | ->].
    + by rewrite bool_decide_true.
    + by rewrite (bool_decide_true ("" = "")), orb_true_r.
  - intros caller Ht Hc.
    destruct (body_title body) as [title|] eqn:Et; [|done].
    destruct (body_content body) as [content|] eqn:Ec; [|done].
    cbn in Ht, Hc. unfold reply.
    rewrite (createBlog_valid st caller body title content blogId now) by done.
    by eexists.
Qed.

Lemma createBlog_rejections_witness :
  createBlog (Some "alice") (mkBlogBody (Some "") (Some "text") None None)
    "b9" 5 sample_store
  = (sample_store, Failed ValidationError)
  ∧ ∃ blog,
      reply (createBlog (Some "alice")
               (mkBlogBody (Some " ") (Some " ") None None) "b9" 5)
        sample_store = Json blog.
Proof.
  split.
  - destruct (createBlog_rejections sample_store
                (mkBlogBody (Some "") (Some "text") None None) "b9" 5)
      as (_ & Hbad & _).
    apply Hbad. by left.
  - destruct (createBlog_rejections sample_store
                (mkBlogBody (Some " ") (Some " ") None None) "b9" 5)
      as (_ & _ & Hok).
    destruct (Hok "alice") as (blog & Hr & _); [done..|]. by exists blog.
Defined.

(** * The client against the server *)

(** ** Saving from the editor *)

Lemma drop_spaces_fix l :
  (∀ c r, l = c :: r → Js.is_space c = false) → Js.drop_spaces l = l.
Proof.
  destruct l as [|c r]; [done|]. intros Hhead. cbn [Js.drop_spaces].
  by rewrite (Hhead c r).
Qed.

Lemma trim_chars_idem l : Js.trim_chars (Js.trim_chars l) = Js.trim_chars l.
Proof.
  unfold Js.trim_chars at 1.
  rewrite (drop_spaces_fix (Js.trim_chars l))
    by (intros c r E; by apply (trim_chars_head l c r)).
  unfold Js.trim_chars at 1. rewrite rev_involutive.
  rewrite (drop_spaces_fix (Js.drop_spaces _)); [done|].
  intros c r E. by apply (drop_spaces_head _ _ _ E).
Qed.

Lemma trim_idem s : Js.trim (Js.trim s) = Js.trim s.
Proof. unfold Js.trim. by rewrite chars_str, trim_chars_idem. Qed.

(** X23: what the editor hands over when it saves is accepted by
    [createBlog] for every signed-in user: the record stored has the
    trimmed title and content of the editor, the editor's tags and draft
    flag, and the reading time that the server computes for it is the one
    that the editor showed.  The editor sends nothing when the trimmed
    title or the trimmed content is empty. *)
Theorem handleSave_accepted ed saveAsDraft :
  (∀ data, handleSave saveAsDraft ed = Sent data →
     ∀ caller blogId now st,
     ∃ blog,
       reply (createBlog (Some caller) data blogId now) st = Json blog
       ∧ Blog.title blog = Js.trim (blogTitle ed)
       ∧ Blog.content blog = Some (Js.trim (blogContent ed))
       ∧ Blog.readingTime blog = Some (editor_readingTime ed)
       ∧ Blog.tags blog = Some (blogTags ed)
       ∧ Blog.isDraft blog = Some saveAsDraft)
  ∧ (Js.trim (blogTitle ed) = "" ∨ Js.trim (blogContent ed) = "" →
     ∃ message, handleSave saveAsDraft ed = Alert message).
Proof.
  split.
  - intros data Hsave caller blogId now st. unfold handleSave in Hsave.
    case_bool_decide as Ht; [done|]. case_bool_decide as Hc; [done|].
    injection Hsave as <-. unfold reply.
    rewrite (createBlog_valid st caller _ (Js.trim (blogTitle ed))
               (Js.trim (blogContent ed)) blogId now) by done.
    eexists. split; [reflexivity|]. cbn.
    repeat split. unfold calculateReadingTime, editor_readingTime.
    by rewrite trim_idem.
  - unfold handleSave. intros [Ht|Hc].
    + rewrite bool_decide_true by done. by eexists.
    + case_bool_decide; [by eexists|].
      rewrite bool_decide_true by done. by eexists.
Qed.

Lemma handleSave_accepted_witness :
  ∃ blog,
    reply (createBlog (Some "alice")
             (mkBlogBody (Some "Hello World") (Some "my first  post")
                (Some ["react"]) (Some false)) "b7" 4000) sample_users
    = Json blog
    ∧ Blog.readingTime blog = Some (editor_readingTime sample_editor).
Proof.
  destruct (handleSave_accepted sample_editor false) as [Hsent _].
  destruct (Hsent (mkBlogBody (Some "Hello World") (Some "my first  post")
                     (Some ["react"]) (Some false)) eq_refl
              "alice" "b7" 4000 sample_users)
    as (blog & Hr & _ & _ & Hreading & _).
  exists blog. by split.
Defined.

(** ** The tags of the editor *)

(** X24: the editor keeps its tag list free of repetitions: adding the
    typed tag appends its trimmed, lower-cased form once, after the tags
    already there, and appends nothing when that form is blank or already
    listed; removing a tag leaves no occurrence of it.  A blog stored with
    the tags of the editor passes the server's tag filter for the tag as it
    was typed. *)
Theorem editor_tags ed :
  NoDup (blogTags ed) →
  NoDup (blogTags (handleAddTag ed))
  ∧ (∃ added, blogTags (handleAddTag ed) = blogTags ed ++ added
              ∧ ∀ tag, tag ∈ added →
                  tag = Js.toLowerCase (Js.trim (newTag ed))
                  ∧ tag ≠ "" ∧ Js.toLowerCase tag = tag)
  ∧ (Js.trim (newTag ed) ≠ "" →
     Js.toLowerCase (Js.trim (newTag ed)) ∈ blogTags (handleAddTag ed)
     ∧ ∀ blog st,
         Blog.tags blog = Some (blogTags (handleAddTag ed)) →
         tag_filter (Js.trim (newTag ed)) blog st = (st, Json true))
  ∧ (∀ tag, NoDup (blogTags (handleRemoveTag tag ed))
            ∧ (tag ∉ blogTags (handleRemoveTag tag ed))
            ∧ ∀ other, other ≠ tag →
                (other ∈ blogTags (handleRemoveTag tag ed)
                 ↔ other ∈ blogTags ed)).
Proof.
  intros Hnd.
  assert (Js.trim (newTag ed) ≠ "" →
          Js.toLowerCase (Js.trim (newTag ed)) ∈ blogTags (handleAddTag ed))
    as Hin.
  { intros Hne. unfold handleAddTag. rewrite (bool_decide_false _ Hne).
    cbn [negb andb]. case_bool_decide as Hold; cbn [negb]; [done|].
    cbn [blogTags]. apply elem_of_app. right. by left. }
  split; [|split; [|split]].
  - unfold handleAddTag.
    destruct (negb _ && negb _) eqn:Hadd; [|done]. cbn [blogTags].
    apply andb_true_iff in Hadd as [_ Hnew%negb_true_iff].
    apply bool_decide_eq_false in Hnew.
    apply NoDup_app. split; [done|]. split; [|apply NoDup_singleton].
    by intros tag Htag [->|[]%elem_of_nil]%elem_of_cons.
  - unfold handleAddTag.
    destruct (negb _ && negb _) eqn:Hadd.
    + exists [Js.toLowerCase (Js.trim (newTag ed))]. split; [done|].
      apply andb_true_iff in Hadd as [Hne%negb_true_iff _].
      apply bool_decide_eq_false in Hne.
      intros tag [->|[]%elem_of_nil]%elem_of_cons.
      split; [done|]. split; [|apply toLowerCase_idem].
      by rewrite toLowerCase_empty.
    + exists []. split; [by rewrite app_nil_r|]. by intros tag ?%elem_of_nil.
  - intros Hne. split; [by apply Hin|]. intros blog st Htags.
    rewrite (tag_filter_result _ blog (blogTags (handleAddTag ed))) by done.
    by rewrite bool_decide_true by (by apply Hin).
  - intros tag. cbn [handleRemoveTag blogTags]. split; [|split].
    + by apply NoDup_filter.
    + by intros [Hne _]%list_elem_of_filter.
    + intros other Hother. rewrite list_elem_of_filter. tauto.
Qed.

Lemma editor_tags_witness :
  blogTags (handleAddTag sample_editor) = ["react"; "rust"]
  ∧ NoDup (blogTags (handleAddTag sample_editor)).
Proof.
  destruct (editor_tags sample_editor) as [Hnd _].
  - cbn. apply NoDup_singleton.
  - split; [vm_compute; reflexivity|exact Hnd].
Defined.

(** ** The counts of the profile page *)

(** X25: the profile page counts as published the blogs of the loaded
    list that are not drafts.  Whoever loads the list, that number is the
    [blogCount] which [getProfile] reports for the author; published and
    draft blogs together are the whole list, and the list loaded by anyone
    but the author has no draft. *)
Theorem profile_page_counts st viewer authorId :
  authorId ≠ "" →
  let blogs := listed (reply (listBlogs viewer (by_author authorId)) st) in
  Z.of_nat (length (getPublishedBlogs blogs)) = published_count st authorId
  ∧ (∀ user, userKeys st !! user_key authorId = Some user →
       ∃ summary,
         reply (getProfile authorId) st = Json summary
         ∧ blogCount summary = Z.of_nat (length (getPublishedBlogs blogs)))
  ∧ (length (getPublishedBlogs blogs) + length (getDraftBlogs blogs)
     = length blogs)%nat
  ∧ (viewer ≠ Some authorId → getDraftBlogs blogs = []).
Proof.
  intros Hne blogs. subst blogs. unfold reply.
  rewrite (listBlogs_author_answer st viewer (by_author authorId) authorId)
    by done.
  cbn [snd listed]. set (own := own_blogs st authorId).
  assert (Z.of_nat
            (length
               (getPublishedBlogs
                  (filter (λ blog, bool_decide (viewer = Some authorId)
                                   || negb (default false (Blog.isDraft blog))
                                      = true) own)))
          = published_count st authorId) as Hcount.
  { unfold published_count, getPublishedBlogs. fold own. f_equal.
    unfold not_draft. clearbody own.
    induction own as [|blog own IH]; [done|].
    destruct (default false (Blog.isDraft blog)) eqn:Hd.
    - rewrite (filter_cons_False (λ b, negb _ = true) blog own)
        by (by rewrite Hd).
      destruct (bool_decide (viewer = Some authorId)) eqn:Hv.
      + rewrite filter_cons_True by (by rewrite Hd).
        rewrite filter_cons_False by (by rewrite Hd). exact IH.
      + rewrite filter_cons_False by (by rewrite Hd). exact IH.
    - rewrite (filter_cons_True (λ b, negb _ = true) blog own)
        by (by rewrite Hd).
      rewrite filter_cons_True by (rewrite Hd; apply orb_true_r).
      rewrite filter_cons_True by (by rewrite Hd).
      cbn [length]. by rewrite IH. }
  split; [exact Hcount|]. split; [|split].
  - intros user Huser. rewrite (getProfile_answer st authorId user) by done.
    eexists. split; [reflexivity|]. cbn [blogCount]. by rewrite Hcount.
  - set (shown := filter _ own). clearbody shown.
    unfold getPublishedBlogs, getDraftBlogs.
    induction shown as [|blog shown IH]; [done|].
    destruct (default false (Blog.isDraft blog)) eqn:Hd.
    + rewrite filter_cons_False by (by rewrite Hd).
      rewrite filter_cons_True by (by rewrite Hd). cbn [length]. lia.
    + rewrite filter_cons_True by (by rewrite Hd).
      rewrite filter_cons_False by (by rewrite Hd). cbn [length]. lia.
  - intros Hviewer. rewrite bool_decide_false by done.
    unfold getDraftBlogs. clear Hcount. clearbody own.
    induction own as [|blog own IH]; [done|].
    destruct (default false (Blog.isDraft blog)) eqn:Hd.
    + rewrite filter_cons_False by (by rewrite Hd). exact IH.
    + rewrite filter_cons_True by (by rewrite Hd).
      rewrite filter_cons_False by (by rewrite Hd). exact IH.
Qed.

Lemma profile_page_counts_witness :
  Z.of_nat
    (length
       (getPublishedBlogs
          (listed (reply (listBlogs None (by_author "alice")) sample_store))))
  = published_count sample_store "alice".
Proof.
  destruct (profile_page_counts sample_store None "alice") as [Hcount _].
  - discriminate.
  - exact Hcount.
Defined.

(** ** The page buttons *)

(** X26: for a current page among the pages, [Pagination] shows
    [min totalPages 7] buttons, numbered with consecutive pages that lie
    between 1 and [totalPages] and have the current page among them; the
    test that drops a button out of that range never fires. *)
Theorem Pagination_window totalPages currentPage :
  1 < totalPages → 1 <= currentPage <= totalPages →
  ∃ first,
    Pagination totalPages currentPage = seqZ first (Z.min totalPages 7)
    ∧ 1 <= first
    ∧ first + Z.min totalPages 7 - 1 <= totalPages
    ∧ first <= currentPage < first + Z.min totalPages 7.
Proof.
  intros Htotal Hcurrent.
  exists (pageNum totalPages currentPage 0).
  assert (∀ i, pageNum totalPages currentPage i
               = pageNum totalPages currentPage 0 + i) as Hnum.
  { intros i. unfold pageNum.
    repeat match goal with |- context [?a <=? ?b] =>
      destruct (Z.leb_spec a b) end; lia. }
  assert (1 <= pageNum totalPages currentPage 0
          ∧ pageNum totalPages currentPage 0 + Z.min totalPages 7 - 1
            <= totalPages
          ∧ pageNum totalPages currentPage 0 <= currentPage
            < pageNum totalPages currentPage 0 + Z.min totalPages 7)
    as Hfirst.
  { unfold pageNum.
    repeat match goal with |- context [?a <=? ?b] =>
      destruct (Z.leb_spec a b) end; lia. }
  split; [|exact Hfirst].
  unfold Pagination. rewrite (proj2 (Z.ltb_lt 1 totalPages)) by done.
  rewrite <- (Z.add_0_r (pageNum totalPages currentPage 0)) at 1.
  rewrite <- fmap_add_seqZ.
  set (n := Z.min totalPages 7) in *.
  assert (∀ i, i ∈ seqZ 0 n → 0 <= i < n) as Hrange
    by (intros i Hi%elem_of_seqZ; lia).
  induction (seqZ 0 n) as [|i l IH]; [done|].
  cbn [omap list_omap fmap list_fmap].
  assert (0 <= i < n) as Hi by (apply Hrange; by left).
  rewrite (Hnum i).
  rewrite (proj2 (Z.ltb_ge _ 1)) by lia.
  rewrite (proj2 (Z.ltb_ge totalPages _)) by lia.
  cbn [orb]. f_equal. apply IH. intros j Hj. apply Hrange. by right.
Qed.

Lemma Pagination_window_witness :
  ∃ first,
    Pagination 20 9 = seqZ first (Z.min 20 7) ∧ first <= 9 < first + 7.
Proof.
  destruct (Pagination_window 20 9) as (first & Hshown & _ & _ & Hin);
    [lia..|].
  exists first. split; [exact Hshown|exact Hin].
Defined.

(** ** Loading the home page *)

(** X27: the home page asks for twelve blogs a page.  For a page from 1
    on it is given the twelve blogs of that page, newest first, or fewer
    at the end; the page count that it keeps is the server's, and 1 when
    nothing matches; more than one page is counted exactly when more than
    twelve blogs match. *)
Theorem loadBlogs_pages st user currentPage searchQuery activeTag found :
  1 <= currentPage →
  reply (matchingPublished searchQuery activeTag) st = Json found →
  let answer :=
    reply (listBlogs user (loadBlogs_query currentPage searchQuery activeTag))
      st in
  listed answer
  = take 12 (drop (12 * Z.to_nat (currentPage - 1))
               (sort_newest_first Blog.createdAt found))
  ∧ (length (listed answer) ≤ 12)%nat
  ∧ loaded_totalPages answer
    = Z.max 1 (Js.ceil_div (Z.of_nat (length found)) 12)
  ∧ (1 < loaded_totalPages answer ↔ (12 < length found)%nat).
Proof.
  intros Hpage Hfound answer. subst answer.
  set (q := loadBlogs_query currentPage searchQuery activeTag).
  set (answer := reply (listBlogs user q) st).
  assert (default "" (query_search q) = searchQuery) as Hs
    by (unfold q, loadBlogs_query; cbn; by case_bool_decide).
  assert (default "" (query_tag q) = activeTag) as Ht
    by (unfold q, loadBlogs_query; cbn; by case_bool_decide).
  destruct (listBlogs_page st user q found) as [Hlisted Hpages];
    [done|by rewrite Hs, Ht|done..|].
  fold answer in Hlisted, Hpages.
  change (default 10 (query_limit q)) with 12 in Hlisted, Hpages.
  change (default 1 (query_page q)) with currentPage in Hlisted.
  change (Z.to_nat 12) with 12%nat in Hlisted.
  assert (Z.to_nat ((currentPage - 1) * 12) = (12 * Z.to_nat (currentPage - 1))%nat)
    as Hoff by lia.
  rewrite Hoff in Hlisted.
  assert (loaded_totalPages answer
          = Z.max 1 (Js.ceil_div (Z.of_nat (length found)) 12)) as Htotal.
  { unfold loaded_totalPages. rewrite Hpages. unfold Js.ceil_div.
    destruct (Z.eqb_spec (- (- Z.of_nat (length found) / 12)) 0) as [E|E];
      [lia|].
    assert (- Z.of_nat (length found) / 12 <= 0)
      by (apply Z.div_le_upper_bound; lia).
    lia. }
  split; [exact Hlisted|]. split; [|split; [exact Htotal|]].
  - rewrite Hlisted, length_take. lia.
  - rewrite Htotal. unfold Js.ceil_div.
    pose proof (Z.div_mod (- Z.of_nat (length found)) 12 ltac:(lia)).
    pose proof (Z.mod_pos_bound (- Z.of_nat (length found)) 12 ltac:(lia)).
    lia.
Qed.

Lemma loadBlogs_pages_witness :
  loaded_totalPages
    (reply (listBlogs None (loadBlogs_query 1 "" "")) three_posts)
  = Z.max 1 (Js.ceil_div (Z.of_nat (length three_found)) 12).
Proof.
  destruct (loadBlogs_pages three_posts None 1 "" "" three_found)
    as (_ & _ & Htotal & _).
  - lia.
  - vm_compute. reflexivity.
  - exact Htotal.
Defined.

(** ** The public listing without filters *)

Lemma visit_published_unfiltered st entry :
  visit_published "" "" entry st = (st, Json (pushed_id st entry)).
Proof.
  unfold visit_published, pushed_id. run.
  by destruct (blogKeys st !! blog_key (Blog.id entry)).
Qed.

Lemma matchingPublished_unfiltered st :
  matchingPublished "" "" st
  = (st,
     Json (omap (λ id, blogKeys st !! blog_key id)
             (concat (pushed_id st <$> scan published_prefix (blogKeys st))))).
Proof.
  unfold matchingPublished.
  cbv beta iota delta [mbind mret Handler_bind Handler_ret kv.blogsByPrefix].
  rewrite (mapAll_lookups _ pushed_id)
    by (intros entry; apply visit_published_unfiltered).
  rewrite (mapAll_lookups _ (λ st id, blogKeys st !! blog_key id)) by done.
  by rewrite omap_lookups.
Qed.

Lemma elem_of_page {A} (x : A) (xs : list A) (limit : Z) :
  1 <= limit → x ∈ xs →
  ∃ page, 1 <= page
          ∧ x ∈ take (Z.to_nat limit) (drop (Z.to_nat ((page - 1) * limit)) xs).
Proof.
  intros Hlimit [i Hi]%list_elem_of_lookup_1.
  exists (Z.of_nat i / limit + 1).
  assert (0 <= Z.of_nat i / limit) by (apply Z.div_pos; lia).
  split; [lia|].
  pose proof (Z.div_mod (Z.of_nat i) limit ltac:(lia)) as Hdiv.
  pose proof (Z.mod_pos_bound (Z.of_nat i) limit ltac:(lia)) as Hmod.
  replace (Z.of_nat i / limit + 1 - 1) with (Z.of_nat i / limit) by lia.
  apply (list_elem_of_lookup_2 _ (Z.to_nat (Z.of_nat i mod limit))).
  rewrite lookup_take_lt by lia. rewrite lookup_drop.
  replace (Z.to_nat (Z.of_nat i / limit * limit)
           + Z.to_nat (Z.of_nat i mod limit))%nat with i by nia.
  exact Hi.
Qed.

(** X28: without a search text and a tag the scan of the index cannot
    fail, whatever the records look like: it answers the records that the
    index entries lead to.  A blog created as published is among them at
    once, and for every limit from 1 on it is on one of the pages of the
    public listing. *)
Theorem published_blog_found st caller body title content blogId now :
  body_title body = Some title → title ≠ "" →
  body_content body = Some content → content ≠ "" →
  default false (body_isDraft body) = false →
  let st' := store_after (createBlog (Some caller) body blogId now) st in
  ∃ created found,
    reply (createBlog (Some caller) body blogId now) st = Json created
    ∧ matchingPublished "" "" st' = (st', Json found)
    ∧ created ∈ found
    ∧ ∀ user limit, 1 <= limit →
        ∃ page, 1 <= page
                ∧ created ∈ listed (reply (listBlogs user (page_of page limit))
                                      st').
Proof.
  intros Ht Htne Hc Hcne Hdraft st'. subst st'. unfold reply, store_after.
  rewrite (createBlog_valid st caller body title content blogId now) by done.
  rewrite Hdraft. cbn [fst snd negb].
  set (blog := Blog.mk blogId title _ _ _ _ _ _ _ _ _).
  set (entry := index_entry _ _ _ _ _ _).
  set (st1 := mkStore _ _ _ _).
  assert (blogKeys st1 !! blog_key blogId = Some blog) as Hblog.
  { cbn [blogKeys st1].
    rewrite lookup_insert_ne by (symmetry; apply blog_key_ne_published_key).
    by rewrite lookup_insert_eq. }
  assert (entry ∈ scan published_prefix (blogKeys st1)) as Hentry.
  { apply elem_of_scan. exists (published_key blogId). split.
    - cbn [blogKeys st1]. by rewrite lookup_insert_eq.
    - apply starts_with_app. }
  set (found := omap (λ id, blogKeys st1 !! blog_key id)
                  (concat (pushed_id st1
                             <$> scan published_prefix (blogKeys st1)))).
  assert (blog ∈ found) as Hfound.
  { apply list_elem_of_omap. exists blogId. split; [|done].
    apply list_elem_of_In, in_concat. exists [blogId]. split; [|by left].
    apply list_elem_of_In, list_elem_of_fmap. exists entry. split; [|done].
    unfold pushed_id. change (Blog.id entry) with blogId. by rewrite Hblog. }
  exists blog, found. split; [done|].
  split; [apply matchingPublished_unfiltered|]. split; [done|].
  intros user limit Hlimit.
  destruct (elem_of_page blog (sort_newest_first Blog.createdAt found) limit)
    as (page & Hpage & Hin); [done|by rewrite sort_newest_first_perm|].
  exists page. split; [done|].
  destruct (listBlogs_page st1 user (page_of page limit) found) as [Hl _];
    try done.
  - unfold reply. by rewrite matchingPublished_unfiltered.
  - unfold reply in Hl. by rewrite Hl.
Qed.

Lemma published_blog_found_witness :
  ∃ created found,
    reply (createBlog (Some "alice") sample_body "b2" 1500) sample_store
    = Json created
    ∧ matchingPublished "" ""
        (store_after (createBlog (Some "alice") sample_body "b2" 1500)
           sample_store)
      = (store_after (createBlog (Some "alice") sample_body "b2" 1500)
           sample_store, Json found)
    ∧ created ∈ found.
Proof.
  destruct (published_blog_found sample_store "alice" sample_body
              "Hello World" "my first post" "b2" 1500)
    as (created & found & Hr & Hscan & Hin & _);
    [reflexivity|discriminate|reflexivity|discriminate|reflexivity|].
  exists created, found. split; [exact Hr|]. split; [exact Hscan|exact Hin].
Defined.
